(** * Adaptive preference-elicitation engine ("Decisive decision app")

    A shallow embedding of the conjoint engine of
    [Anxiety_Detection/Decisive decision app.py]:
    the belief store and its two updaters, the orthogonal fallback
    generator, the counterfactual step, the convergence check, the question
    loop of [run_elicitation_session] and the end-of-session MCMC
    reconciliation.

    Modelling conventions.
    - Python [float]s are exact rationals ([Q]); [max] and [min] are
      Python's two-argument built-ins (the first argument wins a tie).
      The convergence check has a second model on IEEE 754 doubles, for
      the answers that rounding decides.
    - Python [dict]s are insertion-ordered, and the program observes that
      order ([list(d.keys())[0]], [enumerate(crit_names)], stable sorting of
      the items), so a dict is an association list with update in place and
      insertion at the end.
    - Python [int]s are [Z].
    - The design oracle (the R script), the sampler (PyMC) and the user at
      the console are the environment: their replies are inputs. *)

From Stdlib Require Import QArith Qminmax ZArith List String Ascii Bool Lia Lqa.
From Stdlib Require Import DecimalString Permutation Sorted.
From Corelib Require SpecFloat.
Import ListNotations.
Open Scope string_scope.

(** ** Insertion-ordered dictionaries *)

Module Dict.
Section Defs.
Context {V : Type}.

Definition t := list (string * V).

(** [d.get(k)] *)
Fixpoint get (d : t) (k : string) : option V :=
  match d with
  | [] => None
  | (k', v) :: d' => if String.eqb k' k then Some v else get d' k
  end.

(** [k in d] *)
Definition mem (d : t) (k : string) : bool :=
  match get d k with Some _ => true | None => false end.

(** [d[k] = v]: an existing key keeps its position, a new key goes last. *)
Fixpoint set (k : string) (v : V) (d : t) : t :=
  match d with
  | [] => [(k, v)]
  | (k', v') :: d' =>
      if String.eqb k' k then (k', v) :: d' else (k', v') :: set k v d'
  end.

Definition keys (d : t) : list string := map fst d.
Definition values (d : t) : list V := map snd d.
Definition items (d : t) : list (string * V) := d.

(** Dict equality [d1 == d2] does not look at the order. *)
Definition eqb (veqb : V -> V -> bool) (d1 d2 : t) : bool :=
  Nat.eqb (List.length d1) (List.length d2)
  && forallb (fun kv => match get d2 (fst kv) with
                        | Some v => veqb (snd kv) v
                        | None => false
                        end) d1.
End Defs.
Arguments t : clear implicits.
End Dict.

(** ** Numbers *)

Open Scope Q_scope.

(** [a < b] on floats, as a boolean. *)
Definition Qlt_bool (a b : Q) : bool := negb (Qle_bool b a).

(** Python's [max(a, b)] is [a] unless [b > a]. *)
Definition py_max (a b : Q) : Q := if Qle_bool b a then a else b.
(** Python's [min(a, b)] is [a] unless [b < a]. *)
Definition py_min (a b : Q) : Q := if Qle_bool a b then a else b.

(** Python list indexing [l[i]]: negative indices count from the end,
    anything out of range raises [IndexError] ([None]). *)
Definition py_index {A} (l : list A) (i : Z) : option A :=
  let n := Z.of_nat (List.length l) in
  if (0 <=? i)%Z then nth_error l (Z.to_nat i)
  else if (0 <=? n + i)%Z then nth_error l (Z.to_nat (n + i))
  else None.

(** [l.index(x)] on a list of strings; [None] is [ValueError]. *)
Fixpoint list_index (l : list string) (x : string) : option Z :=
  match l with
  | [] => None
  | y :: l' =>
      if String.eqb y x then Some 0%Z
      else match list_index l' x with
           | Some i => Some (i + 1)%Z
           | None => None
           end
  end.

(** ** Data model *)

(** One entry of [self.utilities[crit]]: [{'mean': .., 'variance': ..}]. *)
Record belief := { mean : Q; variance : Q }.

(** [self.utilities]: criterion -> level -> belief. *)
Definition utilities := Dict.t (Dict.t belief).

(** A profile: criterion -> level name. *)
Definition profile := Dict.t string.

(** [self.criteria_levels]: criterion -> ordered level names. *)
Definition criteria := Dict.t (list string).

Definition profile_eqb (p q : profile) : bool := Dict.eqb String.eqb p q.

(** ** Belief store *)

(** [crit in self.utilities and lvl in self.utilities[crit]] *)
Definition has_belief (u : utilities) (crit lvl : string) : bool :=
  match Dict.get u crit with
  | Some tbl => Dict.mem tbl lvl
  | None => false
  end.

Definition get_belief (u : utilities) (crit lvl : string) : option belief :=
  match Dict.get u crit with
  | Some tbl => Dict.get tbl lvl
  | None => None
  end.

(** In-place change of the belief object [self.utilities[crit][lvl]]. *)
Definition alter_belief (f : belief -> belief) (u : utilities)
    (crit lvl : string) : utilities :=
  match Dict.get u crit with
  | Some tbl =>
      match Dict.get tbl lvl with
      | Some b => Dict.set crit (Dict.set lvl (f b) tbl) u
      | None => u
      end
  | None => u
  end.

(** ** Heuristic main-choice updater: [_update_utilities_simplified] *)

(** [mean += 0.2; variance *= 0.9; variance = max(0.01, variance)] *)
Definition bump_chosen (b : belief) : belief :=
  {| mean := mean b + 0.2; variance := py_max 0.01 (variance b * 0.9) |}.

(** [mean -= 0.1; variance *= 0.95; variance = max(0.01, variance)] *)
Definition bump_unchosen (b : belief) : belief :=
  {| mean := mean b - 0.1; variance := py_max 0.01 (variance b * 0.95) |}.

Definition update_chosen_item (u : utilities) (it : string * string) : utilities :=
  let '(crit, lvl) := it in
  if has_belief u crit lvl then alter_belief bump_chosen u crit lvl else u.

Definition update_unchosen_item (chosen : profile) (u : utilities)
    (it : string * string) : utilities :=
  let '(crit, lvl) := it in
  if Dict.mem chosen crit
     && negb (match Dict.get chosen crit with
              | Some l => String.eqb l lvl
              | None => false
              end)
  then if has_belief u crit lvl then alter_belief bump_unchosen u crit lvl else u
  else u.

Definition update_utilities_simplified (u : utilities)
    (chosen unchosen : profile) : utilities :=
  let u1 := fold_left update_chosen_item (Dict.items chosen) u in
  fold_left (update_unchosen_item chosen) (Dict.items unchosen) u1.

(** ** Counterfactual updater: [_update_utilities_from_counterfactual] *)

Definition cf_switched_improved (b : belief) : belief :=
  {| mean := py_min 2.0 (mean b + 0.5); variance := py_max 0.01 (variance b * 0.6) |}.
Definition cf_switched_original (b : belief) : belief :=
  {| mean := py_max (-2.0) (mean b - 0.3); variance := py_max 0.01 (variance b * 0.8) |}.
Definition cf_stayed_improved (b : belief) : belief :=
  {| mean := py_max (-2.0) (mean b - 0.2); variance := py_max 0.01 (variance b * 0.7) |}.
Definition cf_stayed_original (b : belief) : belief :=
  {| mean := py_max (-2.0) (mean b - 0.1); variance := variance b |}.

(** The closing loop over every belief of the store. *)
Definition clamp_belief (b : belief) : belief :=
  {| mean := py_max (-2.0) (py_min 2.0 (mean b));
     variance := py_max 0.01 (variance b) |}.

Definition clamp_all (u : utilities) : utilities :=
  map (fun ct => (fst ct, map (fun lb => (fst lb, clamp_belief (snd lb))) (snd ct))) u.

(** [util_original_level] and [util_improved_level] are references into the
    store: when both names denote one object the four assignments act on it
    in program order, which is what chaining [alter_belief] does. *)
Definition update_utilities_from_counterfactual (u : utilities)
    (criterion_changed original_level improved_level : string)
    (user_switched : bool) : utilities :=
  if negb (Dict.mem u criterion_changed)
     || negb (has_belief u criterion_changed original_level)
     || negb (has_belief u criterion_changed improved_level)
  then u
  else
    let u1 :=
      if user_switched then
        alter_belief cf_switched_original
          (alter_belief cf_switched_improved u criterion_changed improved_level)
          criterion_changed original_level
      else
        alter_belief cf_stayed_original
          (alter_belief cf_stayed_improved u criterion_changed improved_level)
          criterion_changed original_level in
    clamp_all u1.

(** ** Convergence check: [_check_convergence] *)

Definition all_level_data (u : utilities) : list belief :=
  flat_map (fun ct => match snd ct with
                      | [] => []
                      | tbl => Dict.values tbl
                      end) u.

Definition total_variance (l : list belief) : Q :=
  fold_left (fun acc b => acc + variance b) l 0.

Definition check_convergence (u : utilities) : bool :=
  let data := all_level_data u in
  match data with
  | [] => false
  | _ =>
      let num_levels := Z.of_nat (List.length data) in
      if (num_levels =? 0)%Z then false
      else
        let avg_variance := total_variance data / inject_Z num_levels in
        let convergence_threshold := 1.0 in
        Qlt_bool avg_variance convergence_threshold
  end.

(** ** The convergence check on Python floats

    Where the average sits on the threshold, the rounding of the float
    operations decides the answer.  This second model of
    [_check_convergence] keeps the variances as IEEE 754 binary64 numbers,
    with the arithmetic of the Standard Library's [SpecFloat] (round to
    nearest, ties to even); the exact model above is the one the rest of
    the development works with. *)













(** ** Engine state: the fields of [BayesianUBC_Engine] *)

Open Scope Z_scope.
Open Scope list_scope.

Inductive strategy :=
| PYTHON_ORTHOGONAL_CF
| CEA_BLOCK_CF
| MODFED_DIRECT
| MODFED_ADAPTIVE.

Definition strategy_eqb (a b : strategy) : bool :=
  match a, b with
  | PYTHON_ORTHOGONAL_CF, PYTHON_ORTHOGONAL_CF
  | CEA_BLOCK_CF, CEA_BLOCK_CF
  | MODFED_DIRECT, MODFED_DIRECT
  | MODFED_ADAPTIVE, MODFED_ADAPTIVE => true
  | _, _ => false
  end.

(** A profile as a collaborator hands it over: [None] is JSON [null] or a
    missing key. *)
Definition oprofile := option profile.

(** One recorded answer [(profile_a, profile_b, chosen_idx)]. *)
Definition response := (profile * profile * Z)%type.

Record engine := {
  criteria_levels : criteria;
  utilities_of : utilities;
  orthogonal_fallback_pair_idx_counter : Z;
  initial_strategy : strategy;
  initial_block_size_cea : Z;
  MAX_PYTHON_ORTHO_CF_QUESTIONS : Z;
  initial_questions_done : Z;
  cea_block_cache : list (oprofile * oprofile);
  cea_block_cache_idx : Z;
  question_count : Z;
  session_history : list response;
  r_idefix_consecutive_failures : Z
}.

Definition set_utilities (e : engine) (u : utilities) : engine :=
  {| criteria_levels := criteria_levels e; utilities_of := u;
     orthogonal_fallback_pair_idx_counter := orthogonal_fallback_pair_idx_counter e;
     initial_strategy := initial_strategy e;
     initial_block_size_cea := initial_block_size_cea e;
     MAX_PYTHON_ORTHO_CF_QUESTIONS := MAX_PYTHON_ORTHO_CF_QUESTIONS e;
     initial_questions_done := initial_questions_done e;
     cea_block_cache := cea_block_cache e;
     cea_block_cache_idx := cea_block_cache_idx e;
     question_count := question_count e;
     session_history := session_history e;
     r_idefix_consecutive_failures := r_idefix_consecutive_failures e |}.

Definition set_counter (e : engine) (c : Z) : engine :=
  {| criteria_levels := criteria_levels e; utilities_of := utilities_of e;
     orthogonal_fallback_pair_idx_counter := c;
     initial_strategy := initial_strategy e;
     initial_block_size_cea := initial_block_size_cea e;
     MAX_PYTHON_ORTHO_CF_QUESTIONS := MAX_PYTHON_ORTHO_CF_QUESTIONS e;
     initial_questions_done := initial_questions_done e;
     cea_block_cache := cea_block_cache e;
     cea_block_cache_idx := cea_block_cache_idx e;
     question_count := question_count e;
     session_history := session_history e;
     r_idefix_consecutive_failures := r_idefix_consecutive_failures e |}.

Definition set_initial_strategy (e : engine) (s : strategy) : engine :=
  {| criteria_levels := criteria_levels e; utilities_of := utilities_of e;
     orthogonal_fallback_pair_idx_counter := orthogonal_fallback_pair_idx_counter e;
     initial_strategy := s;
     initial_block_size_cea := initial_block_size_cea e;
     MAX_PYTHON_ORTHO_CF_QUESTIONS := MAX_PYTHON_ORTHO_CF_QUESTIONS e;
     initial_questions_done := initial_questions_done e;
     cea_block_cache := cea_block_cache e;
     cea_block_cache_idx := cea_block_cache_idx e;
     question_count := question_count e;
     session_history := session_history e;
     r_idefix_consecutive_failures := r_idefix_consecutive_failures e |}.

Definition set_max_ortho (e : engine) (m : Z) : engine :=
  {| criteria_levels := criteria_levels e; utilities_of := utilities_of e;
     orthogonal_fallback_pair_idx_counter := orthogonal_fallback_pair_idx_counter e;
     initial_strategy := initial_strategy e;
     initial_block_size_cea := initial_block_size_cea e;
     MAX_PYTHON_ORTHO_CF_QUESTIONS := m;
     initial_questions_done := initial_questions_done e;
     cea_block_cache := cea_block_cache e;
     cea_block_cache_idx := cea_block_cache_idx e;
     question_count := question_count e;
     session_history := session_history e;
     r_idefix_consecutive_failures := r_idefix_consecutive_failures e |}.

Definition set_questions_done (e : engine) (d : Z) : engine :=
  {| criteria_levels := criteria_levels e; utilities_of := utilities_of e;
     orthogonal_fallback_pair_idx_counter := orthogonal_fallback_pair_idx_counter e;
     initial_strategy := initial_strategy e;
     initial_block_size_cea := initial_block_size_cea e;
     MAX_PYTHON_ORTHO_CF_QUESTIONS := MAX_PYTHON_ORTHO_CF_QUESTIONS e;
     initial_questions_done := d;
     cea_block_cache := cea_block_cache e;
     cea_block_cache_idx := cea_block_cache_idx e;
     question_count := question_count e;
     session_history := session_history e;
     r_idefix_consecutive_failures := r_idefix_consecutive_failures e |}.

Definition set_cache (e : engine) (c : list (oprofile * oprofile)) (i : Z) : engine :=
  {| criteria_levels := criteria_levels e; utilities_of := utilities_of e;
     orthogonal_fallback_pair_idx_counter := orthogonal_fallback_pair_idx_counter e;
     initial_strategy := initial_strategy e;
     initial_block_size_cea := initial_block_size_cea e;
     MAX_PYTHON_ORTHO_CF_QUESTIONS := MAX_PYTHON_ORTHO_CF_QUESTIONS e;
     initial_questions_done := initial_questions_done e;
     cea_block_cache := c;
     cea_block_cache_idx := i;
     question_count := question_count e;
     session_history := session_history e;
     r_idefix_consecutive_failures := r_idefix_consecutive_failures e |}.

Definition set_question_count (e : engine) (n : Z) : engine :=
  {| criteria_levels := criteria_levels e; utilities_of := utilities_of e;
     orthogonal_fallback_pair_idx_counter := orthogonal_fallback_pair_idx_counter e;
     initial_strategy := initial_strategy e;
     initial_block_size_cea := initial_block_size_cea e;
     MAX_PYTHON_ORTHO_CF_QUESTIONS := MAX_PYTHON_ORTHO_CF_QUESTIONS e;
     initial_questions_done := initial_questions_done e;
     cea_block_cache := cea_block_cache e;
     cea_block_cache_idx := cea_block_cache_idx e;
     question_count := n;
     session_history := session_history e;
     r_idefix_consecutive_failures := r_idefix_consecutive_failures e |}.

Definition set_history (e : engine) (h : list response) : engine :=
  {| criteria_levels := criteria_levels e; utilities_of := utilities_of e;
     orthogonal_fallback_pair_idx_counter := orthogonal_fallback_pair_idx_counter e;
     initial_strategy := initial_strategy e;
     initial_block_size_cea := initial_block_size_cea e;
     MAX_PYTHON_ORTHO_CF_QUESTIONS := MAX_PYTHON_ORTHO_CF_QUESTIONS e;
     initial_questions_done := initial_questions_done e;
     cea_block_cache := cea_block_cache e;
     cea_block_cache_idx := cea_block_cache_idx e;
     question_count := question_count e;
     session_history := h;
     r_idefix_consecutive_failures := r_idefix_consecutive_failures e |}.

Definition set_failures (e : engine) (n : Z) : engine :=
  {| criteria_levels := criteria_levels e; utilities_of := utilities_of e;
     orthogonal_fallback_pair_idx_counter := orthogonal_fallback_pair_idx_counter e;
     initial_strategy := initial_strategy e;
     initial_block_size_cea := initial_block_size_cea e;
     MAX_PYTHON_ORTHO_CF_QUESTIONS := MAX_PYTHON_ORTHO_CF_QUESTIONS e;
     initial_questions_done := initial_questions_done e;
     cea_block_cache := cea_block_cache e;
     cea_block_cache_idx := cea_block_cache_idx e;
     question_count := question_count e;
     session_history := session_history e;
     r_idefix_consecutive_failures := n |}.

(** ** Orthogonal fallback generator: [_get_python_orthogonal_pair] *)

Definition L9_PROFILES : list (list Z) :=
  [[0;0;0]; [0;1;1]; [0;2;2]; [1;0;1]; [1;1;2]; [1;2;0]; [2;0;2]; [2;1;0]; [2;2;1]].

Definition ORTHOGONAL_PAIRS_INDICES : list (Z * Z) :=
  [(0,4); (1,5); (2,6); (3,8); (0,7); (1,3); (2,5); (4,8); (6,0)].

Definition MAX_ORTHOGONAL_FALLBACK_TOTAL : Z :=
  Z.of_nat (List.length ORTHOGONAL_PAIRS_INDICES).

(** The loop [for i, crit_name in enumerate(crit_names)]: it fills both
    profiles and leaves with [None] at the first criterion that does not
    have three levels.  The rows of the constant table have three entries,
    so [nth] stands for their subscript. *)
Fixpoint fill_profiles (cl : criteria) (crit_names : list string) (i : nat)
    (a_idx b_idx : list Z) (pa pb : profile) : option (profile * profile) :=
  match crit_names with
  | [] => Some (pa, pb)
  | crit_name :: rest =>
      match Dict.get cl crit_name with
      | None => None
      | Some levels_for_crit =>
          if negb (Nat.eqb (List.length levels_for_crit) 3) then None
          else
            match py_index levels_for_crit (nth i a_idx 0),
                  py_index levels_for_crit (nth i b_idx 0) with
            | Some la, Some lb =>
                fill_profiles cl rest (S i) a_idx b_idx
                  (Dict.set crit_name la pa) (Dict.set crit_name lb pb)
            | _, _ => None
            end
      end
  end.

Definition get_python_orthogonal_pair (e : engine)
    : option (profile * profile) * engine :=
  let cl := criteria_levels e in
  if negb (Nat.eqb (List.length cl) 3) then (None, e)
  else
    let pair_definition_indices :=
      nth (Z.to_nat (orthogonal_fallback_pair_idx_counter e
                     mod MAX_ORTHOGONAL_FALLBACK_TOTAL))
          ORTHOGONAL_PAIRS_INDICES (0, 0) in
    let profile_a_indices :=
      nth (Z.to_nat (fst pair_definition_indices)) L9_PROFILES [] in
    let profile_b_indices :=
      nth (Z.to_nat (snd pair_definition_indices)) L9_PROFILES [] in
    match fill_profiles cl (Dict.keys cl) 0
            profile_a_indices profile_b_indices [] [] with
    | None => (None, e)
    | Some (pa, pb) =>
        (Some (pa, pb),
         set_counter e (orthogonal_fallback_pair_idx_counter e + 1))
    end.

(** ** Counterfactual refinement *)

(** First element with the greatest variance: what
    [sort(key=lambda x: x[0], reverse=True)] puts at position 0, the sort
    being stable. *)
Fixpoint first_max (best : Q * string * string * Z)
    (l : list (Q * string * string * Z)) : Q * string * string * Z :=
  match l with
  | [] => best
  | x :: l' =>
      if Qlt_bool (fst (fst (fst best))) (fst (fst (fst x)))
      then first_max x l' else first_max best l'
  end.

Definition uncertain_levels (e : engine) (profile_to_consider : profile)
    : list (Q * string * string * Z) :=
  flat_map
    (fun cd : string * Dict.t belief =>
       let '(crit, levels_data) := cd in
       match Dict.get profile_to_consider crit with
       | None => []
       | Some actual_level_on_profile =>
           match Dict.get (criteria_levels e) crit with
           | None | Some [] => []
           | Some crit_defined_levels =>
               match list_index crit_defined_levels actual_level_on_profile with
               | None => []
               | Some level_idx_on_profile =>
                   match Dict.get levels_data actual_level_on_profile with
                   | None => []
                   | Some util_info =>
                       [(variance util_info, crit, actual_level_on_profile,
                         level_idx_on_profile)]
                   end
               end
           end
       end)
    (utilities_of e).

(** [_find_most_uncertain_level]; [(None, "", -1)] is [(None, None, -1)]. *)
Definition find_most_uncertain_level (e : engine) (profile_to_consider : profile)
    : option string * string * Z :=
  match uncertain_levels e profile_to_consider with
  | [] =>
      match profile_to_consider with
      | (crit, lvl_name) :: _ =>
          match list_index (match Dict.get (criteria_levels e) crit with
                            | Some l => l | None => [] end) lvl_name with
          | Some lvl_idx => (Some crit, lvl_name, lvl_idx)
          | None => (None, "", -1)
          end
      | [] => (None, "", -1)
      end
  | x :: l =>
      let '(_, crit, lvl, idx) := first_max x l in (Some crit, lvl, idx)
  end.

(** The loop [for i in range(n): if i != original: improved = i; break]. *)
Fixpoint first_differing (fuel : nat) (i original improved : Z) : Z :=
  match fuel with
  | O => improved
  | S fuel' =>
      if negb (i =? original) then i
      else first_differing fuel' (i + 1) original improved
  end.

(** The chain [if original_level_idx == 0: ... elif ... == 1: ... elif ...
    == 2: ...] over the initial value [-1]. *)
Definition transition_table (original_level_idx : Z) : Z :=
  if original_level_idx =? 0 then 1
  else if original_level_idx =? 1 then 2
  else if original_level_idx =? 2 then 1
  else -1.

(** The alternative index for a criterion with [n] levels; [None] is the
    "Cannot find a distinct alternative level" skip. *)
Definition improved_level_index (n : nat) (original_level_idx : Z) : option Z :=
  let improved_level_idx := transition_table original_level_idx in
  if negb ((0 <=? improved_level_idx) && (improved_level_idx <? Z.of_nat n))
     || (improved_level_idx =? original_level_idx)
  then
    let improved_level_idx' :=
      first_differing n 0 original_level_idx improved_level_idx in
    if improved_level_idx' =? original_level_idx then None
    else Some improved_level_idx'
  else Some improved_level_idx.

Inductive cf_plan :=
| CF_Skip
| CF_IndexError
| CF_Ask (target_criterion original_level improved_level : string)
         (improved_level_idx : Z) (modified_rejected_profile : profile).

(** The target of the counterfactual: the answer of
    [_find_most_uncertain_level] when it names a criterion, else the first
    criterion of the rejected profile. *)
Definition counterfactual_target (e : engine) (rejected_profile_main : profile)
    : option (string * string * Z) :=
  let '(tc, tl, oi) := find_most_uncertain_level e rejected_profile_main in
  let found :=
    match tc with
    | Some c => if String.eqb c "" then None else Some (c, tl, oi)
    | None => None
    end in
  match found with
  | Some t => Some t
  | None =>
      match rejected_profile_main with
      | (c, l) :: _ =>
          match list_index (match Dict.get (criteria_levels e) c with
                            | Some ls => ls | None => [] end) l with
          | Some i => Some (c, l, i)
          | None => None
          end
      | [] => None
      end
  end.

(** [_ask_and_process_counterfactual] up to the question it puts. *)
Definition counterfactual_plan (e : engine)
    (chosen_profile_main rejected_profile_main : profile) : cf_plan :=
  let target := counterfactual_target e rejected_profile_main in
  match target with
  | None => CF_Skip
  | Some (target_criterion, target_level_original_rejected, original_level_idx) =>
      match Dict.get (criteria_levels e) target_criterion with
      | None => CF_Skip
      | Some levels_for_criterion =>
          if negb (Nat.eqb (List.length levels_for_criterion) 3) then CF_Skip
          else
            match improved_level_index (List.length levels_for_criterion)
                    original_level_idx with
            | None => CF_Skip
            | Some improved_level_idx =>
                match py_index levels_for_criterion improved_level_idx with
                | None => CF_IndexError
                | Some improved_level =>
                    let modified_rejected_profile :=
                      Dict.set target_criterion improved_level
                        rejected_profile_main in
                    if profile_eqb modified_rejected_profile chosen_profile_main
                    then CF_Skip
                    else CF_Ask target_criterion target_level_original_rejected
                           improved_level improved_level_idx
                           modified_rejected_profile
                end
            end
      end
  end.

(** ** The question loop: [run_elicitation_session] *)

(** What the session does that an observer can see: requests to the design
    oracle, the messages that matter for the claims, and the questions.
    [RequestBlock] and [RequestSingle] stand for a call of
    [request_R_design] in mode "cea_block" and "modfed_single"; whether the
    call gets as far as running the R script is the callee's matter. *)
Inductive event :=
| RequestBlock
| BlockFetchFailed
| RequestSingle
| SingleFetchFailed
| EscalationWarning
| NoValidQuestion
| AskQuestion (profile_a profile_b : profile)
| AskCounterfactual (modified_rejected chosen : profile)
| ConvergedMessage.

(** The environment's part in one turn of the loop.  A design reply is
    [None] when [request_R_design] returns an error message or no data.
    The profiles of a reply are dicts of level names, or null; a reply that
    carries another JSON value in their place is outside the model. *)
Record turn_input := {
  block_reply : option (list (oprofile * oprofile));
  single_reply : option (oprofile * oprofile);
  main_choice_is_a : bool;
  cf_choice_is_modified : bool
}.

(** How an iteration ends: the loop goes on, it breaks, or a list subscript
    is out of range ([IndexError]). *)
Inductive status := Continue | Break | Raised.

(** [current_phase_strategy] at the top of an iteration. *)
Definition current_phase_strategy (e : engine) : strategy :=
  if strategy_eqb (initial_strategy e) PYTHON_ORTHOGONAL_CF
     && (MAX_PYTHON_ORTHO_CF_QUESTIONS e <=? initial_questions_done e)
  then MODFED_ADAPTIVE
  else if strategy_eqb (initial_strategy e) CEA_BLOCK_CF
          && (initial_block_size_cea e <=? initial_questions_done e)
  then MODFED_ADAPTIVE
  else initial_strategy e.

Inductive generated :=
| GenBreak
| GenRaise
| GenPair (profile_a profile_b : oprofile) (perform_counterfactual : bool).

Definition incr_done (e : engine) : engine :=
  set_questions_done e (initial_questions_done e + 1).

(** Branch [PYTHON_ORTHOGONAL_CF]. *)
Definition generate_orthogonal (e : engine) : engine * list event * generated :=
  let '(r, e1) := get_python_orthogonal_pair e in
  let e2 := incr_done e1 in
  match r with
  | None => (e2, [], GenBreak)
  | Some (a, b) => (e2, [], GenPair (Some a) (Some b) true)
  end.

Definition cache_exhausted (e : engine) : bool :=
  match cea_block_cache e with
  | [] => true
  | c => Z.of_nat (List.length c) <=? cea_block_cache_idx e
  end.

(** Branch [CEA_BLOCK_CF]. *)
Definition generate_block (inp : turn_input) (e : engine)
    : engine * list event * generated :=
  let '(e1, evs) :=
    if cache_exhausted e then
      match block_reply inp with
      | None | Some [] =>
          let '(_, e') := get_python_orthogonal_pair e in
          let e' := set_initial_strategy e' PYTHON_ORTHOGONAL_CF in
          let e' := set_max_ortho e' (initial_questions_done e' + 1) in
          let e' := set_questions_done e' 0 in
          (e', [RequestBlock; BlockFetchFailed])
      | Some r_data => (set_cache e r_data 0, [RequestBlock])
      end
    else (e, []) in
  if negb (cache_exhausted e1) then
    match py_index (cea_block_cache e1) (cea_block_cache_idx e1) with
    | None => (e1, evs, GenRaise)
    | Some (profile_a, profile_b) =>
        let e2 := set_cache e1 (cea_block_cache e1) (cea_block_cache_idx e1 + 1) in
        let e3 := incr_done e2 in
        match profile_a with
        | None => (e3, evs, GenBreak)
        | Some _ => (e3, evs, GenPair profile_a profile_b true)
        end
    end
  else
    let '(r, e2) := get_python_orthogonal_pair e1 in
    let e3 := incr_done e2 in
    match r with
    | None => (e3, evs, GenBreak)
    | Some (a, b) => (e3, evs, GenPair (Some a) (Some b) true)
    end.

(** Branch [MODFED_DIRECT] / [MODFED_ADAPTIVE]. *)
Definition generate_adaptive (cps : strategy) (inp : turn_input) (e : engine)
    : engine * list event * generated :=
  let e1 :=
    if strategy_eqb cps MODFED_DIRECT
       || (negb (strategy_eqb (initial_strategy e) MODFED_DIRECT)
           && strategy_eqb cps MODFED_ADAPTIVE)
    then incr_done e else e in
  match single_reply inp with
  | None =>
      let '(r, e2) := get_python_orthogonal_pair e1 in
      let e3 := set_failures e2 (r_idefix_consecutive_failures e2 + 1) in
      match r with
      | None => (e3, [RequestSingle; SingleFetchFailed], GenBreak)
      | Some (a, b) =>
          (e3,
           [RequestSingle; SingleFetchFailed]
             ++ (if 3 <=? r_idefix_consecutive_failures e3
                 then [EscalationWarning] else []),
           GenPair (Some a) (Some b) false)
      end
  | Some (profile_a, profile_b) =>
      (set_failures e1 0, [RequestSingle], GenPair profile_a profile_b false)
  end.

Definition generate (inp : turn_input) (e : engine)
    : engine * list event * generated :=
  match current_phase_strategy e with
  | PYTHON_ORTHOGONAL_CF => generate_orthogonal e
  | CEA_BLOCK_CF => generate_block inp e
  | cps => generate_adaptive cps inp e
  end.

(** [_ask_and_process_counterfactual]: the plan, the user's answer, the
    belief update. *)
Definition ask_and_process_counterfactual (inp : turn_input) (e : engine)
    (chosen_profile_main rejected_profile_main : profile)
    : engine * list event * status :=
  match counterfactual_plan e chosen_profile_main rejected_profile_main with
  | CF_Skip => (e, [], Continue)
  | CF_IndexError => (e, [], Raised)
  | CF_Ask target_criterion original_level improved_level _ modified =>
      let user_switched := cf_choice_is_modified inp in
      (set_utilities e
         (update_utilities_from_counterfactual (utilities_of e)
            target_criterion original_level improved_level user_switched),
       [AskCounterfactual modified chosen_profile_main],
       Continue)
  end.

(** The second half of an iteration, from the user's answer to the
    convergence check. *)
Definition answer (inp : turn_input) (e1 : engine) (profile_a profile_b : profile)
    (perform_counterfactual_this_turn : bool) : engine * list event * status :=
  let chosen_idx_main := if main_choice_is_a inp then 0 else 1 in
  let chosen_profile_main := if main_choice_is_a inp then profile_a else profile_b in
  let rejected_profile_main := if main_choice_is_a inp then profile_b else profile_a in
  let e2 := set_history e1
              (session_history e1 ++ [(profile_a, profile_b, chosen_idx_main)]) in
  let e3 := set_utilities e2
              (update_utilities_simplified (utilities_of e2)
                 chosen_profile_main rejected_profile_main) in
  let '(e4, evs_cf, st) :=
    if perform_counterfactual_this_turn
    then ask_and_process_counterfactual inp e3
           chosen_profile_main rejected_profile_main
    else (e3, [], Continue) in
  match st with
  | Continue =>
      if check_convergence (utilities_of e4)
      then (e4, AskQuestion profile_a profile_b :: evs_cf ++ [ConvergedMessage], Break)
      else (e4, AskQuestion profile_a profile_b :: evs_cf, Continue)
  | st => (e4, AskQuestion profile_a profile_b :: evs_cf, st)
  end.

(** One iteration of the [for] loop. *)
Definition step (inp : turn_input) (e : engine) : engine * list event * status :=
  let e0 := set_question_count e (question_count e + 1) in
  let '(e1, evs, g) := generate inp e0 in
  match g with
  | GenBreak => (e1, evs, Break)
  | GenRaise => (e1, evs, Raised)
  | GenPair (Some profile_a) (Some profile_b) perform_counterfactual_this_turn =>
      let '(e4, evs', st) :=
        answer inp e1 profile_a profile_b perform_counterfactual_this_turn in
      (e4, evs ++ evs', st)
  | GenPair _ _ _ => (e1, evs ++ [NoValidQuestion], Break)
  end.

(** The loop [for _ in range(max_questions)]; [env i] is the environment's
    part in iteration [i]. *)
Fixpoint run_loop (fuel : nat) (i : nat) (env : nat -> turn_input) (e : engine)
    : engine * list event * status :=
  match fuel with
  | O => (e, [], Continue)
  | S fuel' =>
      let '(e1, evs, st) := step (env i) e in
      match st with
      | Continue =>
          let '(e2, evs', st') := run_loop fuel' (S i) env e1 in
          (e2, evs ++ evs', st')
      | st => (e1, evs, st)
      end
  end.

Definition max_questions : nat := 8.

Definition run_elicitation_session (env : nat -> turn_input) (e : engine)
    : engine * list event * status :=
  run_loop max_questions 0 env e.

(** ** Long-term profile: [UserProfileHBM] *)

(** [s.split(sep, 1)]: [Some (a, b)] for the two parts around the first
    separator, [None] when there is none (a one-element list). *)
Fixpoint split_first (sep : ascii) (s : string) : option (string * string) :=
  match s with
  | EmptyString => None
  | String c s' =>
      if Ascii.eqb c sep then Some (EmptyString, s')
      else match split_first sep s' with
           | Some (a, b) => Some (String c a, b)
           | None => None
           end
  end.

Definition underscore : ascii := "_"%char.

Module UserProfileHBM.

(** One stored entry; a key the JSON file lacks is [None]. *)
Record stats := { mean_utility : option Q; variance : option Q }.

Definition store := Dict.t (Dict.t stats).

(** [data] is the object in memory, [profile_file] the JSON file on disk
    ([None]: no file yet). *)
Record t := { data : store; profile_file : option store }.

Definition save (p : t) : t :=
  {| data := data p; profile_file := Some (data p) |}.

Definition get_level_prior (p : t) (criterion level : string) : Q * Q :=
  let default_mean := 0.0%Q in
  let default_var := 10.0%Q in
  match Dict.get (data p) criterion with
  | Some ((_ :: _) as tbl) =>
      match Dict.get tbl level with
      | Some s =>
          (match mean_utility s with Some m => m | None => default_mean end,
           match variance s with Some v => v | None => default_var end)
      | None => (default_mean, default_var)
      end
  | _ => (default_mean, default_var)
  end.

(** Body of the loop of [update_profile_with_posteriors]; a posterior is
    [(mean, sd)]. *)
Definition update_one (d : store) (entry : string * (Q * Q)) : store :=
  let '(param_name, (post_mean, post_sd)) := entry in
  match split_first underscore param_name with
  | Some (criterion, level) =>
      let d1 := if Dict.mem d criterion then d else Dict.set criterion [] d in
      match Dict.get d1 criterion with
      | Some tbl =>
          Dict.set criterion
            (Dict.set level
               {| mean_utility := Some post_mean;
                  variance := Some (post_sd ^ 2)%Q |} tbl) d1
      | None => d1
      end
  | None => d
  end.

Definition update_profile_with_posteriors (p : t)
    (posteriors : Dict.t (Q * Q)) : t :=
  save {| data := fold_left update_one (Dict.items posteriors) (data p);
          profile_file := profile_file p |}.

End UserProfileHBM.

(** ** Posterior reconciliation: [run_mcmc_model_in_background] *)

(** The model handed to the sampler.  [np.sqrt] is left to the sampler's
    side: the request carries [max(var, 1e-6)], the square of each
    [prior_sds] entry. *)
Record mcmc_request := {
  prior_means : list Q;
  prior_sds_squared : list Q;
  design_X : list (list bool * list bool);
  choices_Y : list Z
}.

(** The inference collaborator: whether [import pymc] succeeds, and what
    [pm.sample] followed by [pm.summary] gives, as a table from row label
    to [(mean, sd)]; [None] when sampling raises. *)
Record inference := {
  pymc_installed : bool;
  sample_summary : mcmc_request -> option (Dict.t (Q * Q))
}.

Definition param_name_of (crit level : string) : string :=
  (crit ++ String underscore level)%string.

(** The first loop: [param_names], [level_map] and [ref_levels]. *)
Definition collect_params (cl : criteria)
    : list string * Dict.t Z * Dict.t string :=
  fold_left
    (fun (acc : list string * Dict.t Z * Dict.t string)
         (cv : string * list string) =>
       let '(param_names, level_map, ref_levels) := acc in
       let '(crit, levels) := cv in
       match levels with
       | base_level :: ((_ :: _) as rest) =>
           fold_left
             (fun (acc' : list string * Dict.t Z * Dict.t string) level =>
                let '(pn, lm, rl) := acc' in
                let param_name := param_name_of crit level in
                (pn ++ [param_name],
                 Dict.set param_name (Z.of_nat (List.length pn)) lm, rl))
             rest
             (param_names, level_map, Dict.set crit base_level ref_levels)
       | _ => acc
       end)
    (Dict.items cl) ([], [], []).

Definition param_names_of (cl : criteria) : list string :=
  fst (fst (collect_params cl)).

Fixpoint set_true (i : nat) (row : list bool) : list bool :=
  match row, i with
  | [], _ => []
  | _ :: r, O => true :: r
  | b :: r, S i' => b :: set_true i' r
  end.

(** One option's indicator row of [X]. *)
Definition encode_profile (level_map : Dict.t Z) (ref_levels : Dict.t string)
    (num_params : nat) (p : profile) : list bool :=
  fold_left
    (fun row (cl : string * string) =>
       let '(crit, level) := cl in
       match Dict.get ref_levels crit with
       | Some ref =>
           if negb (String.eqb level ref) then
             match Dict.get level_map (param_name_of crit level) with
             | Some j => set_true (Z.to_nat j) row
             | None => row
             end
           else row
       | None => row
       end)
    (Dict.items p) (repeat false num_params).

Definition build_request (up : UserProfileHBM.t) (hist : list response)
    (cl : criteria) : mcmc_request :=
  let '(param_names, level_map, ref_levels) := collect_params cl in
  let num_params := List.length param_names in
  let priors :=
    map (fun p_name =>
           match split_first underscore p_name with
           | Some (crit_for_prior, level_for_prior) =>
               UserProfileHBM.get_level_prior up crit_for_prior level_for_prior
           | None => (0.0, 10.0)%Q
           end) param_names in
  {| prior_means := map fst priors;
     prior_sds_squared := map (fun mv => py_max (snd mv) 1e-6) priors;
     design_X :=
       map (fun r : response =>
              let '(p_a, p_b, _) := r in
              (encode_profile level_map ref_levels num_params p_a,
               encode_profile level_map ref_levels num_params p_b)) hist;
     choices_Y := map (fun r : response => snd r) hist |}.

Definition beta_label (i : nat) : string :=
  ("beta[" ++ NilZero.string_of_uint (Nat.to_uint i) ++ "]")%string.

(** The loop over [range(len(param_names))] that fills [posteriors]. *)
Fixpoint collect_posteriors (summary : Dict.t (Q * Q)) (i : nat)
    (param_names : list string) (posteriors : Dict.t (Q * Q)) : Dict.t (Q * Q) :=
  match param_names with
  | [] => posteriors
  | name :: rest =>
      let posteriors' :=
        match Dict.get summary (beta_label i) with
        | Some ms => Dict.set name ms posteriors
        | None =>
            match Dict.get summary name with
            | Some ms => Dict.set name ms posteriors
            | None => posteriors
            end
        end in
      collect_posteriors summary (S i) rest posteriors'
  end.

Inductive mcmc_outcome :=
| SkippedNoPyMC
| SkippedNoParameters
| SamplingFailed
| ProfileUpdated.

Definition run_mcmc_model_in_background (inf : inference)
    (user_profile : UserProfileHBM.t) (hist : list response) (cl : criteria)
    : mcmc_outcome * UserProfileHBM.t :=
  if negb (pymc_installed inf) then (SkippedNoPyMC, user_profile)
  else
    let param_names := param_names_of cl in
    match param_names with
    | [] => (SkippedNoParameters, user_profile)
    | _ =>
        match sample_summary inf (build_request user_profile hist cl) with
        | None => (SamplingFailed, user_profile)
        | Some summary =>
            let posteriors := collect_posteriors summary 0 param_names [] in
            (ProfileUpdated,
             UserProfileHBM.update_profile_with_posteriors user_profile posteriors)
        end
    end.

(** ** Level ordering: [normalize_level_ordering] *)

(** Strings are byte strings.  [str.lower] is modelled on the ASCII
    letters; the bytes of other characters are kept, which agrees with
    Python wherever an indicator word can match, the indicator words being
    ASCII. *)
Definition ascii_lower (c : ascii) : ascii :=
  let n := nat_of_ascii c in
  if Nat.leb 65 n && Nat.leb n 90 then ascii_of_nat (n + 32) else c.

Fixpoint lower (s : string) : string :=
  match s with
  | EmptyString => EmptyString
  | String c s' => String (ascii_lower c) (lower s')
  end.

(** [sub in s] *)
Fixpoint contains (sub s : string) : bool :=
  String.prefix sub s
  || match s with
     | EmptyString => false
     | String _ s' => contains sub s'
     end.

Definition low_indicators : list string :=
  ["low"; "lower"; "less"; "fewer"; "minimal"; "basic"; "poor"; "small";
   "short"; "near"; "close"]%string.

Definition high_indicators : list string :=
  ["high"; "higher"; "more"; "greater"; "maximum"; "premium"; "excellent";
   "large"; "long"; "far"; "distant"]%string.

(** The score of one level: minus one for each low indicator it contains,
    plus one for each high indicator. *)
Definition level_score (level : string) : Z :=
  let level_lower := lower level in
  let score :=
    fold_left (fun score indicator =>
                 if contains indicator level_lower then score - 1 else score)
              low_indicators 0 in
  fold_left (fun score indicator =>
               if contains indicator level_lower then score + 1 else score)
            high_indicators score.

(** [list.sort(key=...)] is stable: an element goes before the first
    element whose key is not smaller than its own. *)
Fixpoint insert_by {A} (key : A -> Z) (x : A) (l : list A) : list A :=
  match l with
  | [] => [x]
  | y :: l' => if key y <? key x then y :: insert_by key x l' else x :: y :: l'
  end.

Fixpoint sort_by {A} (key : A -> Z) (l : list A) : list A :=
  match l with
  | [] => []
  | x :: l' => insert_by key x (sort_by key l')
  end.

(** [enumerate] with the score in front: [(score, i, level)]. *)
Fixpoint scored_levels (i : Z) (levels_list : list string)
    : list (Z * Z * string) :=
  match levels_list with
  | [] => []
  | level :: rest => (level_score level, i, level) :: scored_levels (i + 1) rest
  end.

Definition normalize_level_ordering (levels_list : list string) : list string :=
  if negb (Nat.eqb (List.length levels_list) 3) then levels_list
  else
    map (fun t : Z * Z * string => snd t)
        (sort_by (fun t : Z * Z * string => fst (fst t))
                 (scored_levels 0 levels_list)).

(** ** Prior generation: [LLMInformedPriorGenerator] *)

Definition heuristic_utility_by_position (position total_levels : Z) : Q :=
  if total_levels =? 3 then
    if position =? 1 then 0.3%Q
    else if position =? 2 then (-0.1)%Q
    else (0.1 * inject_Z position)%Q
  else if total_levels =? 2 then
    if position =? 1 then 0.2%Q else (0.1 * inject_Z position)%Q
  else (0.1 * inject_Z position)%Q.

(** The loop [for i, level in enumerate(levels)] that fills one criterion's
    table; [belief_at i level] is the belief of level number [i]. *)
Fixpoint fill_levels (belief_at : Z -> string -> belief) (i : Z)
    (levels : list string) (tbl : Dict.t belief) : Dict.t belief :=
  match levels with
  | [] => tbl
  | level :: rest =>
      fill_levels belief_at (i + 1) rest (Dict.set level (belief_at i level) tbl)
  end.

Definition default_belief_at (total_levels : Z) (i : Z) (level : string) : belief :=
  if i =? 0 then {| mean := 0.0; variance := 0.1 |}
  else {| mean := heuristic_utility_by_position i total_levels;
          variance := 3.0 |}.

Definition generate_default_informed_priors (cl : criteria) : utilities :=
  fold_left
    (fun (u : utilities) (cv : string * list string) =>
       let '(crit, levels) := cv in
       Dict.set crit
         (fill_levels (default_belief_at (Z.of_nat (List.length levels))) 0
            levels [])
         u)
    (Dict.items cl) [].

(** One entry of the LLM's ["utilities"] object, once validated: a key
    that the entry lacks is [None]. *)
Record llm_level := { llm_mean : option Q; llm_confidence : option string }.

Definition llm_utilities := Dict.t (Dict.t llm_level).

(** What the level loop of [generate_contextual_priors] collects besides
    the beliefs. *)
Record prior_log := {
  variances_collected : list Q;
  all_confidences : list string;
  heuristic_used_for_any_level : bool
}.

Definition normalise_confidence (c : string) : string :=
  let c := lower c in
  if String.eqb c "high" || String.eqb c "medium" || String.eqb c "low"
  then c else "medium"%string.

Definition variance_map (confidence : string) : Q :=
  if String.eqb confidence "high" then 0.5%Q
  else if String.eqb confidence "medium" then 1.5%Q
  else 3.0%Q.

(** The levels of one criterion; [llm_crit] is
    [llm_utilities_data.get(crit, {})]. *)
Fixpoint contextual_levels (llm_crit : Dict.t llm_level) (total_levels : Z)
    (i : Z) (levels : list string) (tbl : Dict.t belief) (log : prior_log)
    : Dict.t belief * prior_log :=
  match levels with
  | [] => (tbl, log)
  | level :: rest =>
      if i =? 0 then
        contextual_levels llm_crit total_levels (i + 1) rest
          (Dict.set level {| mean := 0.0; variance := 0.1 |} tbl) log
      else
        match Dict.get llm_crit level with
        | Some {| llm_mean := Some mean_val; llm_confidence := Some c |} =>
            let confidence := normalise_confidence c in
            let variance_val := variance_map confidence in
            contextual_levels llm_crit total_levels (i + 1) rest
              (Dict.set level {| mean := mean_val; variance := variance_val |} tbl)
              {| variances_collected := variances_collected log ++ [variance_val];
                 all_confidences := all_confidences log ++ [confidence];
                 heuristic_used_for_any_level := heuristic_used_for_any_level log |}
        | _ =>
            let mean_val := heuristic_utility_by_position i total_levels in
            let variance_val := 2.5%Q in
            contextual_levels llm_crit total_levels (i + 1) rest
              (Dict.set level {| mean := mean_val; variance := variance_val |} tbl)
              {| variances_collected := variances_collected log ++ [variance_val];
                 all_confidences := all_confidences log;
                 heuristic_used_for_any_level := true |}
        end
  end.

Definition contextual_criteria (llm : llm_utilities) (cl : criteria)
    : utilities * prior_log :=
  fold_left
    (fun (acc : utilities * prior_log) (cv : string * list string) =>
       let '(u, log) := acc in
       let '(crit, levels) := cv in
       let llm_crit := match Dict.get llm crit with Some d => d | None => [] end in
       let '(tbl, log') :=
         contextual_levels llm_crit (Z.of_nat (List.length levels)) 0 levels [] log in
       (Dict.set crit tbl u, log'))
    (Dict.items cl)
    ([], {| variances_collected := []; all_confidences := [];
            heuristic_used_for_any_level := false |}).

Definition prior_quality_of (log : prior_log) : string :=
  if heuristic_used_for_any_level log then "llm_success_mixed_with_heuristics"
  else
    match all_confidences log with
    | [] => "llm_success_parsing_issues"
    | cs =>
        if forallb (String.eqb "high") cs then "llm_success_high_confidence"
        else if forallb (String.eqb "low") cs then "llm_success_low_confidence"
        else "llm_success_medium_confidence"
    end%string.

Definition average (l : list Q) : Q :=
  (fold_left Qplus l 0 / inject_Z (Z.of_nat (List.length l)))%Q.

(** [generate_contextual_priors] from the validated LLM answer on;
    [parsed_response] is the ["utilities"] object of the accepted attempt,
    [None] when both attempts fail.  That branch returns the undefined name
    [avg_prior_variance], so the call raises [NameError]: result [None]. *)
Definition generate_contextual_priors (parsed_response : option llm_utilities)
    (cl : criteria) : option (utilities * string * Q) :=
  match parsed_response with
  | None => None
  | Some llm_utilities_data =>
      let '(informed_utilities, log) := contextual_criteria llm_utilities_data cl in
      let avg_variance_of_llm_priors :=
        match variances_collected log with
        | [] => 10.0%Q
        | vs => average vs
        end in
      Some (informed_utilities, prior_quality_of log, avg_variance_of_llm_priors)
  end.

(** ** Strategy selection in [DecisionApp.run] *)

Definition VERY_DIFFUSE_VARIANCE_THRESHOLD : Q := 2.0.
Definition STRONG_PRIOR_VARIANCE_THRESHOLD : Q := 0.75.

(** The strategy and the block size handed to the engine. *)
Definition select_initial_strategy (prior_quality_indicator : string)
    (avg_prior_variance : Q) : strategy * Z :=
  if String.eqb prior_quality_indicator "heuristic_fallback"
     || Qlt_bool VERY_DIFFUSE_VARIANCE_THRESHOLD avg_prior_variance
  then (PYTHON_ORTHOGONAL_CF, 0)
  else if Qle_bool avg_prior_variance STRONG_PRIOR_VARIANCE_THRESHOLD
          && contains "high_confidence" prior_quality_indicator
  then (MODFED_DIRECT, 0)
  else (CEA_BLOCK_CF, 4).

(** ** Engine construction: [BayesianUBC_Engine.__init__] *)

Definition profile_priors (up : UserProfileHBM.t) (cl : criteria) : utilities :=
  fold_left
    (fun (u : utilities) (cv : string * list string) =>
       let '(crit, levels) := cv in
       Dict.set crit
         (fold_left
            (fun (tbl : Dict.t belief) level =>
               let '(m, v) := UserProfileHBM.get_level_prior up crit level in
               Dict.set level {| mean := m; variance := v |} tbl)
            levels [])
         u)
    (Dict.items cl) [].

Definition engine_init (cl : criteria) (user_profile : UserProfileHBM.t)
    (informed_priors : option utilities) (strategy0 : strategy)
    (block_size : Z) : engine :=
  {| criteria_levels := cl;
     utilities_of :=
       match informed_priors with
       | Some ((_ :: _) as p) => p
       | _ => profile_priors user_profile cl
       end;
     orthogonal_fallback_pair_idx_counter := 0;
     initial_strategy := strategy0;
     initial_block_size_cea := block_size;
     MAX_PYTHON_ORTHO_CF_QUESTIONS := 3;
     initial_questions_done := 0;
     cea_block_cache := [];
     cea_block_cache_idx := 0;
     question_count := 0;
     session_history := [];
     r_idefix_consecutive_failures := 0 |}.

(** ** Design request: the parameter names of [request_R_design] *)

(** [par_names]: one name per level but the first, for every criterion of
    the belief store with at least two levels. *)
Definition design_par_names (utilities_model : utilities) : list string :=
  flat_map
    (fun cd : string * Dict.t belief =>
       let '(crit, levels_data) := cd in
       if Nat.ltb (List.length levels_data) 2 then []
       else map (param_name_of crit) (tl (Dict.keys levels_data)))
    utilities_model.

(** * Vocabulary of the properties

    Predicates, sample configurations and environments that the statements
    below are written with. *)

Definition demo_criteria : criteria :=
  [("Price", ["low"; "mid"; "high"]);
   ("Speed", ["slow"; "medium"; "fast"]);
   ("Support", ["basic"; "standard"; "premium"])].

(** Every level of [demo_criteria] with the same belief. *)
Definition demo_store (m v : Q) : utilities :=
  map (fun cv : string * list string =>
         (fst cv, map (fun l => (l, {| mean := m; variance := v |})) (snd cv)))
      demo_criteria.

Definition demo_engine (s : strategy) (block_size : Z) (u : utilities) : engine :=
  {| criteria_levels := demo_criteria;
     utilities_of := u;
     orthogonal_fallback_pair_idx_counter := 0;
     initial_strategy := s;
     initial_block_size_cea := block_size;
     MAX_PYTHON_ORTHO_CF_QUESTIONS := 3;
     initial_questions_done := 0;
     cea_block_cache := [];
     cea_block_cache_idx := 0;
     question_count := 0;
     session_history := [];
     r_idefix_consecutive_failures := 0 |}.

(** An environment whose oracle never answers and whose user always takes
    option A and never switches. *)
Definition oracle_down : turn_input :=
  {| block_reply := None; single_reply := None;
     main_choice_is_a := true; cf_choice_is_modified := false |}.

(** Priors as the prior generator builds them from a high-confidence LLM
    answer: reference levels at (0, 0.1), the other levels at the LLM's
    mean with variance 0.5. *)
Definition llm_priors : utilities :=
  [("Price", [("low", {| mean := 0.0; variance := 0.1 |});
              ("mid", {| mean := 1.9; variance := 0.5 |});
              ("high", {| mean := -0.5; variance := 0.5 |})]);
   ("Speed", [("slow", {| mean := 0.0; variance := 0.1 |});
              ("medium", {| mean := 0.8; variance := 0.5 |});
              ("fast", {| mean := 1.2; variance := 0.5 |})]);
   ("Support", [("basic", {| mean := 0.0; variance := 0.1 |});
                ("standard", {| mean := 0.5; variance := 0.5 |});
                ("premium", {| mean := 1.0; variance := 0.5 |})])]%Q.

Definition option_a : profile :=
  [("Price", "mid"); ("Speed", "medium"); ("Support", "basic")].

Definition option_b : profile :=
  [("Price", "high"); ("Speed", "slow"); ("Support", "standard")].

(** The oracle answers with [(option_a, option_b)] and the user takes
    option A. *)
Definition oracle_answers : turn_input :=
  {| block_reply := None; single_reply := Some (Some option_a, Some option_b);
     main_choice_is_a := true; cf_choice_is_modified := false |}.

Open Scope Q_scope.

Definition belief_in_range (b : belief) : Prop :=
  -2 <= mean b /\ mean b <= 2 /\ 0.01 <= variance b.

Definition store_in_range (u : utilities) : Prop :=
  Forall (fun ct : string * Dict.t belief =>
            Forall (fun lb => belief_in_range (snd lb)) (snd ct)) u.

Definition variance_floored (u : utilities) : Prop :=
  Forall (fun ct : string * Dict.t belief =>
            Forall (fun lb => 0.01 <= variance (snd lb)) (snd ct)) u.

(** The spec's reading of the monitor: the beliefs the store knows, and
    their arithmetic mean of variance (none for an empty store). *)
Definition known_beliefs (u : utilities) : list belief :=
  flat_map (fun ct : string * Dict.t belief => Dict.values (snd ct)) u.

Definition sum_variance (l : list belief) : Q :=
  fold_right (fun b acc => variance b + acc) 0 l.

Definition mean_variance (l : list belief) : option Q :=
  match l with
  | [] => None
  | _ => Some (sum_variance l / inject_Z (Z.of_nat (List.length l)))
  end.

(** A store with a single variance of 5 among three low ones. *)
Definition spiky_store : utilities :=
  [("Price", [("low", {| mean := 0; variance := 5 |});
              ("mid", {| mean := 0; variance := 0.1 |})]);
   ("Speed", [("slow", {| mean := 0; variance := 0.1 |});
              ("fast", {| mean := 0; variance := 0.1 |})])].

Open Scope Z_scope.

(** A configuration the generator accepts: three criteria with distinct
    names, three levels each. *)
Definition valid_3x3 (cl : criteria) : Prop :=
  List.length cl = 3%nat
  /\ NoDup (Dict.keys cl)
  /\ Forall (fun cv : string * list string => List.length (snd cv) = 3%nat) cl.

(** The profile a row of the orthogonal array stands for: criterion number
    [i] at its level number [row[i]]. *)
Definition row_profile (cl : criteria) (row : list Z) : profile :=
  map (fun cr : (string * list string) * Z =>
         (fst (fst cr), nth (Z.to_nat (snd cr)) (snd (fst cr)) ""%string))
      (combine cl row).

(** The pair of array rows that the counter value [c] selects. *)
Definition rows_at (c : Z) : list Z * list Z :=
  let ij := nth (Z.to_nat (c mod 9)) ORTHOGONAL_PAIRS_INDICES (0, 0) in
  (nth (Z.to_nat (fst ij)) L9_PROFILES [], nth (Z.to_nat (snd ij)) L9_PROFILES []).

(** Result of call number [k] (from 0) in a run of consecutive calls. *)
Fixpoint nth_call (k : nat) (e : engine) : option (profile * profile) * engine :=
  match k with
  | O => get_python_orthogonal_pair e
  | S k' => nth_call k' (snd (get_python_orthogonal_pair e))
  end.

Definition levels_of (e : engine) (crit : string) : list string :=
  match Dict.get (criteria_levels e) crit with Some l => l | None => [] end.

(** The control part of the engine state: everything but the beliefs and
    the history. *)
Definition same_control (e e' : engine) : Prop :=
  criteria_levels e' = criteria_levels e
  /\ orthogonal_fallback_pair_idx_counter e' = orthogonal_fallback_pair_idx_counter e
  /\ initial_strategy e' = initial_strategy e
  /\ initial_block_size_cea e' = initial_block_size_cea e
  /\ MAX_PYTHON_ORTHO_CF_QUESTIONS e' = MAX_PYTHON_ORTHO_CF_QUESTIONS e
  /\ initial_questions_done e' = initial_questions_done e
  /\ cea_block_cache e' = cea_block_cache e
  /\ cea_block_cache_idx e' = cea_block_cache_idx e
  /\ question_count e' = question_count e
  /\ r_idefix_consecutive_failures e' = r_idefix_consecutive_failures e.

(** Events of the second half of an iteration. *)
Definition answer_event (ev : event) : bool :=
  match ev with
  | AskQuestion _ _ | AskCounterfactual _ _ | ConvergedMessage => true
  | _ => false
  end.

Definition adaptive_phase (e : engine) : Prop :=
  current_phase_strategy e = MODFED_ADAPTIVE
  \/ current_phase_strategy e = MODFED_DIRECT.

Definition is_escalation (ev : event) : bool :=
  match ev with EscalationWarning => true | _ => false end.

Definition is_single_failure (ev : event) : bool :=
  match ev with SingleFetchFailed => true | _ => false end.

Definition is_single_request (ev : event) : bool :=
  match ev with RequestSingle => true | _ => false end.

(** No block request and no block failure in a trace. *)
Definition block_free (evs : list event) : Prop :=
  ~ In RequestBlock evs /\ ~ In BlockFetchFailed evs.

(** Nothing about the block oracle happens after a failed block fetch. *)
Definition one_way (evs : list event) : Prop :=
  forall t1 t2, evs = t1 ++ BlockFetchFailed :: t2 -> block_free t2.

Open Scope Q_scope.

(** A stored profile with one entry, and collaborators for the instances. *)
Definition stored_profile : UserProfileHBM.t :=
  let d := [("Price", [("mid", {| UserProfileHBM.mean_utility := Some 0.4;
                                  UserProfileHBM.variance := Some 0.5 |})])] in
  {| UserProfileHBM.data := d; UserProfileHBM.profile_file := Some d |}.

Definition sampler_down : inference :=
  {| pymc_installed := true; sample_summary := fun _ => None |}.

(** A sampler that reports the same posterior for each of six parameters. *)
Definition sampler_up : inference :=
  {| pymc_installed := true;
     sample_summary := fun _ =>
       Some (map (fun i => (beta_label i, (0.7, 0.5))) (seq 0 6)) |}.

Definition reference_profile : profile :=
  [("Price", "low"); ("Speed", "slow"); ("Support", "basic")].

(** Every answer of this history compares the all-reference profile with
    itself. *)
Definition reference_history : list response :=
  [(reference_profile, reference_profile, 0%Z);
   (reference_profile, reference_profile, 1%Z)].

Definition underscore_criteria : criteria :=
  [("Build_Quality", ["low"; "mid"; "high"]);
   ("Price", ["cheap"; "fair"; "dear"]);
   ("Speed", ["slow"; "medium"; "fast"])].

(** A profile that holds one entry under the criterion's own name and one
    under the name the split produces. *)
Definition split_profile : UserProfileHBM.t :=
  {| UserProfileHBM.data :=
       [("Build_Quality",
         [("mid", {| UserProfileHBM.mean_utility := Some (-1);
                     UserProfileHBM.variance := Some 0.3 |})]);
        ("Build",
         [("Quality_mid", {| UserProfileHBM.mean_utility := Some 1.5;
                             UserProfileHBM.variance := Some 0.2 |})])];
     UserProfileHBM.profile_file := None |}.

Definition empty_profile : UserProfileHBM.t :=
  {| UserProfileHBM.data := []; UserProfileHBM.profile_file := None |}.

Definition empty_store (u : utilities) : Prop :=
  forall ct, In ct u -> snd ct = [].

(** The entry the long-term profile holds for a (criterion, level) pair. *)
Definition stored_entry (d : UserProfileHBM.store) (criterion level : string)
    : option UserProfileHBM.stats :=
  match Dict.get d criterion with
  | Some tbl => Dict.get tbl level
  | None => None
  end.

(** The key structure of a belief store: its criteria and, for each, its
    level names, in order. *)
Definition shape (u : utilities) : criteria :=
  map (fun ct : string * Dict.t belief => (fst ct, Dict.keys (snd ct))) u.

(** Criteria as a dict holds them: distinct criterion names, and distinct
    level names within a criterion. *)
Definition distinct_names (cl : criteria) : Prop :=
  NoDup (Dict.keys cl)
  /\ Forall (fun cv : string * list string => NoDup (snd cv)) cl.

(** The prior of a level as the engine stores it. *)
Definition prior_belief (up : UserProfileHBM.t) (crit level : string) : belief :=
  {| mean := fst (UserProfileHBM.get_level_prior up crit level);
     variance := snd (UserProfileHBM.get_level_prior up crit level) |}.

(** Every belief of the store satisfies [P]. *)
Definition store_all (P : belief -> Prop) (u : utilities) : Prop :=
  Forall (fun ct : string * Dict.t belief =>
            Forall (fun lb => P (snd lb)) (snd ct)) u.

(** Belief by belief, no variance of [u'] is above the one in [u]. *)
Definition variances_not_above (u' u : utilities) : Prop :=
  Forall2 (fun b' b => (variance b' <= variance b)%Q)
    (known_beliefs u') (known_beliefs u).

Definition is_request (ev : event) : bool :=
  match ev with RequestBlock | RequestSingle => true | _ => false end.

Definition is_ask_question (ev : event) : bool :=
  match ev with AskQuestion _ _ => true | _ => false end.

Definition is_ask_counterfactual (ev : event) : bool :=
  match ev with AskCounterfactual _ _ => true | _ => false end.

(** Events of the first half of an iteration. *)
Definition generation_event (ev : event) : bool :=
  match ev with
  | RequestBlock | BlockFetchFailed | RequestSingle | SingleFetchFailed
  | EscalationWarning => true
  | _ => false
  end.

(** Events that follow the main question within an iteration. *)
Definition follow_up_event (ev : event) : bool :=
  match ev with AskCounterfactual _ _ | ConvergedMessage => true | _ => false end.

(** The question a recorded answer belongs to. *)
Definition question_of (r : response) : event :=
  AskQuestion (fst (fst r)) (snd (fst r)).

(** The parts of the engine state that question generation leaves alone. *)
Definition same_data (e e' : engine) : Prop :=
  utilities_of e' = utilities_of e
  /\ criteria_levels e' = criteria_levels e
  /\ session_history e' = session_history e
  /\ question_count e' = question_count e.

(** A recorded choice is 0 (option A) or 1 (option B). *)
Definition choice_recorded (r : response) : Prop := snd r = 0%Z \/ snd r = 1%Z.

(** What one iteration, or a run of iterations, adds to the state and to
    the trace: [added] are the answers appended to the history. *)
Definition progress (e e' : engine) (evs : list event) (added : list response)
    : Prop :=
  session_history e' = session_history e ++ added
  /\ filter is_ask_question evs = map question_of added
  /\ Forall choice_recorded added
  /\ (List.length (filter is_ask_counterfactual evs) <= List.length added)%nat
  /\ (Z.of_nat (List.length added) <= question_count e' - question_count e)%Z
  /\ (Z.of_nat (List.length (filter is_request evs))
      <= question_count e' - question_count e)%Z
  /\ criteria_levels e' = criteria_levels e
  /\ shape (utilities_of e') = shape (utilities_of e).

(** The table [_generate_default_informed_priors] gives a criterion with
    three levels. *)
Definition default_table (levels : list string) : Dict.t belief :=
  match levels with
  | [l0; l1; l2] =>
      [(l0, {| mean := 0.0; variance := 0.1 |});
       (l1, {| mean := 0.3; variance := 3.0 |});
       (l2, {| mean := -0.1; variance := 3.0 |})]%Q
  | _ => []
  end.

(** The log of a run in which the LLM answered every level with high
    confidence. *)
Definition all_high (log : prior_log) : Prop :=
  heuristic_used_for_any_level log = false
  /\ forallb (String.eqb "high") (all_confidences log) = true.

(** The variance of a candidate of [_find_most_uncertain_level]: the first
    component of the tuples of [uncertain_levels]. *)
Definition candidate_variance (x : Q * string * string * Z) : Q :=
  fst (fst (fst x)).

(** No criterion name holds an underscore. *)
Definition plain_names (cl : criteria) : Prop :=
  Forall (fun cv : string * list string =>
            split_first underscore (fst cv) = None) cl.










Open Scope Z_scope.

(** * Properties *)

(** ** Dictionary lemmas *)

Section DictFacts.
Context {V : Type}.
Implicit Types (d : Dict.t V) (k : string) (v : V).

Lemma get_set_same d k v : Dict.get (Dict.set k v d) k = Some v.
Proof.
  induction d as [|[k' v'] d IH]; simpl.
  - now rewrite String.eqb_refl.
  - destruct (String.eqb k' k) eqn:E; simpl; rewrite E; auto.
Qed.

Lemma get_set_other d k k' v :
  k <> k' -> Dict.get (Dict.set k v d) k' = Dict.get d k'.
Proof.
  intros Hne. induction d as [|[k0 v0] d IH]; simpl.
  - destruct (String.eqb k k') eqn:E; auto.
    apply String.eqb_eq in E. contradiction.
  - destruct (String.eqb k0 k) eqn:E; simpl.
    + apply String.eqb_eq in E. subst k0.
      destruct (String.eqb k k') eqn:E'; auto.
      apply String.eqb_eq in E'. contradiction.
    + now rewrite IH.
Qed.

Lemma get_In d k v : Dict.get d k = Some v -> In (k, v) d.
Proof.
  induction d as [|[k' v'] d IH]; simpl; [discriminate|].
  destruct (String.eqb k' k) eqn:E.
  - apply String.eqb_eq in E. intros [= ->]. subst. now left.
  - intros H. right. auto.
Qed.

Lemma In_get_nodup d k v :
  NoDup (Dict.keys d) -> In (k, v) d -> Dict.get d k = Some v.
Proof.
  induction d as [|[k' v'] d IH]; simpl; [tauto|].
  intros Hnd [Heq | Hin].
  - injection Heq as -> ->. now rewrite String.eqb_refl.
  - inversion Hnd as [|? ? Hnotin Hnd']; subst.
    destruct (String.eqb k' k) eqn:E.
    + apply String.eqb_eq in E. subst k'. exfalso. apply Hnotin.
      unfold Dict.keys. change k with (fst (k, v)). now apply in_map.
    + auto.
Qed.

Lemma set_In d k v x : In x (Dict.set k v d) -> In x d \/ x = (k, v).
Proof.
  induction d as [|[k' v'] d IH]; simpl.
  - intros [<-|[]]. now right.
  - destruct (String.eqb k' k) eqn:E; simpl.
    + apply String.eqb_eq in E. subst k'. intros [<-|H]; auto.
    + intros [<-|H]; auto. destruct (IH H); auto.
Qed.
End DictFacts.

(** ** Belief store lemmas *)

Lemma get_belief_alter_same f u crit lvl :
  get_belief (alter_belief f u crit lvl) crit lvl
  = option_map f (get_belief u crit lvl).
Proof.
  unfold get_belief, alter_belief.
  destruct (Dict.get u crit) as [tbl|] eqn:Hc; simpl.
  - destruct (Dict.get tbl lvl) as [b|] eqn:Hl; simpl.
    + now rewrite !get_set_same.
    + now rewrite Hc, Hl.
  - now rewrite Hc.
Qed.

Lemma get_belief_alter_other f u crit lvl crit' lvl' :
  (crit, lvl) <> (crit', lvl') ->
  get_belief (alter_belief f u crit lvl) crit' lvl' = get_belief u crit' lvl'.
Proof.
  intros Hne. unfold get_belief, alter_belief.
  destruct (Dict.get u crit) as [tbl|] eqn:Hc; auto.
  destruct (Dict.get tbl lvl) as [b|] eqn:Hl; auto.
  destruct (string_dec crit crit') as [<-|Hcc].
  - rewrite get_set_same, Hc.
    apply get_set_other. intros <-. now apply Hne.
  - now rewrite get_set_other.
Qed.

Lemma has_belief_spec u crit lvl :
  has_belief u crit lvl
  = match get_belief u crit lvl with Some _ => true | None => false end.
Proof.
  unfold has_belief, get_belief, Dict.mem.
  now destruct (Dict.get u crit).
Qed.

Lemma update_chosen_item_same u crit lvl :
  get_belief (update_chosen_item u (crit, lvl)) crit lvl
  = option_map bump_chosen (get_belief u crit lvl).
Proof.
  unfold update_chosen_item. rewrite has_belief_spec.
  destruct (get_belief u crit lvl) as [b|] eqn:Hb.
  - now rewrite get_belief_alter_same, Hb.
  - now rewrite Hb.
Qed.

Lemma update_chosen_item_other u crit lvl crit' lvl' :
  (crit, lvl) <> (crit', lvl') ->
  get_belief (update_chosen_item u (crit, lvl)) crit' lvl'
  = get_belief u crit' lvl'.
Proof.
  intros Hne. unfold update_chosen_item.
  destruct (has_belief u crit lvl); auto using get_belief_alter_other.
Qed.

Lemma update_unchosen_item_other chosen u crit lvl crit' lvl' :
  (crit, lvl) <> (crit', lvl') ->
  get_belief (update_unchosen_item chosen u (crit, lvl)) crit' lvl'
  = get_belief u crit' lvl'.
Proof.
  intros Hne. unfold update_unchosen_item.
  destruct (_ && _); auto.
  destruct (has_belief u crit lvl); auto using get_belief_alter_other.
Qed.

(** The penalty loop skips a level that the chosen profile carries too. *)
Lemma update_unchosen_item_shared chosen u crit lvl :
  Dict.get chosen crit = Some lvl ->
  update_unchosen_item chosen u (crit, lvl) = u.
Proof.
  intros H. unfold update_unchosen_item, Dict.mem.
  now rewrite H, String.eqb_refl.
Qed.

(** A loop over items that do not mention [(crit, lvl)] leaves it alone. *)
Lemma fold_chosen_untouched items u crit lvl :
  ~ In (crit, lvl) items ->
  get_belief (fold_left update_chosen_item items u) crit lvl
  = get_belief u crit lvl.
Proof.
  revert u. induction items as [|[c l] items IH]; intros u Hnin;
    cbn [fold_left]; auto.
  rewrite IH by (intros H; apply Hnin; now right).
  apply update_chosen_item_other. intros E. apply Hnin. left. exact E.
Qed.

Lemma fold_unchosen_untouched chosen items u crit lvl :
  (forall l, In (crit, l) items -> Dict.get chosen crit = Some l) ->
  get_belief (fold_left (update_unchosen_item chosen) items u) crit lvl
  = get_belief u crit lvl.
Proof.
  revert u. induction items as [|[c l] items IH]; intros u Hsh;
    cbn [fold_left]; auto.
  rewrite IH by (intros l' H; apply Hsh; now right).
  destruct (string_dec c crit) as [->|Hc].
  - rewrite update_unchosen_item_shared; auto. apply Hsh. now left.
  - apply update_unchosen_item_other. congruence.
Qed.

Lemma nodup_keys_unique {V} (d : Dict.t V) k v v' :
  NoDup (Dict.keys d) -> In (k, v) d -> In (k, v') d -> v = v'.
Proof.
  intros Hnd H1 H2.
  apply (In_get_nodup _ _ _ Hnd) in H1.
  apply (In_get_nodup _ _ _ Hnd) in H2. congruence.
Qed.

(** The reward loop reaches an item of a duplicate-free profile once. *)
Lemma fold_chosen_once items u crit lvl :
  NoDup (Dict.keys items) -> In (crit, lvl) items ->
  get_belief (fold_left update_chosen_item items u) crit lvl
  = option_map bump_chosen (get_belief u crit lvl).
Proof.
  revert u. induction items as [|[c l] items IH]; intros u Hnd Hin;
    cbn [fold_left].
  - destruct Hin.
  - inversion Hnd as [|? ? Hnotin Hnd']; subst.
    destruct Hin as [E|Hin].
    + injection E as -> ->.
      rewrite fold_chosen_untouched.
      * apply update_chosen_item_same.
      * intros H. apply Hnotin. unfold Dict.keys.
        change crit with (fst (crit, lvl)). now apply in_map.
    + rewrite IH by assumption.
      f_equal. apply update_chosen_item_other.
      intros E. injection E as -> ->. apply Hnotin. unfold Dict.keys.
      change crit with (fst (crit, lvl)). now apply in_map.
Qed.

(** ** Range of the beliefs *)

Open Scope Q_scope.

Lemma py_max_lower a b : a <= py_max a b.
Proof.
  unfold py_max. destruct (Qle_bool b a) eqn:E.
  - apply Qle_refl.
  - destruct (Qlt_le_dec a b) as [H|H].
    + now apply Qlt_le_weak.
    + apply Qle_bool_iff in H. congruence.
Qed.

Lemma py_max_upper a b c : a <= c -> b <= c -> py_max a b <= c.
Proof. intros. unfold py_max. now destruct (Qle_bool b a). Qed.

Lemma py_min_upper a b : py_min a b <= a.
Proof.
  unfold py_min. destruct (Qle_bool a b) eqn:E.
  - apply Qle_refl.
  - destruct (Qlt_le_dec b a) as [H|H].
    + now apply Qlt_le_weak.
    + apply Qle_bool_iff in H. congruence.
Qed.

Lemma clamp_belief_in_range b : belief_in_range (clamp_belief b).
Proof.
  unfold belief_in_range, clamp_belief; simpl. repeat split.
  - apply Qle_trans with (-2.0); [lra | apply py_max_lower].
  - apply py_max_upper; [lra|].
    apply Qle_trans with 2.0; [apply py_min_upper | lra].
  - apply py_max_lower.
Qed.

Lemma clamp_all_in_range u : store_in_range (clamp_all u).
Proof.
  unfold store_in_range, clamp_all.
  apply Forall_forall. intros [c tbl] Hin.
  apply in_map_iff in Hin. destruct Hin as [[c' tbl'] [E _]].
  injection E as <- <-. simpl.
  apply Forall_forall. intros [l b] Hin.
  apply in_map_iff in Hin. destruct Hin as [[l' b'] [E _]].
  injection E as <- <-. simpl. apply clamp_belief_in_range.
Qed.

(** The counterfactual updater either returns early without touching the
    store, or leaves every belief of the store in range. *)
Lemma counterfactual_update_in_range u crit original improved switched :
  update_utilities_from_counterfactual u crit original improved switched = u
  \/ store_in_range
       (update_utilities_from_counterfactual u crit original improved switched).
Proof.
  unfold update_utilities_from_counterfactual.
  destruct (_ || _); [now left | right; apply clamp_all_in_range].
Qed.

Lemma Forall_set {V} (P : V -> Prop) (d : Dict.t V) k v :
  Forall (fun kv => P (snd kv)) d -> P v ->
  Forall (fun kv => P (snd kv)) (Dict.set k v d).
Proof.
  intros Hd Hv. apply Forall_forall. intros x Hin.
  apply set_In in Hin. destruct Hin as [Hin | ->]; auto.
  revert x Hin. now apply Forall_forall.
Qed.

Lemma alter_belief_floored f u crit lvl :
  (forall b, 0.01 <= variance b -> 0.01 <= variance (f b)) ->
  variance_floored u -> variance_floored (alter_belief f u crit lvl).
Proof.
  intros Hf Hu. unfold alter_belief.
  destruct (Dict.get u crit) as [tbl|] eqn:Hc; auto.
  destruct (Dict.get tbl lvl) as [b|] eqn:Hl; auto.
  unfold variance_floored in *.
  apply (Forall_set (fun tbl => Forall (fun lb => 0.01 <= variance (snd lb)) tbl));
    auto.
  assert (Htbl : Forall (fun lb : string * belief => 0.01 <= variance (snd lb)) tbl).
  { apply get_In in Hc. rewrite Forall_forall in Hu. exact (Hu _ Hc). }
  apply (Forall_set (fun b => 0.01 <= variance b)); auto.
  apply Hf. apply get_In in Hl. rewrite Forall_forall in Htbl. exact (Htbl _ Hl).
Qed.

(** What the main-choice updater does guarantee: the variance floor. *)
Lemma simplified_update_keeps_variance_floor u chosen unchosen :
  variance_floored u ->
  variance_floored (update_utilities_simplified u chosen unchosen).
Proof.
  unfold update_utilities_simplified, Dict.items. intros Hu.
  assert (H1 : variance_floored (fold_left update_chosen_item chosen u)).
  { revert u Hu. induction chosen as [|[c l] chosen IH]; intros u Hu; simpl; auto.
    apply IH. destruct (has_belief u c l); auto.
    apply alter_belief_floored; auto. intros b _. apply py_max_lower. }
  revert H1. generalize (fold_left update_chosen_item chosen u).
  generalize chosen at 1. intros ch.
  induction unchosen as [|[c l] unchosen IH]; intros u' Hu'; simpl; auto.
  apply IH. destruct (_ && _); auto. destruct (has_belief u' c l); auto.
  apply alter_belief_floored; auto. intros b _. apply py_max_lower.
Qed.

(** C1 (the code falls short of the claim).  The claim: after every belief
    mutation, every mean lies in [-2,2] and every variance is at least 0.01.
    [_update_utilities_simplified] floors the variance but adds 0.2 to the
    mean without the clamp that [_update_utilities_from_counterfactual]
    applies.  From high-confidence priors that are in range, with
    ("Price", "mid") at mean 1.9, one answer for a profile with that level
    leaves its mean above 2, both when the updater is called directly and
    when it runs inside the first iteration of a session that starts in the
    adaptive phase, where no counterfactual update follows. *)
Theorem main_choice_update_leaves_mean_above_cap :
  store_in_range llm_priors
  /\ (exists b,
        get_belief (update_utilities_simplified llm_priors option_a option_b)
          "Price" "mid" = Some b
        /\ 2 < mean b)
  /\ (exists e' evs st b,
        step oracle_answers (demo_engine MODFED_DIRECT 0 llm_priors)
        = (e', evs, st)
        /\ In (AskQuestion option_a option_b) evs
        /\ get_belief (utilities_of e') "Price" "mid" = Some b
        /\ 2 < mean b).
Proof.
  split; [|split].
  - unfold store_in_range, belief_in_range, llm_priors.
    repeat constructor; simpl; lra.
  - eexists. split; [vm_compute; reflexivity | reflexivity].
  - do 4 eexists. split; [vm_compute; reflexivity|].
    split; [simpl; auto|]. split; [vm_compute; reflexivity | reflexivity].
Qed.

(** ** Levels shared by both profiles *)

(** C2 (as amended).  On a criterion where the chosen and the rejected
    profile carry the same level, that level's belief takes the chosen-side
    update exactly once (mean + 0.2, variance [max(0.01, 0.9 * variance)])
    and no rejected-side penalty. *)
Theorem shared_level_takes_chosen_update_only u chosen rejected crit lvl :
  NoDup (Dict.keys chosen) ->
  NoDup (Dict.keys rejected) ->
  Dict.get chosen crit = Some lvl ->
  Dict.get rejected crit = Some lvl ->
  get_belief (update_utilities_simplified u chosen rejected) crit lvl
  = option_map bump_chosen (get_belief u crit lvl).
Proof.
  intros Hc Hr Hgc Hgr. unfold update_utilities_simplified, Dict.items.
  rewrite fold_unchosen_untouched.
  - apply fold_chosen_once; auto using get_In.
  - intros l Hin. rewrite Hgc. f_equal.
    apply get_In in Hgr. eapply nodup_keys_unique; eauto.
Qed.

(** Instance: "Price" at "low" in both profiles. *)
Lemma shared_level_takes_chosen_update_only_witness :
  get_belief
    (update_utilities_simplified (demo_store 0 1)
       [("Price", "low"); ("Speed", "slow")]
       [("Price", "low"); ("Speed", "fast")]) "Price" "low"
  = option_map bump_chosen (get_belief (demo_store 0 1) "Price" "low").
Proof.
  apply shared_level_takes_chosen_update_only.
  - repeat constructor; simpl; intuition discriminate.
  - repeat constructor; simpl; intuition discriminate.
  - reflexivity.
  - reflexivity.
Defined.

(** C2 as stated fails: with "Price" at "low" in both profiles, the belief
    of ("Price", "low") changes in mean and in variance. *)
Lemma shared_level_is_not_left_unchanged :
  let u := demo_store 0 1 in
  let chosen := [("Price", "low"); ("Speed", "slow")] in
  let rejected := [("Price", "low"); ("Speed", "fast")] in
  Dict.get chosen "Price" = Some "low"
  /\ Dict.get rejected "Price" = Some "low"
  /\ exists b b',
       get_belief u "Price" "low" = Some b
       /\ get_belief (update_utilities_simplified u chosen rejected) "Price" "low"
          = Some b'
       /\ ~ mean b' == mean b
       /\ ~ variance b' == variance b.
Proof.
  cbv zeta. split; [reflexivity|]. split; [reflexivity|].
  do 2 eexists. split; [reflexivity|]. split; [vm_compute; reflexivity|].
  split; intros H; vm_compute in H; discriminate.
Qed.

(** ** Convergence check *)

Lemma all_level_data_known u : all_level_data u = known_beliefs u.
Proof.
  unfold all_level_data, known_beliefs.
  induction u as [|[c tbl] u IH]; cbn [flat_map]; auto.
  rewrite IH. now destruct tbl.
Qed.

Lemma fold_left_variance l acc :
  fold_left (fun a b => a + variance b) l acc == acc + sum_variance l.
Proof.
  revert acc. induction l as [|b l IH]; intros acc; simpl.
  - lra.
  - rewrite IH. lra.
Qed.

Lemma total_variance_sum l : total_variance l == sum_variance l.
Proof. unfold total_variance. rewrite fold_left_variance. lra. Qed.

Lemma Qlt_bool_iff a b : Qlt_bool a b = true <-> a < b.
Proof.
  unfold Qlt_bool. rewrite negb_true_iff. split.
  - intros H. apply Qnot_le_lt. intros Hle.
    apply Qle_bool_iff in Hle. congruence.
  - intros H. destruct (Qle_bool b a) eqn:E; auto.
    apply Qle_bool_iff in E. exfalso. exact (Qlt_not_le _ _ H E).
Qed.

Lemma check_convergence_nonempty u b l :
  known_beliefs u = b :: l ->
  check_convergence u
  = Qlt_bool (total_variance (b :: l) / inject_Z (Z.of_nat (List.length (b :: l)))) 1.0.
Proof.
  intros H. unfold check_convergence. rewrite all_level_data_known, H.
  reflexivity.
Qed.

(** In exact arithmetic the check answers true exactly when the store
    knows at least one belief and the arithmetic mean of the variances of
    all known beliefs is strictly below 1.0; a store whose variances are
    all 0.5 converges, and one with a single variance 5 among low values
    (mean 1.325) does not.  On floats the mean is the one the code
    computes: see the float model below. *)
Theorem convergence_iff_mean_variance_below_one :
  (forall u,
     check_convergence u = true
     <-> exists m, mean_variance (known_beliefs u) = Some m /\ m < 1)
  /\ check_convergence (demo_store 0 0.5) = true
  /\ check_convergence spiky_store = false.
Proof.
  split; [|split; reflexivity].
  intros u. destruct (known_beliefs u) as [|b l] eqn:Hk.
  - unfold check_convergence. rewrite all_level_data_known, Hk. simpl.
    split; [discriminate | intros [m [H _]]; discriminate].
  - rewrite (check_convergence_nonempty u b l Hk), Qlt_bool_iff.
    unfold mean_variance. rewrite total_variance_sum. split.
    + intros H. eexists. split; [reflexivity|].
      apply Qlt_le_trans with 1.0; [exact H | lra].
    + intros [m [E H]]. injection E as <-.
      apply Qlt_le_trans with 1; [exact H | lra].
Qed.

Lemma known_beliefs_empty u :
  (forall ct, In ct u -> snd ct = []) -> known_beliefs u = [].
Proof.
  induction u as [|[c tbl] u IH]; intros H; simpl; auto.
  rewrite (H (c, tbl) (or_introl eq_refl)) at 1. simpl.
  unfold known_beliefs in IH. apply IH. intros ct Hin. apply H. now right.
Qed.

(** ** Convergence check on floats *)




(** ** Orthogonal fallback generator *)

Open Scope Z_scope.

Lemma orthogonal_pair_on_valid e :
  valid_3x3 (criteria_levels e) ->
  get_python_orthogonal_pair e
  = (Some (row_profile (criteria_levels e)
             (fst (rows_at (orthogonal_fallback_pair_idx_counter e))),
           row_profile (criteria_levels e)
             (snd (rows_at (orthogonal_fallback_pair_idx_counter e)))),
     set_counter e (orthogonal_fallback_pair_idx_counter e + 1)).
Proof.
  intros (Hlen & Hnd & Hlv).
  unfold get_python_orthogonal_pair, rows_at.
  change MAX_ORTHOGONAL_FALLBACK_TOTAL with 9.
  pose proof (Z.mod_pos_bound (orthogonal_fallback_pair_idx_counter e) 9 eq_refl) as Hm.
  set (m := orthogonal_fallback_pair_idx_counter e mod 9) in *.
  destruct (criteria_levels e) as [|[c1 l1] [|[c2 l2] [|[c3 l3] [|? ?]]]];
    try discriminate.
  inversion Hlv as [|? ? H1 Hlv1]; subst.
  inversion Hlv1 as [|? ? H2 Hlv2]; subst.
  inversion Hlv2 as [|? ? H3 _]; subst.
  simpl in H1, H2, H3.
  destruct l1 as [|a1 [|a2 [|a3 [|? ?]]]]; try discriminate.
  destruct l2 as [|b1 [|b2 [|b3 [|? ?]]]]; try discriminate.
  destruct l3 as [|d1 [|d2 [|d3 [|? ?]]]]; try discriminate.
  assert (E12 : String.eqb c1 c2 = false).
  { apply String.eqb_neq. intros ->. inversion Hnd as [|? ? Hn _]. apply Hn. now left. }
  assert (E13 : String.eqb c1 c3 = false).
  { apply String.eqb_neq. intros ->. inversion Hnd as [|? ? Hn _]. apply Hn.
    right. now left. }
  assert (E23 : String.eqb c2 c3 = false).
  { apply String.eqb_neq. intros ->. inversion Hnd as [|? ? _ Hnd'].
    inversion Hnd' as [|? ? Hn _]. apply Hn. now left. }
  clearbody m.
  assert (Hcases : m = 0 \/ m = 1 \/ m = 2 \/ m = 3 \/ m = 4 \/ m = 5
                   \/ m = 6 \/ m = 7 \/ m = 8) by lia.
  destruct Hcases as [->|[->|[->|[->|[->|[->|[->|[->| ->]]]]]]]];
    cbn; rewrite ?String.eqb_refl, ?E12, ?E13, ?E23; cbn;
    rewrite ?String.eqb_refl, ?E12, ?E13, ?E23; reflexivity.
Qed.

Lemma nth_call_on_valid k : forall e,
  valid_3x3 (criteria_levels e) ->
  nth_call k e
  = get_python_orthogonal_pair
      (set_counter e (orthogonal_fallback_pair_idx_counter e + Z.of_nat k)).
Proof.
  induction k as [|k IH]; intros e Hv.
  - simpl. rewrite Z.add_0_r. now destruct e.
  - cbn [nth_call]. rewrite (orthogonal_pair_on_valid e Hv). cbn [snd].
    rewrite IH by exact Hv.
    f_equal. destruct e; unfold set_counter; cbn. f_equal. lia.
Qed.

Lemma rows_at_period c : rows_at (c + 9) = rows_at c.
Proof.
  unfold rows_at.
  assert (H : (c + 9) mod 9 = c mod 9).
  { apply (Z.mod_add c 1 9). lia. }
  now rewrite H.
Qed.

(** C4.  On three criteria with three levels each, consecutive calls of
    the generator always return a pair, the pair of call [k + 9] is the
    pair of call [k], and starting from counter 0 every row of the
    orthogonal array is one side of one of the first nine pairs. *)
Theorem orthogonal_generator_cycles_and_covers e :
  valid_3x3 (criteria_levels e) ->
  (forall k, exists a b, fst (nth_call k e) = Some (a, b))
  /\ (forall k, fst (nth_call (k + 9) e) = fst (nth_call k e))
  /\ (orthogonal_fallback_pair_idx_counter e = 0 ->
      forall row, In row L9_PROFILES ->
      exists k a b,
        (k < 9)%nat
        /\ fst (nth_call k e) = Some (a, b)
        /\ (a = row_profile (criteria_levels e) row
            \/ b = row_profile (criteria_levels e) row)).
Proof.
  intros Hv.
  assert (Hcall : forall k,
    fst (nth_call k e)
    = Some (row_profile (criteria_levels e)
              (fst (rows_at (orthogonal_fallback_pair_idx_counter e + Z.of_nat k))),
            row_profile (criteria_levels e)
              (snd (rows_at (orthogonal_fallback_pair_idx_counter e + Z.of_nat k))))).
  { intros k. rewrite nth_call_on_valid by exact Hv.
    rewrite orthogonal_pair_on_valid by (destruct e; exact Hv).
    now destruct e. }
  split; [|split].
  - intros k. rewrite Hcall. eauto.
  - intros k. rewrite !Hcall.
    replace (orthogonal_fallback_pair_idx_counter e + Z.of_nat (k + 9))
      with (orthogonal_fallback_pair_idx_counter e + Z.of_nat k + 9) by lia.
    now rewrite rows_at_period.
  - intros H0 row Hin. rewrite H0 in Hcall.
    simpl in Hin.
    destruct Hin as [<-|[<-|[<-|[<-|[<-|[<-|[<-|[<-|[<-|[]]]]]]]]]].
    + exists 0%nat. do 2 eexists. split; [lia|]. split; [apply Hcall|]. now left.
    + exists 1%nat. do 2 eexists. split; [lia|]. split; [apply Hcall|]. now left.
    + exists 2%nat. do 2 eexists. split; [lia|]. split; [apply Hcall|]. now left.
    + exists 3%nat. do 2 eexists. split; [lia|]. split; [apply Hcall|]. now left.
    + exists 0%nat. do 2 eexists. split; [lia|]. split; [apply Hcall|]. now right.
    + exists 1%nat. do 2 eexists. split; [lia|]. split; [apply Hcall|]. now right.
    + exists 2%nat. do 2 eexists. split; [lia|]. split; [apply Hcall|]. now right.
    + exists 4%nat. do 2 eexists. split; [lia|]. split; [apply Hcall|]. now right.
    + exists 3%nat. do 2 eexists. split; [lia|]. split; [apply Hcall|]. now right.
Qed.

Lemma demo_criteria_valid : valid_3x3 demo_criteria.
Proof.
  repeat split.
  - repeat constructor; simpl; intuition discriminate.
  - repeat constructor.
Qed.

(** Instance: the sample configuration, counter at 0. *)
Lemma orthogonal_generator_cycles_and_covers_witness :
  let e := demo_engine PYTHON_ORTHOGONAL_CF 0 (demo_store 0 10) in
  (forall k, exists a b, fst (nth_call k e) = Some (a, b))
  /\ (forall k, fst (nth_call (k + 9) e) = fst (nth_call k e))
  /\ (orthogonal_fallback_pair_idx_counter e = 0 ->
      forall row, In row L9_PROFILES ->
      exists k a b,
        (k < 9)%nat
        /\ fst (nth_call k e) = Some (a, b)
        /\ (a = row_profile (criteria_levels e) row
            \/ b = row_profile (criteria_levels e) row)).
Proof.
  apply orthogonal_generator_cycles_and_covers. exact demo_criteria_valid.
Defined.

(** ** Counterfactual alternative index *)

Lemma list_index_bounds l x i :
  list_index l x = Some i -> 0 <= i < Z.of_nat (List.length l).
Proof.
  revert i. induction l as [|y l IH]; intros i; simpl; [discriminate|].
  destruct (String.eqb y x).
  - intros [= <-]. lia.
  - destruct (list_index l x) as [j|]; [|discriminate].
    intros [= <-]. specialize (IH j eq_refl). lia.
Qed.

Lemma first_max_In best l : In (first_max best l) (best :: l).
Proof.
  revert best. induction l as [|x l IH]; intros best; simpl; auto.
  destruct (Qlt_bool _ _).
  - right. apply IH.
  - destruct (IH best) as [H|H]; auto.
Qed.

Lemma uncertain_levels_sound e p v c l i :
  In (v, c, l, i) (uncertain_levels e p) -> list_index (levels_of e c) l = Some i.
Proof.
  unfold uncertain_levels, levels_of. intros H.
  apply in_flat_map in H. destruct H as [[crit tbl] [_ H]].
  destruct (Dict.get p crit) as [actual|]; [|destruct H].
  destruct (Dict.get (criteria_levels e) crit) as [[|d0 defs]|] eqn:Hd;
    try destruct H.
  destruct (list_index (d0 :: defs) actual) as [idx|] eqn:Hi; [|destruct H].
  destruct (Dict.get tbl actual) as [b|]; [|destruct H].
  destruct H as [E|[]]. injection E as <- <- <- <-.
  now rewrite Hd.
Qed.

Lemma counterfactual_target_sound e rejected c l i :
  counterfactual_target e rejected = Some (c, l, i) ->
  list_index (levels_of e c) l = Some i.
Proof.
  unfold counterfactual_target, find_most_uncertain_level.
  assert (Hfallback :
    match rejected with
    | [] => None
    | (c0, l0) :: _ =>
        match list_index (levels_of e c0) l0 with
        | Some i0 => Some (c0, l0, i0)
        | None => None
        end
    end = Some (c, l, i) -> list_index (levels_of e c) l = Some i).
  { destruct rejected as [|[c0 l0] r]; [discriminate|].
    destruct (list_index (levels_of e c0) l0) eqn:E; [|discriminate].
    intros [= <- <- <-]. exact E. }
  fold (levels_of e).
  destruct (uncertain_levels e rejected) as [|x cands] eqn:Hu.
  - destruct rejected as [|[c0 l0] r]; [discriminate|].
    fold (levels_of e c0) in *.
    destruct (list_index (levels_of e c0) l0) as [i0|] eqn:E.
    + destruct (String.eqb c0 ""); [exact Hfallback|].
      intros [= <- <- <-]. exact E.
    + exact Hfallback.
  - pose proof (first_max_In x cands) as Hin. rewrite <- Hu in Hin.
    destruct (first_max x cands) as [[[v c1] l1] i1].
    destruct (String.eqb c1 ""); [exact Hfallback|].
    intros [= <- <- <-]. eapply uncertain_levels_sound; eauto.
Qed.

Lemma first_differing_spec fuel : forall s o d i,
  s <= i < s + Z.of_nat fuel -> i <> o ->
  (forall j, s <= j < i -> j = o) ->
  first_differing fuel s o d = i.
Proof.
  induction fuel as [|fuel IH]; intros s o d i Hr Hne Hfirst; [lia|].
  cbn [first_differing].
  destruct (s =? o) eqn:E; simpl.
  - apply Z.eqb_eq in E. apply IH; [lia | auto |].
    intros j Hj. apply Hfirst. lia.
  - apply Z.eqb_neq in E.
    destruct (Z.eq_dec s i) as [|Hsi]; auto.
    exfalso. apply E. apply Hfirst. lia.
Qed.

Lemma first_differing_default fuel : forall s o d,
  first_differing fuel s o d = o ->
  forall j, s <= j < s + Z.of_nat fuel -> j = o.
Proof.
  induction fuel as [|fuel IH]; intros s o d H j Hj; [lia|].
  cbn [first_differing] in H.
  destruct (s =? o) eqn:E; simpl in H.
  - apply Z.eqb_eq in E.
    destruct (Z.eq_dec j s) as [->|Hjs]; auto.
    apply (IH (s + 1) o d H). lia.
  - apply Z.eqb_neq in E. congruence.
Qed.

Lemma improved_level_index_three o i :
  improved_level_index 3 o = Some i -> 0 <= i < 3 /\ i <> o.
Proof.
  unfold improved_level_index, transition_table.
  destruct (o =? 0) eqn:E0; [apply Z.eqb_eq in E0; subst; simpl; intros [= <-]; lia|].
  destruct (o =? 1) eqn:E1; [apply Z.eqb_eq in E1; subst; simpl; intros [= <-]; lia|].
  destruct (o =? 2) eqn:E2; [apply Z.eqb_eq in E2; subst; simpl; intros [= <-]; lia|].
  assert (E0' : (0 =? o) = false) by (now rewrite Z.eqb_sym).
  apply Z.eqb_neq in E0.
  cbv beta iota zeta.
  rewrite (first_differing_spec 3 0 o (-1) 0) by (try lia; intros j Hj; lia).
  change (0 <=? -1) with false. cbv [andb negb orb]. rewrite E0'.
  intros [= <-]. lia.
Qed.

Lemma py_index_in_range {A} (l : list A) i :
  0 <= i < Z.of_nat (List.length l) -> exists x, py_index l i = Some x.
Proof.
  intros H. unfold py_index.
  destruct (0 <=? i) eqn:E; [|apply Z.leb_gt in E; lia].
  destruct (nth_error l (Z.to_nat i)) eqn:En; eauto.
  apply nth_error_None in En. lia.
Qed.

(** What [counterfactual_plan] can answer. *)
Lemma counterfactual_plan_sound e chosen rejected :
  match counterfactual_plan e chosen rejected with
  | CF_IndexError => False
  | CF_Skip => True
  | CF_Ask tc ol il idx m =>
      exists levels oi,
        Dict.get (criteria_levels e) tc = Some levels
        /\ List.length levels = 3%nat
        /\ list_index levels ol = Some oi
        /\ idx = transition_table oi
        /\ py_index levels idx = Some il
        /\ m = Dict.set tc il rejected
  end.
Proof.
  unfold counterfactual_plan.
  destruct (counterfactual_target e rejected) as [[[tc ol] oi]|] eqn:Ht; auto.
  apply counterfactual_target_sound in Ht. unfold levels_of in Ht.
  destruct (Dict.get (criteria_levels e) tc) as [levels|] eqn:Hl; auto.
  destruct (Nat.eqb (List.length levels) 3) eqn:Hn; simpl; auto.
  apply Nat.eqb_eq in Hn. rewrite Hn.
  pose proof (list_index_bounds _ _ _ Ht) as Hb. rewrite Hn in Hb.
  assert (Hidx : improved_level_index 3 oi = Some (transition_table oi)).
  { assert (H : oi = 0 \/ oi = 1 \/ oi = 2) by lia.
    destruct H as [->|[->| ->]]; reflexivity. }
  rewrite Hidx.
  destruct (improved_level_index_three _ _ Hidx) as [Hr _].
  destruct (py_index_in_range levels (transition_table oi)) as [il Hil];
    [rewrite Hn; exact Hr|].
  rewrite Hil.
  destruct (profile_eqb _ _); auto.
  exists levels, oi. auto 10.
Qed.

(** On a target that sits on a three-level criterion the plan is decided
    by the table alone. *)
Lemma counterfactual_plan_on_target e chosen rejected tc ol oi levels :
  counterfactual_target e rejected = Some (tc, ol, oi) ->
  Dict.get (criteria_levels e) tc = Some levels ->
  List.length levels = 3%nat ->
  exists il,
    py_index levels (transition_table oi) = Some il
    /\ counterfactual_plan e chosen rejected
       = (if profile_eqb (Dict.set tc il rejected) chosen then CF_Skip
          else CF_Ask tc ol il (transition_table oi) (Dict.set tc il rejected)).
Proof.
  intros Ht Hl Hn.
  pose proof (counterfactual_target_sound _ _ _ _ _ Ht) as Hi.
  unfold levels_of in Hi. rewrite Hl in Hi.
  pose proof (list_index_bounds _ _ _ Hi) as Hb. rewrite Hn in Hb.
  assert (Hidx : improved_level_index 3 oi = Some (transition_table oi)).
  { assert (H : oi = 0 \/ oi = 1 \/ oi = 2) by lia.
    destruct H as [->|[->| ->]]; reflexivity. }
  destruct (improved_level_index_three _ _ Hidx) as [Hr _].
  destruct (py_index_in_range levels (transition_table oi)) as [il Hil];
    [rewrite Hn; exact Hr|].
  exists il. split; [exact Hil|].
  unfold counterfactual_plan. rewrite Ht, Hl, Hn. cbn [Nat.eqb negb].
  rewrite Hidx, Hil. reflexivity.
Qed.

(** C6.  For the targeted three-level criterion the alternative index
    follows the table 0 -> 1, 1 -> 2, 2 -> 1; when the table's answer is out
    of range or equal to the original index, the first index that differs
    from the original is taken; the index computation skips only when no
    index differs from the original, a skip leaves the engine as it was,
    and the subscript with the alternative index never raises.  In the
    step itself: without a target, or with a target whose criterion does
    not have three levels, the step is a skip; with a target at index [o]
    of a three-level criterion the alternative is the level at the table's
    index, the step is a skip when the rejected profile with that level
    equals the chosen profile, and otherwise it puts exactly that profile
    to the user and updates the beliefs of the original and of the
    alternative level. *)
Theorem counterfactual_alternative_index :
  (transition_table 0 = 1 /\ transition_table 1 = 2 /\ transition_table 2 = 1)
  /\ (forall o, 0 <= o <= 2 ->
        improved_level_index 3 o = Some (transition_table o))
  /\ (forall n o i,
        ~ (0 <= transition_table o < Z.of_nat n) \/ transition_table o = o ->
        0 <= i < Z.of_nat n -> i <> o -> (forall j, 0 <= j < i -> j = o) ->
        improved_level_index n o = Some i)
  /\ (forall n o,
        improved_level_index n o = None ->
        forall i, 0 <= i < Z.of_nat n -> i = o)
  /\ (forall o,
        improved_level_index 3 o = None <-> (forall i, 0 <= i < 3 -> i = o))
  /\ (forall e chosen rejected,
        counterfactual_plan e chosen rejected <> CF_IndexError)
  /\ (forall inp e chosen rejected,
        counterfactual_plan e chosen rejected = CF_Skip ->
        ask_and_process_counterfactual inp e chosen rejected = (e, [], Continue))
  /\ (forall e chosen rejected tc ol il idx m,
        counterfactual_plan e chosen rejected = CF_Ask tc ol il idx m ->
        exists levels oi,
          Dict.get (criteria_levels e) tc = Some levels
          /\ List.length levels = 3%nat
          /\ list_index levels ol = Some oi
          /\ idx = transition_table oi
          /\ py_index levels idx = Some il
          /\ m = Dict.set tc il rejected)
  /\ (forall e chosen rejected,
        counterfactual_target e rejected = None ->
        counterfactual_plan e chosen rejected = CF_Skip)
  /\ (forall e chosen rejected tc ol oi,
        counterfactual_target e rejected = Some (tc, ol, oi) ->
        (forall levels, Dict.get (criteria_levels e) tc = Some levels ->
           List.length levels <> 3%nat) ->
        counterfactual_plan e chosen rejected = CF_Skip)
  /\ (forall inp e chosen rejected tc ol oi levels,
        counterfactual_target e rejected = Some (tc, ol, oi) ->
        Dict.get (criteria_levels e) tc = Some levels ->
        List.length levels = 3%nat ->
        exists il,
          py_index levels (transition_table oi) = Some il
          /\ counterfactual_plan e chosen rejected
             = (if profile_eqb (Dict.set tc il rejected) chosen then CF_Skip
                else CF_Ask tc ol il (transition_table oi)
                       (Dict.set tc il rejected))
          /\ ask_and_process_counterfactual inp e chosen rejected
             = (if profile_eqb (Dict.set tc il rejected) chosen
                then (e, [], Continue)
                else (set_utilities e
                        (update_utilities_from_counterfactual (utilities_of e)
                           tc ol il (cf_choice_is_modified inp)),
                      [AskCounterfactual (Dict.set tc il rejected) chosen],
                      Continue))).
Proof.
  split; [repeat split|].
  split.
  { intros o Ho.
    assert (H : o = 0 \/ o = 1 \/ o = 2) by lia.
    destruct H as [->|[->| ->]]; reflexivity. }
  split.
  { intros n o i Hmiss Hi Hne Hfirst. unfold improved_level_index.
    assert (Hc : negb ((0 <=? transition_table o)
                       && (transition_table o <? Z.of_nat n))
                 || (transition_table o =? o) = true).
    { destruct Hmiss as [Hout|Heq].
      - destruct ((0 <=? transition_table o)
                  && (transition_table o <? Z.of_nat n)) eqn:E; auto.
        apply andb_true_iff in E. destruct E as [E1 E2].
        apply Z.leb_le in E1. apply Z.ltb_lt in E2. lia.
      - apply orb_true_iff. right. now apply Z.eqb_eq. }
    rewrite Hc.
    rewrite (first_differing_spec n 0 o _ i) by (auto; lia).
    apply Z.eqb_neq in Hne. now rewrite Hne. }
  split.
  { intros n o. unfold improved_level_index.
    destruct (_ || _); [|discriminate].
    destruct (first_differing n 0 o (transition_table o) =? o) eqn:E;
      [|discriminate].
    intros _ i Hi. apply Z.eqb_eq in E.
    apply (first_differing_default n 0 o _ E). lia. }
  split.
  { intros o. split.
    - intros H. exfalso.
      destruct (Z.eq_dec o 0) as [->|H0]; [discriminate H|].
      destruct (Z.eq_dec o 1) as [->|H1]; [discriminate H|].
      destruct (Z.eq_dec o 2) as [->|H2]; [discriminate H|].
      assert (E : improved_level_index 3 o = Some 0); [|congruence].
      unfold improved_level_index, transition_table.
      apply Z.eqb_neq in H0, H1, H2. rewrite H0, H1, H2.
      cbv beta iota zeta.
      rewrite (first_differing_spec 3 0 o (-1) 0)
        by (try lia; apply Z.eqb_neq in H0; lia).
      change (0 <=? -1) with false. cbv [andb negb orb].
      now rewrite Z.eqb_sym, H0.
    - intros H. pose proof (H 0 ltac:(lia)). pose proof (H 1 ltac:(lia)). lia. }
  pose proof counterfactual_plan_sound as Hplan.
  split; [|split; [|split; [|split; [|split]]]].
  - intros e chosen rejected H. specialize (Hplan e chosen rejected).
    now rewrite H in Hplan.
  - intros inp e chosen rejected H. unfold ask_and_process_counterfactual.
    now rewrite H.
  - intros e chosen rejected tc ol il idx m H.
    specialize (Hplan e chosen rejected). now rewrite H in Hplan.
  - intros e chosen rejected H. unfold counterfactual_plan. now rewrite H.
  - intros e chosen rejected tc ol oi Ht Hn.
    unfold counterfactual_plan. rewrite Ht.
    destruct (Dict.get (criteria_levels e) tc) as [levels|]; [|reflexivity].
    destruct (Nat.eqb (List.length levels) 3) eqn:E; [|reflexivity].
    apply Nat.eqb_eq in E. now elim (Hn levels eq_refl).
  - intros inp e chosen rejected tc ol oi levels Ht Hl Hn.
    destruct (counterfactual_plan_on_target e chosen rejected tc ol oi levels
                Ht Hl Hn) as (il & Hil & Hp).
    exists il. split; [exact Hil|]. split; [exact Hp|].
    unfold ask_and_process_counterfactual. rewrite Hp.
    now destruct (profile_eqb (Dict.set tc il rejected) chosen).
Qed.

(** Instance: the rejected profile carries "Price" at "mid" (index 1); the
    step offers it with "Price" at "high" (index 2) and, the user staying
    with the first choice, updates the beliefs of "mid" and "high". *)
Lemma counterfactual_alternative_index_witness :
  let e := demo_engine PYTHON_ORTHOGONAL_CF 0 (demo_store 0 10) in
  let chosen := [("Price", "low"); ("Speed", "slow"); ("Support", "basic")] in
  let rejected := [("Price", "mid"); ("Speed", "medium"); ("Support", "premium")] in
  let offered := [("Price", "high"); ("Speed", "medium"); ("Support", "premium")] in
  counterfactual_target e rejected = Some ("Price", "mid", 1)
  /\ counterfactual_plan e chosen rejected
     = CF_Ask "Price" "mid" "high" 2 offered
  /\ ask_and_process_counterfactual oracle_down e chosen rejected
     = (set_utilities e
          (update_utilities_from_counterfactual (utilities_of e)
             "Price" "mid" "high" false),
        [AskCounterfactual offered chosen], Continue).
Proof.
  intros e chosen rejected offered.
  destruct counterfactual_alternative_index
    as (_ & _ & _ & _ & _ & _ & _ & _ & _ & _ & Hstep).
  destruct (Hstep oracle_down e chosen rejected "Price" "mid" 1
              ["low"; "mid"; "high"] eq_refl eq_refl eq_refl)
    as (il & Hil & Hplan & Hask).
  vm_compute in Hil. injection Hil as <-.
  split; [reflexivity|]. split; [exact Hplan | exact Hask].
Defined.

(** ** The question loop: frame lemmas *)

Lemma counterfactual_step_control inp e chosen rejected e' evs st :
  ask_and_process_counterfactual inp e chosen rejected = (e', evs, st) ->
  same_control e e' /\ st = Continue /\ forallb answer_event evs = true.
Proof.
  unfold ask_and_process_counterfactual.
  pose proof (counterfactual_plan_sound e chosen rejected) as Hs.
  destruct (counterfactual_plan e chosen rejected); [| destruct Hs |];
    intros [= <- <- <-]; unfold same_control; simpl; auto 15.
Qed.

Lemma answer_control inp e a b cf e' evs st :
  answer inp e a b cf = (e', evs, st) ->
  same_control e e'
  /\ st <> Raised
  /\ In (AskQuestion a b) evs
  /\ (st = Break -> In ConvergedMessage evs)
  /\ forallb answer_event evs = true.
Proof.
  unfold answer.
  set (e3 := set_utilities _ _).
  set (chosen := if main_choice_is_a inp then a else b).
  set (rejected := if main_choice_is_a inp then b else a).
  assert (H3 : same_control e e3) by (unfold same_control; simpl; auto 15).
  destruct cf.
  - destruct (ask_and_process_counterfactual inp e3 chosen rejected)
      as [[e4 evs_cf] st4] eqn:Hcf.
    apply counterfactual_step_control in Hcf.
    destruct Hcf as (Hc & -> & Hev).
    assert (H4 : same_control e e4).
    { unfold same_control in *. intuition congruence. }
    destruct (check_convergence (utilities_of e4));
      intros [= <- <- <-]; (split; [exact H4|]);
      (split; [discriminate|]); (split; [now left|]); split;
      try discriminate; simpl.
    + intros _. right. apply in_or_app. right. now left.
    + rewrite forallb_app, Hev. reflexivity.
    + exact Hev.
  - destruct (check_convergence (utilities_of e3));
      intros [= <- <- <-]; (split; [exact H3|]);
      (split; [discriminate|]); (split; [now left|]); split;
      try discriminate; simpl; auto.
Qed.

(** The generator moves nothing but its counter. *)
Lemma orthogonal_pair_frame e :
  let e' := snd (get_python_orthogonal_pair e) in
  criteria_levels e' = criteria_levels e
  /\ initial_strategy e' = initial_strategy e
  /\ r_idefix_consecutive_failures e' = r_idefix_consecutive_failures e
  /\ initial_questions_done e' = initial_questions_done e.
Proof.
  unfold get_python_orthogonal_pair.
  destruct (negb _); simpl; auto.
  destruct (fill_profiles _ _ _ _ _ _ _) as [[pa pb]|]; simpl; auto.
Qed.

(** ** Adaptive phase: oracle failures *)

Lemma generate_adaptive_phase inp e :
  adaptive_phase e ->
  generate inp e = generate_adaptive (current_phase_strategy e) inp e.
Proof. unfold generate. now intros [-> | ->]. Qed.

Lemma generate_adaptive_result cps inp e e1 evs g :
  valid_3x3 (criteria_levels e) ->
  generate_adaptive cps inp e = (e1, evs, g) ->
  initial_strategy e1 = initial_strategy e
  /\ match single_reply inp with
     | None =>
         g = GenPair
               (Some (row_profile (criteria_levels e)
                        (fst (rows_at (orthogonal_fallback_pair_idx_counter e)))))
               (Some (row_profile (criteria_levels e)
                        (snd (rows_at (orthogonal_fallback_pair_idx_counter e)))))
               false
         /\ r_idefix_consecutive_failures e1 = r_idefix_consecutive_failures e + 1
         /\ evs = [RequestSingle; SingleFetchFailed]
                    ++ (if 3 <=? r_idefix_consecutive_failures e + 1
                        then [EscalationWarning] else [])
     | Some (a, b) =>
         g = GenPair a b false
         /\ r_idefix_consecutive_failures e1 = 0
         /\ evs = [RequestSingle]
     end.
Proof.
  intros Hv. unfold generate_adaptive.
  match goal with
  | |- context [if ?c then incr_done e else e] =>
      set (e0 := if c then incr_done e else e)
  end.
  assert (H0 : criteria_levels e0 = criteria_levels e
               /\ orthogonal_fallback_pair_idx_counter e0
                  = orthogonal_fallback_pair_idx_counter e
               /\ initial_strategy e0 = initial_strategy e
               /\ r_idefix_consecutive_failures e0 = r_idefix_consecutive_failures e).
  { unfold e0. destruct (_ || _); simpl; auto. }
  destruct H0 as (Hcl & Hcnt & Hst & Hf). clearbody e0.
  destruct (single_reply inp) as [[a b]|].
  - intros [= <- <- <-]. simpl. auto.
  - rewrite orthogonal_pair_on_valid by (rewrite Hcl; exact Hv).
    intros [= <- <- <-]. simpl. rewrite Hcl, Hcnt, Hf. auto.
Qed.

(** C3 (as amended).  In the adaptive phase of a valid 3x3 session an
    oracle failure is answered with the next orthogonal question: the
    iteration does not raise, it leaves the loop only through the
    convergence check, the strategy is unchanged and the failure counter
    grows by one; a successful reply resets the counter to 0 and emits no
    warning; and the escalation warning is emitted at every failed call
    that leaves the counter at 3 or more. *)
Theorem adaptive_failure_falls_back_and_warns inp e e' evs st :
  valid_3x3 (criteria_levels e) ->
  adaptive_phase e ->
  step inp e = (e', evs, st) ->
  match single_reply inp with
  | None =>
      In (AskQuestion
            (row_profile (criteria_levels e)
               (fst (rows_at (orthogonal_fallback_pair_idx_counter e))))
            (row_profile (criteria_levels e)
               (snd (rows_at (orthogonal_fallback_pair_idx_counter e))))) evs
      /\ st <> Raised
      /\ (st = Break -> In ConvergedMessage evs)
      /\ initial_strategy e' = initial_strategy e
      /\ r_idefix_consecutive_failures e' = r_idefix_consecutive_failures e + 1
      /\ (In EscalationWarning evs <-> 3 <= r_idefix_consecutive_failures e')
  | Some _ =>
      r_idefix_consecutive_failures e' = 0 /\ ~ In EscalationWarning evs
  end.
Proof.
  intros Hv Hph. unfold step.
  rewrite generate_adaptive_phase by exact Hph.
  destruct (generate_adaptive _ inp _) as [[e1 evs1] g] eqn:Hg.
  apply generate_adaptive_result in Hg; [|exact Hv].
  cbn [set_question_count initial_strategy criteria_levels
       orthogonal_fallback_pair_idx_counter r_idefix_consecutive_failures] in Hg.
  destruct Hg as [Hst Hg].
  assert (Hans : forall ev l, forallb answer_event l = true ->
                  answer_event ev = false -> ~ In ev l).
  { intros ev l Hl Hev Hin. rewrite forallb_forall in Hl.
    apply Hl in Hin. congruence. }
  destruct (single_reply inp) as [[a b]|].
  - destruct Hg as (-> & Hf & ->).
    destruct a as [pa|]; [destruct b as [pb|]|].
    + destruct (answer inp e1 pa pb false) as [[e4 evs4] st4] eqn:Ha.
      apply answer_control in Ha.
      destruct Ha as (Hc & _ & _ & _ & Hev).
      intros [= <- <- <-]. split.
      * unfold same_control in Hc. intuition congruence.
      * simpl. intros [H|H]; [discriminate|]. revert H. now apply Hans.
    + intros [= <- <- <-]. split; auto.
      simpl. intuition discriminate.
    + intros [= <- <- <-]. split; auto.
      simpl. intuition discriminate.
  - destruct Hg as (-> & Hf & ->).
    destruct (answer inp e1 _ _ false) as [[e4 evs4] st4] eqn:Ha.
    apply answer_control in Ha.
    destruct Ha as (Hc & Hnr & Hask & Hbrk & Hev).
    intros [= <- <- <-].
    assert (Hf4 : r_idefix_consecutive_failures e4
                  = r_idefix_consecutive_failures e + 1).
    { unfold same_control in Hc. intuition congruence. }
    split; [simpl; right; right; apply in_or_app; now right|].
    split; [exact Hnr|].
    split; [intros Hb; simpl; right; right; apply in_or_app; right; auto|].
    split; [unfold same_control in Hc; intuition congruence|].
    split; [exact Hf4|].
    rewrite Hf4.
    destruct (3 <=? r_idefix_consecutive_failures e + 1) eqn:E.
    + apply Z.leb_le in E. split; auto.
      intros _. simpl. auto.
    + apply Z.leb_gt in E. split; [|lia].
      simpl. intros [Hin|[Hin|Hin]]; try discriminate.
      exfalso. revert Hin. now apply Hans.
Qed.

(** Instance: first iteration of an adaptive session, the oracle fails. *)
Lemma adaptive_failure_falls_back_and_warns_witness :
  let e := demo_engine MODFED_DIRECT 0 (demo_store 0 10) in
  let r := step oracle_down e in
  match single_reply oracle_down with
  | None =>
      In (AskQuestion
            (row_profile (criteria_levels e)
               (fst (rows_at (orthogonal_fallback_pair_idx_counter e))))
            (row_profile (criteria_levels e)
               (snd (rows_at (orthogonal_fallback_pair_idx_counter e)))))
         (snd (fst r))
      /\ snd r <> Raised
      /\ (snd r = Break -> In ConvergedMessage (snd (fst r)))
      /\ initial_strategy (fst (fst r)) = initial_strategy e
      /\ r_idefix_consecutive_failures (fst (fst r))
         = r_idefix_consecutive_failures e + 1
      /\ (In EscalationWarning (snd (fst r))
          <-> 3 <= r_idefix_consecutive_failures (fst (fst r)))
  | Some _ =>
      r_idefix_consecutive_failures (fst (fst r)) = 0
      /\ ~ In EscalationWarning (snd (fst r))
  end.
Proof.
  intros e r.
  apply (adaptive_failure_falls_back_and_warns oracle_down e).
  - exact demo_criteria_valid.
  - right. reflexivity.
  - subst r. now destruct (step oracle_down e) as [[? ?] ?].
Defined.

(** C3 as stated fails in its last part: with an oracle that never
    answers, a session that starts in the adaptive phase makes eight oracle
    calls that all fail, so the counter passes the threshold once and is
    never reset, and the warning is printed six times (calls 3 to 8). *)
Lemma escalation_warning_repeats_after_threshold :
  let r := run_elicitation_session (fun _ => oracle_down)
             (demo_engine MODFED_DIRECT 0 (demo_store 0 10)) in
  List.length (filter is_single_request (snd (fst r))) = 8%nat
  /\ List.length (filter is_single_failure (snd (fst r))) = 8%nat
  /\ r_idefix_consecutive_failures (fst (fst r)) = 8
  /\ List.length (filter is_escalation (snd (fst r))) = 6%nat
  /\ ~ (List.length (filter is_escalation (snd (fst r))) <= 1)%nat.
Proof.
  cbv zeta. repeat split; try (vm_compute; reflexivity).
  vm_compute. intros H. repeat (apply le_S_n in H). inversion H.
Qed.

(** ** Block kickstart: the downgrade is one-way *)

Lemma block_free_app s r : block_free s -> block_free r -> block_free (s ++ r).
Proof.
  unfold block_free. intros [H1 H2] [H3 H4].
  split; intros H; apply in_app_or in H; tauto.
Qed.

Lemma block_free_one_way evs : block_free evs -> one_way evs.
Proof.
  intros [_ H] t1 t2 ->. exfalso. apply H. apply in_or_app. right. now left.
Qed.

Lemma one_way_app s r :
  one_way s -> one_way r -> (In BlockFetchFailed s -> block_free r) ->
  one_way (s ++ r).
Proof.
  intros Hs Hr Hsr t1 t2 E.
  apply app_eq_app in E. destruct E as [l [[E1 E2]|[E1 E2]]].
  - destruct l as [|x l]; simpl in E2.
    + rewrite app_nil_r in E1. subst t1. eapply (Hr []). simpl. eauto.
    + injection E2 as <- ->. subst s.
      apply block_free_app.
      * eapply Hs. reflexivity.
      * apply Hsr. apply in_or_app. right. now left.
  - eapply Hr. eauto.
Qed.

Lemma answer_events_block_free evs :
  forallb answer_event evs = true -> block_free evs.
Proof.
  intros H. rewrite forallb_forall in H.
  split; intros Hin; apply H in Hin; discriminate.
Qed.

Lemma generate_not_block inp e e1 evs g :
  initial_strategy e <> CEA_BLOCK_CF ->
  generate inp e = (e1, evs, g) ->
  initial_strategy e1 = initial_strategy e /\ block_free evs.
Proof.
  intros Hne. unfold generate.
  assert (Hph : current_phase_strategy e <> CEA_BLOCK_CF).
  { unfold current_phase_strategy.
    destruct (initial_strategy e); simpl; try congruence;
      now destruct (_ <=? _). }
  destruct (current_phase_strategy e) eqn:Hcps; try congruence.
  - unfold generate_orthogonal.
    pose proof (orthogonal_pair_frame e) as Hfr.
    destruct (get_python_orthogonal_pair e) as [[[a b]|] e'];
      simpl in Hfr; intros [= <- <- <-]; simpl; split;
      try tauto; split; simpl; tauto.
  - unfold generate_adaptive.
    match goal with
    | |- context [if ?c then incr_done e else e] =>
        set (e0 := if c then incr_done e else e)
    end.
    assert (H0 : initial_strategy e0 = initial_strategy e)
      by (unfold e0; destruct (_ || _); reflexivity).
    clearbody e0.
    pose proof (orthogonal_pair_frame e0) as Hfr.
    destruct (single_reply inp) as [[a b]|].
    + intros [= <- <- <-]. simpl. split; auto.
      split; simpl; intuition discriminate.
    + destruct (get_python_orthogonal_pair e0) as [[[a b]|] e'];
        simpl in Hfr; intros [= <- <- <-]; simpl;
        (split; [intuition congruence|]).
      * destruct (3 <=? _); split; simpl; intuition discriminate.
      * split; simpl; intuition discriminate.
  - unfold generate_adaptive.
    match goal with
    | |- context [if ?c then incr_done e else e] =>
        set (e0 := if c then incr_done e else e)
    end.
    assert (H0 : initial_strategy e0 = initial_strategy e)
      by (unfold e0; destruct (_ || _); reflexivity).
    clearbody e0.
    pose proof (orthogonal_pair_frame e0) as Hfr.
    destruct (single_reply inp) as [[a b]|].
    + intros [= <- <- <-]. simpl. split; auto.
      split; simpl; intuition discriminate.
    + destruct (get_python_orthogonal_pair e0) as [[[a b]|] e'];
        simpl in Hfr; intros [= <- <- <-]; simpl;
        (split; [intuition congruence|]).
      * destruct (3 <=? _); split; simpl; intuition discriminate.
      * split; simpl; intuition discriminate.
Qed.

Lemma orthogonal_pair_strategy e r e' :
  get_python_orthogonal_pair e = (r, e') ->
  initial_strategy e' = initial_strategy e.
Proof.
  intros H. pose proof (orthogonal_pair_frame e) as Hfr.
  rewrite H in Hfr. simpl in Hfr. tauto.
Qed.

(** What the block branch can say about the oracle, and where it leaves
    the strategy when the fetch fails. *)
Lemma generate_block_trace inp e e1 evs g :
  generate_block inp e = (e1, evs, g) ->
  (evs = [] /\ initial_strategy e1 = initial_strategy e)
  \/ (evs = [RequestBlock] /\ initial_strategy e1 = initial_strategy e)
  \/ (evs = [RequestBlock; BlockFetchFailed]
      /\ initial_strategy e1 = PYTHON_ORTHOGONAL_CF).
Proof.
  unfold generate_block.
  assert (Htail : forall e0 evs0,
    (if negb (cache_exhausted e0)
     then
       match py_index (cea_block_cache e0) (cea_block_cache_idx e0) with
       | None => (e0, evs0, GenRaise)
       | Some (profile_a, profile_b) =>
           let e2 := set_cache e0 (cea_block_cache e0) (cea_block_cache_idx e0 + 1) in
           let e3 := incr_done e2 in
           match profile_a with
           | None => (e3, evs0, GenBreak)
           | Some _ => (e3, evs0, GenPair profile_a profile_b true)
           end
       end
     else
       let '(r, e2) := get_python_orthogonal_pair e0 in
       let e3 := incr_done e2 in
       match r with
       | None => (e3, evs0, GenBreak)
       | Some (a, b) => (e3, evs0, GenPair (Some a) (Some b) true)
       end) = (e1, evs, g) ->
    evs = evs0 /\ initial_strategy e1 = initial_strategy e0).
  { intros e0 evs0.
    destruct (negb (cache_exhausted e0)).
    - destruct (py_index _ _) as [[[pa|] pb]|]; intros [= <- <- <-]; auto.
    - destruct (get_python_orthogonal_pair e0) as [r e2] eqn:Hp.
      apply orthogonal_pair_strategy in Hp.
      destruct r as [[a b]|]; intros [= <- <- <-]; auto. }
  destruct (cache_exhausted e).
  - destruct (block_reply inp) as [[|x r_data]|].
    + destruct (get_python_orthogonal_pair e) as [r e'] eqn:Hp.
      intros H. apply Htail in H. destruct H as [-> H].
      right. right. split; auto.
    + intros H. apply Htail in H. destruct H as [-> H].
      right. left. split; auto.
    + destruct (get_python_orthogonal_pair e) as [r e'] eqn:Hp.
      intros H. apply Htail in H. destruct H as [-> H].
      right. right. split; auto.
  - intros H. apply Htail in H. destruct H as [-> H]. left. split; auto.
Qed.

Lemma small_traces_one_way :
  one_way [] /\ one_way [RequestBlock] /\ one_way [RequestBlock; BlockFetchFailed].
Proof.
  split; [|split]; intros t1 t2 E;
    destruct t1 as [|x [|y [|z t3]]]; simpl in E; try discriminate;
    injection E; intros; subst; try discriminate; split; simpl; tauto.
Qed.

Lemma generate_trace inp e e1 evs g :
  generate inp e = (e1, evs, g) ->
  one_way evs
  /\ (In BlockFetchFailed evs -> initial_strategy e1 = PYTHON_ORTHOGONAL_CF).
Proof.
  destruct (strategy_eqb (initial_strategy e) CEA_BLOCK_CF) eqn:Hs.
  - unfold generate.
    destruct (current_phase_strategy e) eqn:Hcps.
    + exfalso. unfold current_phase_strategy in Hcps.
      destruct (initial_strategy e); try discriminate.
      simpl in Hcps. destruct (_ <=? _); discriminate.
    + intros H. apply generate_block_trace in H.
      destruct small_traces_one_way as (H0 & H1 & H2).
      destruct H as [[-> _]|[[-> _]|[-> H]]]; split; auto;
        simpl; intuition discriminate.
    + exfalso. unfold current_phase_strategy in Hcps.
      destruct (initial_strategy e); try discriminate.
      simpl in Hcps. destruct (_ <=? _); discriminate.
    + intros H.
      assert (Hbf : block_free evs).
      { unfold generate_adaptive in H.
        destruct (single_reply inp) as [[a b]|].
        - injection H as <- <- <-. split; simpl; intuition discriminate.
        - destruct (get_python_orthogonal_pair _) as [[[a b]|] e'];
            injection H as <- <- <-.
          + destruct (3 <=? _); split; simpl; intuition discriminate.
          + split; simpl; intuition discriminate. }
      split; [now apply block_free_one_way|]. intros Hin. now destruct Hbf.
  - intros H. apply generate_not_block in H.
    + destruct H as [_ Hbf].
      split; [now apply block_free_one_way|]. intros Hin. now destruct Hbf.
    + intros E. rewrite E in Hs. discriminate.
Qed.

Lemma step_trace inp e e' evs st :
  step inp e = (e', evs, st) ->
  one_way evs
  /\ (In BlockFetchFailed evs -> initial_strategy e' = PYTHON_ORTHOGONAL_CF)
  /\ (initial_strategy e <> CEA_BLOCK_CF ->
      initial_strategy e' = initial_strategy e /\ block_free evs).
Proof.
  unfold step.
  destruct (generate inp _) as [[e1 evs1] g] eqn:Hg.
  pose proof (generate_trace _ _ _ _ _ Hg) as [Hw Hf].
  assert (Hnb : initial_strategy e <> CEA_BLOCK_CF ->
                initial_strategy e1 = initial_strategy e /\ block_free evs1).
  { intros Hne.
    exact (generate_not_block inp (set_question_count e (question_count e + 1))
             e1 evs1 g Hne Hg). }
  assert (Hnil : block_free [NoValidQuestion])
    by (split; simpl; intuition discriminate).
  assert (Hin : forall l, block_free l ->
                  In BlockFetchFailed (evs1 ++ l) -> In BlockFetchFailed evs1).
  { intros l [_ Hl] H. apply in_app_or in H. tauto. }
  destruct g as [| |[pa|] [pb|] cf].
  - intros [= <- <- <-]. auto.
  - intros [= <- <- <-]. auto.
  - destruct (answer inp e1 pa pb cf) as [[e4 evs4] st4] eqn:Ha.
    apply answer_control in Ha. destruct Ha as (Hc & _ & _ & _ & Hev).
    apply answer_events_block_free in Hev.
    assert (Hs4 : initial_strategy e4 = initial_strategy e1)
      by (unfold same_control in Hc; tauto).
    intros [= <- <- <-]. split; [|split].
    + apply one_way_app; auto using block_free_one_way.
    + intros H. rewrite Hs4. eauto.
    + intros Hne. destruct (Hnb Hne). split; [congruence|].
      now apply block_free_app.
  - intros [= <- <- <-]. split; [|split].
    + apply one_way_app; auto using block_free_one_way.
    + eauto.
    + intros Hne. destruct (Hnb Hne). split; auto. now apply block_free_app.
  - intros [= <- <- <-]. split; [|split].
    + apply one_way_app; auto using block_free_one_way.
    + eauto.
    + intros Hne. destruct (Hnb Hne). split; auto. now apply block_free_app.
  - intros [= <- <- <-]. split; [|split].
    + apply one_way_app; auto using block_free_one_way.
    + eauto.
    + intros Hne. destruct (Hnb Hne). split; auto. now apply block_free_app.
Qed.

Lemma run_loop_not_block fuel : forall i env e e' evs st,
  initial_strategy e <> CEA_BLOCK_CF ->
  run_loop fuel i env e = (e', evs, st) ->
  initial_strategy e' = initial_strategy e /\ block_free evs.
Proof.
  induction fuel as [|fuel IH]; intros i env e e' evs st Hne; cbn [run_loop].
  - intros [= <- <- <-]. split; auto. split; simpl; tauto.
  - destruct (step (env i) e) as [[e1 evs1] st1] eqn:Hs.
    apply step_trace in Hs. destruct Hs as (_ & _ & Hs).
    destruct (Hs Hne) as [H1 Hb1].
    destruct st1; try (intros [= <- <- <-]; auto).
    destruct (run_loop fuel (S i) env e1) as [[e2 evs2] st2] eqn:Hr.
    apply IH in Hr; [|congruence]. destruct Hr as [H2 Hb2].
    intros [= <- <- <-]. split; [congruence|]. now apply block_free_app.
Qed.

Lemma run_loop_one_way fuel : forall i env e e' evs st,
  run_loop fuel i env e = (e', evs, st) ->
  one_way evs
  /\ (In BlockFetchFailed evs -> initial_strategy e' = PYTHON_ORTHOGONAL_CF).
Proof.
  induction fuel as [|fuel IH]; intros i env e e' evs st; cbn [run_loop].
  - intros [= <- <- <-]. split; [|simpl; tauto].
    apply block_free_one_way. split; simpl; tauto.
  - destruct (step (env i) e) as [[e1 evs1] st1] eqn:Hs.
    apply step_trace in Hs. destruct Hs as (Hw1 & Hf1 & _).
    destruct st1; try (intros [= <- <- <-]; auto).
    destruct (run_loop fuel (S i) env e1) as [[e2 evs2] st2] eqn:Hr.
    pose proof (IH _ _ _ _ _ _ Hr) as [Hw2 Hf2].
    assert (Hafter : In BlockFetchFailed evs1 ->
                     initial_strategy e2 = PYTHON_ORTHOGONAL_CF /\ block_free evs2).
    { intros Hin. specialize (Hf1 Hin).
      apply run_loop_not_block in Hr; [|congruence].
      destruct Hr as [E Hb]. split; [congruence | exact Hb]. }
    intros [= <- <- <-]. split.
    + apply one_way_app; auto. intros Hin. now apply Hafter.
    + intros Hin. apply in_app_or in Hin. destruct Hin as [Hin|Hin]; auto.
      now apply Hafter.
Qed.

(** C7.  In every session, whatever the oracle and the user answer, once a
    block fetch has failed no block request is issued and no further block
    failure is reported for the rest of the session, and the session ends
    with the orthogonal kickstart strategy: nothing sets the strategy back
    to the block kickstart. *)
Theorem block_failure_downgrade_is_one_way env e e' evs st t1 t2 :
  run_elicitation_session env e = (e', evs, st) ->
  evs = t1 ++ BlockFetchFailed :: t2 ->
  ~ In RequestBlock t2
  /\ ~ In BlockFetchFailed t2
  /\ initial_strategy e' = PYTHON_ORTHOGONAL_CF.
Proof.
  unfold run_elicitation_session. intros Hr E.
  apply run_loop_one_way in Hr. destruct Hr as [Hw Hf].
  destruct (Hw _ _ E) as [H1 H2].
  repeat split; auto.
  apply Hf. rewrite E. apply in_or_app. right. now left.
Qed.

(** Instance: a block kickstart whose first fetch fails; the trace starts
    with the request and its failure. *)
Lemma block_failure_downgrade_is_one_way_witness :
  let r := run_elicitation_session (fun _ => oracle_down)
             (demo_engine CEA_BLOCK_CF 4 (demo_store 0 10)) in
  ~ In RequestBlock (skipn 2 (snd (fst r)))
  /\ ~ In BlockFetchFailed (skipn 2 (snd (fst r)))
  /\ initial_strategy (fst (fst r)) = PYTHON_ORTHOGONAL_CF.
Proof.
  intros r.
  apply (block_failure_downgrade_is_one_way (fun _ => oracle_down)
           (demo_engine CEA_BLOCK_CF 4 (demo_store 0 10))
           (fst (fst r)) (snd (fst r)) (snd r) [RequestBlock]).
  - subst r. now destruct (run_elicitation_session _ _) as [[? ?] ?].
  - vm_compute. reflexivity.
Defined.

(** ** Posterior reconciliation *)

Open Scope Q_scope.

Lemma collect_params_few_levels cl : forall acc,
  (forall c ls, In (c, ls) cl -> (List.length ls < 2)%nat) ->
  fold_left
    (fun (acc : list string * Dict.t Z * Dict.t string)
         (cv : string * list string) =>
       let '(param_names, level_map, ref_levels) := acc in
       let '(crit, levels) := cv in
       match levels with
       | base_level :: ((_ :: _) as rest) =>
           fold_left
             (fun (acc' : list string * Dict.t Z * Dict.t string) level =>
                let '(pn, lm, rl) := acc' in
                let param_name := param_name_of crit level in
                (pn ++ [param_name],
                 Dict.set param_name (Z.of_nat (List.length pn)) lm, rl))
             rest
             (param_names, level_map, Dict.set crit base_level ref_levels)
       | _ => acc
       end) cl acc = acc.
Proof.
  induction cl as [|[c ls] cl IH]; intros [[pn lm] rl] H; cbn [fold_left]; auto.
  assert (Hls : (List.length ls < 2)%nat) by (apply (H c); now left).
  destruct ls as [|b [|b' ls]]; try (simpl in Hls; lia);
    apply IH; intros c' ls' Hin; apply (H c'); now right.
Qed.

Lemma param_names_few_levels cl :
  (forall c ls, In (c, ls) cl -> (List.length ls < 2)%nat) ->
  param_names_of cl = [].
Proof.
  intros H. unfold param_names_of, collect_params, Dict.items.
  now rewrite collect_params_few_levels.
Qed.

(** C8 (as amended).  The reconciliation is skipped, and the long-term
    profile (the object in memory and the file) is left exactly as it was,
    when the inference collaborator is not installed, when the criteria
    definitions give no parameter (every criterion has fewer than two
    levels), and when sampling fails. *)
Theorem reconciliation_skip_leaves_profile inf up hist cl :
  pymc_installed inf = false
  \/ (forall c ls, In (c, ls) cl -> (List.length ls < 2)%nat)
  \/ sample_summary inf (build_request up hist cl) = None ->
  snd (run_mcmc_model_in_background inf up hist cl) = up
  /\ fst (run_mcmc_model_in_background inf up hist cl) <> ProfileUpdated.
Proof.
  unfold run_mcmc_model_in_background.
  intros [H|[H|H]].
  - rewrite H. simpl. split; [reflexivity | discriminate].
  - rewrite (param_names_few_levels cl H).
    destruct (negb _); simpl; split; auto; discriminate.
  - rewrite H. destruct (negb _); [simpl; split; auto; discriminate|].
    destruct (param_names_of cl); simpl; split; auto; discriminate.
Qed.

(** Instance: the sampler raises. *)
Lemma reconciliation_skip_leaves_profile_witness :
  snd (run_mcmc_model_in_background sampler_down stored_profile
         reference_history demo_criteria) = stored_profile
  /\ fst (run_mcmc_model_in_background sampler_down stored_profile
            reference_history demo_criteria) <> ProfileUpdated.
Proof.
  apply reconciliation_skip_leaves_profile.
  right. right. reflexivity.
Defined.

(** C8 as stated fails in its first part: a history whose answers all lie
    on the reference levels gives an all-zero design matrix, yet with the
    sampler available the reconciliation runs and rewrites the profile, in
    memory and on disk. *)
Lemma reference_history_is_still_reconciled :
  let r := run_mcmc_model_in_background sampler_up stored_profile
             reference_history demo_criteria in
  Forall (fun row => row = (repeat false 6, repeat false 6))
    (design_X (build_request stored_profile reference_history demo_criteria))
  /\ fst r = ProfileUpdated
  /\ snd r <> stored_profile
  /\ UserProfileHBM.profile_file (snd r)
     <> UserProfileHBM.profile_file stored_profile
  /\ Dict.keys (UserProfileHBM.data (snd r)) = ["Price"; "Speed"; "Support"]%string.
Proof.
  cbv zeta. split; [|split; [|split; [|split]]].
  - vm_compute. repeat constructor.
  - vm_compute. reflexivity.
  - intros H. apply (f_equal UserProfileHBM.data) in H.
    apply (f_equal (@List.length _)) in H. vm_compute in H. discriminate.
  - intros H. vm_compute in H. discriminate.
  - vm_compute. reflexivity.
Qed.

(** ** Parameter keys and criterion names with an underscore *)

Lemma split_first_append sep crit a b rest :
  split_first sep crit = Some (a, b) ->
  split_first sep (crit ++ rest)%string = Some (a, (b ++ rest)%string).
Proof.
  revert a b. induction crit as [|c crit IH]; intros a b; simpl; [discriminate|].
  destruct (Ascii.eqb c sep).
  - intros [= <- <-]. reflexivity.
  - destruct (split_first sep crit) as [[a' b']|]; [|discriminate].
    intros [= <- <-]. now rewrite (IH a' b' eq_refl).
Qed.

(** The key of a criterion whose name contains an underscore is split
    inside the criterion name. *)
Lemma param_name_split_inside_criterion crit level a b :
  split_first underscore crit = Some (a, b) ->
  split_first underscore (param_name_of crit level)
  = Some (a, (b ++ String underscore level)%string).
Proof. intros H. unfold param_name_of. now apply split_first_append. Qed.

(** C10.  With a criterion named "Build_Quality", the key of its level
    "mid" is "Build_Quality_mid", which splits into ("Build",
    "Quality_mid"): the prior of that parameter is read from the profile
    entry of ("Build", "Quality_mid") and not from ("Build_Quality", "mid"),
    and the posterior is written under "Build", a name that is not among
    the session's criteria, while nothing is written under
    "Build_Quality". *)
Theorem underscore_criterion_is_reconciled_under_another_name :
  let hist := [([("Build_Quality", "mid"); ("Price", "cheap"); ("Speed", "slow")],
                [("Build_Quality", "low"); ("Price", "fair"); ("Speed", "slow")],
                0%Z)] in
  In "Build_Quality"%string (Dict.keys underscore_criteria)
  /\ param_names_of underscore_criteria
     = ["Build_Quality_mid"; "Build_Quality_high"; "Price_fair"; "Price_dear";
        "Speed_medium"; "Speed_fast"]%string
  /\ split_first underscore (param_name_of "Build_Quality" "mid")
     = Some ("Build", "Quality_mid")%string
  /\ nth 0 (prior_means (build_request split_profile hist underscore_criteria)) 0
     = 1.5
  /\ nth 0 (prior_sds_squared (build_request split_profile hist underscore_criteria)) 0
     = 0.2
  /\ (let after := snd (run_mcmc_model_in_background sampler_up empty_profile
                          hist underscore_criteria) in
      Dict.keys (UserProfileHBM.data after) = ["Build"; "Price"; "Speed"]%string
      /\ (exists tbl,
            Dict.get (UserProfileHBM.data after) "Build" = Some tbl
            /\ Dict.keys tbl = ["Quality_mid"; "Quality_high"]%string)
      /\ Dict.get (UserProfileHBM.data after) "Build_Quality" = None
      /\ Dict.get (UserProfileHBM.data empty_profile) "Build" = None)
  /\ ~ In "Build"%string (Dict.keys underscore_criteria).
Proof.
  cbv zeta. repeat split; try (vm_compute; reflexivity).
  - vm_compute. auto.
  - eexists. split; vm_compute; reflexivity.
  - vm_compute. intuition discriminate.
Qed.

(** ** Sessions over an empty belief store *)

Lemma has_belief_empty u crit lvl : empty_store u -> has_belief u crit lvl = false.
Proof.
  intros H. unfold has_belief.
  destruct (Dict.get u crit) as [tbl|] eqn:E; auto.
  apply get_In in E. apply H in E. simpl in E. now subst tbl.
Qed.

Lemma simplified_update_empty u chosen unchosen :
  empty_store u -> update_utilities_simplified u chosen unchosen = u.
Proof.
  intros H. unfold update_utilities_simplified, Dict.items.
  assert (H1 : fold_left update_chosen_item chosen u = u).
  { induction chosen as [|[c l] chosen IH]; cbn [fold_left]; auto.
    unfold update_chosen_item at 2. now rewrite has_belief_empty. }
  rewrite H1. generalize chosen at 1. intros ch.
  induction unchosen as [|[c l] unchosen IH]; cbn [fold_left]; auto.
  unfold update_unchosen_item at 2. rewrite has_belief_empty by exact H.
  now destruct (_ && _).
Qed.

Lemma counterfactual_update_empty u crit original improved switched :
  empty_store u ->
  update_utilities_from_counterfactual u crit original improved switched = u.
Proof.
  intros H. unfold update_utilities_from_counterfactual.
  rewrite !has_belief_empty by exact H. simpl.
  now rewrite orb_true_r.
Qed.

Lemma orthogonal_pair_utilities e r e' :
  get_python_orthogonal_pair e = (r, e') -> utilities_of e' = utilities_of e.
Proof.
  unfold get_python_orthogonal_pair.
  destruct (negb _); [now intros [= <- <-]|].
  destruct (fill_profiles _ _ _ _ _ _ _) as [[pa pb]|]; now intros [= <- <-].
Qed.

(** Question generation reads the beliefs and never reports convergence. *)
Lemma generate_utilities inp e e1 evs g :
  generate inp e = (e1, evs, g) ->
  utilities_of e1 = utilities_of e /\ ~ In ConvergedMessage evs.
Proof.
  unfold generate. destruct (current_phase_strategy e) eqn:Hcps.
  - unfold generate_orthogonal.
    destruct (get_python_orthogonal_pair e) as [r e'] eqn:Hp.
    apply orthogonal_pair_utilities in Hp.
    destruct r as [[a b]|]; intros [= <- <- <-]; simpl; auto.
  - intros H. pose proof (generate_block_trace _ _ _ _ _ H) as Ht.
    split.
    + revert H. unfold generate_block.
      set (first_half := if cache_exhausted e then _ else _).
      assert (Hfh : utilities_of (fst first_half) = utilities_of e).
      { unfold first_half. destruct (cache_exhausted e); auto.
        destruct (block_reply inp) as [[|x r_data]|]; auto;
          destruct (get_python_orthogonal_pair e) as [r e'] eqn:Hp;
          apply orthogonal_pair_utilities in Hp; simpl; exact Hp. }
      destruct first_half as [e0 evs0]. simpl in Hfh.
      destruct (negb (cache_exhausted e0)).
      * destruct (py_index _ _) as [[[pa|] pb]|]; intros [= <- <- <-]; auto.
      * destruct (get_python_orthogonal_pair e0) as [r e2] eqn:Hp.
        apply orthogonal_pair_utilities in Hp.
        destruct r as [[a b]|]; intros [= <- <- <-]; simpl; congruence.
    + destruct Ht as [[-> _]|[[-> _]|[-> _]]]; simpl; intuition discriminate.
  - unfold generate_adaptive.
    match goal with
    | |- context [if ?c then incr_done e else e] =>
        set (e0 := if c then incr_done e else e)
    end.
    assert (H0 : utilities_of e0 = utilities_of e)
      by (unfold e0; destruct (_ || _); reflexivity).
    clearbody e0.
    destruct (single_reply inp) as [[a b]|].
    + intros [= <- <- <-]. simpl. split; auto. intuition discriminate.
    + destruct (get_python_orthogonal_pair e0) as [r e'] eqn:Hp.
      apply orthogonal_pair_utilities in Hp.
      destruct r as [[a b]|]; intros [= <- <- <-]; simpl;
        (split; [congruence|]); try destruct (3 <=? _); simpl;
        intuition discriminate.
  - unfold generate_adaptive.
    match goal with
    | |- context [if ?c then incr_done e else e] =>
        set (e0 := if c then incr_done e else e)
    end.
    assert (H0 : utilities_of e0 = utilities_of e)
      by (unfold e0; destruct (_ || _); reflexivity).
    clearbody e0.
    destruct (single_reply inp) as [[a b]|].
    + intros [= <- <- <-]. simpl. split; auto. intuition discriminate.
    + destruct (get_python_orthogonal_pair e0) as [r e'] eqn:Hp.
      apply orthogonal_pair_utilities in Hp.
      destruct r as [[a b]|]; intros [= <- <- <-]; simpl;
        (split; [congruence|]); try destruct (3 <=? _); simpl;
        intuition discriminate.
Qed.

Lemma empty_store_check u : empty_store u -> check_convergence u = false.
Proof.
  intros H. unfold check_convergence.
  now rewrite all_level_data_known, known_beliefs_empty.
Qed.

Lemma answer_empty inp e a b cf e' evs st :
  empty_store (utilities_of e) ->
  answer inp e a b cf = (e', evs, st) ->
  utilities_of e' = utilities_of e /\ ~ In ConvergedMessage evs /\ st = Continue.
Proof.
  intros He. unfold answer.
  cbn [utilities_of set_history].
  rewrite simplified_update_empty by exact He.
  set (e3 := set_utilities _ _).
  assert (H3 : utilities_of e3 = utilities_of e) by reflexivity.
  clearbody e3.
  destruct cf.
  - unfold ask_and_process_counterfactual.
    pose proof (counterfactual_plan_sound e3
                  (if main_choice_is_a inp then a else b)
                  (if main_choice_is_a inp then b else a)) as Hs.
    destruct (counterfactual_plan e3 _ _); [| destruct Hs |].
    + rewrite empty_store_check by (rewrite H3; exact He).
      intros [= <- <- <-]. simpl. intuition discriminate.
    + rewrite counterfactual_update_empty by (rewrite H3; exact He).
      cbn [utilities_of set_utilities].
      rewrite empty_store_check by (rewrite H3; exact He).
      intros [= <- <- <-]. simpl. intuition discriminate.
  - rewrite empty_store_check by (rewrite H3; exact He).
    intros [= <- <- <-]. simpl. intuition discriminate.
Qed.

Lemma step_empty inp e e' evs st :
  empty_store (utilities_of e) ->
  step inp e = (e', evs, st) ->
  utilities_of e' = utilities_of e /\ ~ In ConvergedMessage evs.
Proof.
  intros He. unfold step.
  destruct (generate inp _) as [[e1 evs1] g] eqn:Hg.
  apply generate_utilities in Hg. cbn [utilities_of set_question_count] in Hg.
  destruct Hg as [Hu Hn].
  assert (Hnv : ~ In ConvergedMessage (evs1 ++ [NoValidQuestion])).
  { intros H. apply in_app_or in H. simpl in H. intuition discriminate. }
  destruct g as [| |[pa|] [pb|] cf]; try (intros [= <- <- <-]; auto).
  destruct (answer inp e1 pa pb cf) as [[e4 evs4] st4] eqn:Ha.
  apply answer_empty in Ha; [|rewrite Hu; exact He].
  destruct Ha as (Hu4 & Hn4 & _).
  intros [= <- <- <-]. split; [congruence|].
  intros H. apply in_app_or in H. tauto.
Qed.

Lemma run_loop_empty fuel : forall i env e e' evs st,
  empty_store (utilities_of e) ->
  run_loop fuel i env e = (e', evs, st) ->
  ~ In ConvergedMessage evs.
Proof.
  induction fuel as [|fuel IH]; intros i env e e' evs st He; cbn [run_loop].
  - intros [= <- <- <-]. simpl. tauto.
  - destruct (step (env i) e) as [[e1 evs1] st1] eqn:Hs.
    apply step_empty in Hs; [|exact He]. destruct Hs as [Hu Hn].
    destruct st1; try (intros [= <- <- <-]; auto).
    destruct (run_loop fuel (S i) env e1) as [[e2 evs2] st2] eqn:Hr.
    apply IH in Hr; [|rewrite Hu; exact He].
    intros [= <- <- <-]. intros H. apply in_app_or in H. tauto.
Qed.

(** C9.  A store without any belief (every criterion has an empty level
    table) is never reported as converged, and a session over such a store
    never ends through the convergence check, whatever the oracle and the
    user answer. *)
Theorem empty_store_never_converges u :
  (forall ct, In ct u -> snd ct = []) ->
  check_convergence u = false
  /\ forall env e,
       utilities_of e = u ->
       ~ In ConvergedMessage (snd (fst (run_elicitation_session env e))).
Proof.
  intros H. split; [now apply empty_store_check|].
  intros env e Hu. unfold run_elicitation_session.
  destruct (run_loop max_questions 0 env e) as [[e' evs] st] eqn:Hr.
  simpl. eapply run_loop_empty; eauto. rewrite Hu. exact H.
Qed.

(** Instance: three criteria, no level known. *)
Lemma empty_store_never_converges_witness :
  let u := [("Price", []); ("Speed", []); ("Support", [])] in
  check_convergence u = false
  /\ forall env e,
       utilities_of e = u ->
       ~ In ConvergedMessage (snd (fst (run_elicitation_session env e))).
Proof.
  apply empty_store_never_converges.
  simpl. intros ct [<-|[<-|[<-|[]]]]; reflexivity.
Defined.

(** * Further properties *)

(** ** Level ordering *)

Open Scope Z_scope.

Section SortBy.
Context {A : Type} (key : A -> Z).

Lemma insert_by_perm x l : Permutation (insert_by key x l) (x :: l).
Proof.
  induction l as [|y l IH]; simpl; auto.
  destruct (key y <? key x); auto.
  rewrite IH. apply perm_swap.
Qed.

Lemma sort_by_perm l : Permutation (sort_by key l) l.
Proof.
  induction l as [|x l IH]; simpl; auto.
  rewrite insert_by_perm. now constructor.
Qed.

Lemma insert_by_sorted x l :
  Sorted (fun a b => key a <= key b) l ->
  Sorted (fun a b => key a <= key b) (insert_by key x l).
Proof.
  induction l as [|y l IH]; intros Hs; simpl.
  - repeat constructor.
  - destruct (key y <? key x) eqn:E.
    + inversion Hs as [|? ? Hs' Hhd]; subst.
      constructor; [now apply IH|].
      apply Z.ltb_lt in E.
      destruct l as [|z l]; simpl.
      * constructor. lia.
      * destruct (key z <? key x); constructor; try lia.
        now inversion Hhd.
    + apply Z.ltb_ge in E. constructor; auto.
Qed.

Lemma sort_by_sorted l : Sorted (fun a b => key a <= key b) (sort_by key l).
Proof.
  induction l as [|x l IH]; simpl; [constructor|].
  now apply insert_by_sorted.
Qed.

Lemma sort_by_fixpoint l :
  Sorted (fun a b => key a <= key b) l -> sort_by key l = l.
Proof.
  induction l as [|x l IH]; intros Hs; simpl; auto.
  inversion Hs as [|? ? Hs' Hhd]; subst.
  rewrite IH by assumption.
  destruct l as [|y l]; simpl; auto.
  inversion Hhd; subst.
  destruct (key y <? key x) eqn:E; auto.
  apply Z.ltb_lt in E. lia.
Qed.

(** Stability: the elements of one key keep their order. *)
Lemma insert_by_stable k x l :
  filter (fun a => key a =? k) (insert_by key x l)
  = filter (fun a => key a =? k) (x :: l).
Proof.
  induction l as [|y l IH]; auto.
  cbn [insert_by]. destruct (key y <? key x) eqn:E; auto.
  apply Z.ltb_lt in E.
  cbn [filter] in *. rewrite IH.
  destruct (key x =? k) eqn:Ex; destruct (key y =? k) eqn:Ey; auto.
  apply Z.eqb_eq in Ex, Ey. lia.
Qed.

Lemma sort_by_stable k l :
  filter (fun a => key a =? k) (sort_by key l) = filter (fun a => key a =? k) l.
Proof.
  induction l as [|x l IH]; auto.
  cbn [sort_by]. rewrite insert_by_stable. cbn [filter]. now rewrite IH.
Qed.
End SortBy.

Lemma insert_by_map {A B} (f : A -> B) (keyA : A -> Z) (keyB : B -> Z) x l :
  (forall a, keyB (f a) = keyA a) ->
  map f (insert_by keyA x l) = insert_by keyB (f x) (map f l).
Proof.
  intros H. induction l as [|y l IH]; simpl; auto.
  rewrite !H. destruct (keyA y <? keyA x); simpl; now rewrite ?IH.
Qed.

Lemma sort_by_map {A B} (f : A -> B) (keyA : A -> Z) (keyB : B -> Z) l :
  (forall a, keyB (f a) = keyA a) ->
  map f (sort_by keyA l) = sort_by keyB (map f l).
Proof.
  intros H. induction l as [|x l IH]; simpl; auto.
  now rewrite (insert_by_map f keyA keyB), IH.
Qed.

Lemma insert_by_ext {A} (key1 key2 : A -> Z) x l :
  (forall a, In a (x :: l) -> key1 a = key2 a) ->
  insert_by key1 x l = insert_by key2 x l.
Proof.
  induction l as [|y l IH]; intros H; simpl; auto.
  rewrite (H x), (H y) by (simpl; auto).
  destruct (key2 y <? key2 x); auto.
  rewrite IH; auto. intros a [<-|Ha]; apply H; simpl; auto.
Qed.

Lemma sort_by_ext {A} (key1 key2 : A -> Z) l :
  (forall a, In a l -> key1 a = key2 a) ->
  sort_by key1 l = sort_by key2 l.
Proof.
  induction l as [|x l IH]; intros H; simpl; auto.
  rewrite IH by (intros a Ha; apply H; now right).
  apply insert_by_ext. intros a [<-|Ha]; apply H; [now left|right].
  eapply Permutation_in; [apply sort_by_perm | exact Ha].
Qed.

Lemma scored_levels_levels i l :
  map (fun t : Z * Z * string => snd t) (scored_levels i l) = l.
Proof. revert i. induction l as [|x l IH]; intros i; simpl; now rewrite ?IH. Qed.

Lemma scored_levels_score i l t :
  In t (scored_levels i l) -> fst (fst t) = level_score (snd t).
Proof.
  revert i. induction l as [|x l IH]; intros i; simpl; [tauto|].
  intros [<-|H]; eauto.
Qed.

(** Sorting the scored triples and dropping score and index is sorting the
    levels by their score. *)
Lemma normalize_is_sort_by_score l :
  List.length l = 3%nat -> normalize_level_ordering l = sort_by level_score l.
Proof.
  intros H. unfold normalize_level_ordering. rewrite H. simpl.
  rewrite (sort_by_ext _ (fun t : Z * Z * string => level_score (snd t)))
    by apply scored_levels_score.
  rewrite (sort_by_map (fun t : Z * Z * string => snd t) _ level_score)
    by reflexivity.
  now rewrite scored_levels_levels.
Qed.

Lemma normalize_other_lengths l :
  List.length l <> 3%nat -> normalize_level_ordering l = l.
Proof.
  intros H. unfold normalize_level_ordering.
  destruct (Nat.eqb (List.length l) 3) eqn:E; auto.
  apply Nat.eqb_eq in E. contradiction.
Qed.

(** X1.  [normalize_level_ordering] only reorders: its result is a
    permutation of the list it is given (so no level is lost, duplicated or
    renamed), and a list that does not have exactly three levels, the empty
    list included, comes back as it is. *)
Theorem normalize_level_ordering_permutes l :
  Permutation (normalize_level_ordering l) l
  /\ List.length (normalize_level_ordering l) = List.length l
  /\ (List.length l <> 3%nat -> normalize_level_ordering l = l).
Proof.
  assert (Hp : Permutation (normalize_level_ordering l) l).
  { destruct (Nat.eq_dec (List.length l) 3) as [H|H].
    - rewrite normalize_is_sort_by_score by exact H. apply sort_by_perm.
    - now rewrite normalize_other_lengths. }
  split; [exact Hp|]. split; [now apply Permutation_length|].
  apply normalize_other_lengths.
Qed.

(** X2.  For three levels the result is ordered by the indicator score,
    lowest first, and levels of equal score keep the order they had. *)
Theorem normalize_level_ordering_sorts_stably l :
  List.length l = 3%nat ->
  Sorted (fun a b => level_score a <= level_score b) (normalize_level_ordering l)
  /\ forall k,
       filter (fun a => level_score a =? k) (normalize_level_ordering l)
       = filter (fun a => level_score a =? k) l.
Proof.
  intros H. rewrite normalize_is_sort_by_score by exact H. split.
  - apply sort_by_sorted.
  - intros k. apply sort_by_stable.
Qed.

(** Instance: "Premium support" (+1), "Basic support" (-1), "Standard" (0). *)
Lemma normalize_level_ordering_sorts_stably_witness :
  let l := ["Premium support"; "Basic support"; "Standard"]%string in
  Sorted (fun a b => level_score a <= level_score b) (normalize_level_ordering l)
  /\ forall k,
       filter (fun a => level_score a =? k) (normalize_level_ordering l)
       = filter (fun a => level_score a =? k) l.
Proof.
  apply normalize_level_ordering_sorts_stably. reflexivity.
Defined.

(** X3.  Normalising twice is normalising once. *)
Theorem normalize_level_ordering_idempotent l :
  normalize_level_ordering (normalize_level_ordering l)
  = normalize_level_ordering l.
Proof.
  destruct (Nat.eq_dec (List.length l) 3) as [H|H].
  - assert (H' : List.length (normalize_level_ordering l) = 3%nat).
    { rewrite <- H. apply Permutation_length.
      rewrite normalize_is_sort_by_score by exact H. apply sort_by_perm. }
    rewrite (normalize_is_sort_by_score _ H').
    rewrite normalize_is_sort_by_score by exact H.
    apply sort_by_fixpoint. apply sort_by_sorted.
  - now rewrite !normalize_other_lengths by (rewrite ?normalize_other_lengths; auto).
Qed.

(** ** Long-term profile: write and read back *)

Open Scope Q_scope.

Lemma split_first_join sep s a b :
  split_first sep s = Some (a, b) -> s = (a ++ String sep b)%string.
Proof.
  revert a b. induction s as [|c s IH]; intros a b; simpl; [discriminate|].
  destruct (Ascii.eqb c sep) eqn:E.
  - apply Ascii.eqb_eq in E. subst c. now intros [= <- <-].
  - destruct (split_first sep s) as [[a' b']|]; [|discriminate].
    intros [= <- <-]. simpl. now rewrite (IH a' b' eq_refl).
Qed.

Lemma split_first_no_sep sep crit rest :
  split_first sep crit = None ->
  split_first sep (crit ++ String sep rest)%string = Some (crit, rest).
Proof.
  induction crit as [|c crit IH]; simpl.
  - now rewrite Ascii.eqb_refl.
  - destruct (Ascii.eqb c sep); [discriminate|].
    destruct (split_first sep crit) as [[a b]|]; [discriminate|].
    intros _. now rewrite IH.
Qed.

Lemma get_level_prior_entry p criterion level :
  UserProfileHBM.get_level_prior p criterion level
  = match stored_entry (UserProfileHBM.data p) criterion level with
    | Some s =>
        (match UserProfileHBM.mean_utility s with Some m => m | None => 0.0 end,
         match UserProfileHBM.variance s with Some v => v | None => 10.0 end)
    | None => (0.0, 10.0)
    end.
Proof.
  unfold UserProfileHBM.get_level_prior, stored_entry.
  destruct (Dict.get (UserProfileHBM.data p) criterion) as [[|x tbl]|]; auto.
Qed.

Lemma update_one_same d k m sd criterion level :
  split_first underscore k = Some (criterion, level) ->
  stored_entry (UserProfileHBM.update_one d (k, (m, sd))) criterion level
  = Some {| UserProfileHBM.mean_utility := Some m;
            UserProfileHBM.variance := Some (sd ^ 2) |}.
Proof.
  intros H. unfold UserProfileHBM.update_one, stored_entry. rewrite H.
  unfold Dict.mem.
  destruct (Dict.get d criterion) as [tbl|] eqn:E.
  - rewrite E. now rewrite !get_set_same.
  - rewrite get_set_same. now rewrite !get_set_same.
Qed.

Lemma update_one_other d k v criterion level :
  split_first underscore k <> Some (criterion, level) ->
  stored_entry (UserProfileHBM.update_one d (k, v)) criterion level
  = stored_entry d criterion level.
Proof.
  intros H. unfold UserProfileHBM.update_one, stored_entry.
  destruct v as [m sd].
  destruct (split_first underscore k) as [[c l]|]; auto.
  unfold Dict.mem.
  destruct (string_dec c criterion) as [->|Hc].
  - destruct (Dict.get d criterion) as [tbl|] eqn:E.
    + rewrite E, get_set_same. apply get_set_other. congruence.
    + rewrite get_set_same, get_set_same. simpl.
      destruct (String.eqb l level) eqn:El; auto.
      apply String.eqb_eq in El. congruence.
  - destruct (Dict.get d c) as [tbl|] eqn:E.
    + rewrite E. now rewrite get_set_other.
    + rewrite get_set_same. now rewrite !get_set_other.
Qed.

Lemma fold_update_other items : forall d criterion level,
  (forall k v, In (k, v) items ->
     split_first underscore k <> Some (criterion, level)) ->
  stored_entry (fold_left UserProfileHBM.update_one items d) criterion level
  = stored_entry d criterion level.
Proof.
  induction items as [|[k v] items IH]; intros d c l H; cbn [fold_left]; auto.
  rewrite IH by (intros k' v' Hin; apply (H k' v'); now right).
  apply update_one_other. apply (H k v). now left.
Qed.

Lemma fold_update_same items : forall d k m sd criterion level,
  NoDup (Dict.keys items) ->
  In (k, (m, sd)) items ->
  split_first underscore k = Some (criterion, level) ->
  stored_entry (fold_left UserProfileHBM.update_one items d) criterion level
  = Some {| UserProfileHBM.mean_utility := Some m;
            UserProfileHBM.variance := Some (sd ^ 2) |}.
Proof.
  induction items as [|[k0 v0] items IH]; intros d k m sd c l Hnd Hin Hs;
    cbn [fold_left]; [destruct Hin|].
  inversion Hnd as [|? ? Hnotin Hnd']; subst.
  destruct Hin as [E|Hin].
  - injection E as -> ->.
    rewrite fold_update_other.
    + now apply update_one_same.
    + intros k' v' Hin' Hs'. apply Hnotin.
      apply split_first_join in Hs, Hs'. subst k k'.
      unfold Dict.keys. change (c ++ String underscore l)%string
        with (fst ((c ++ String underscore l)%string, v')).
      now apply in_map.
  - eapply IH; eauto.
Qed.

(** X4.  What the reconciler writes for a level is what the profile gives
    back: for a criterion whose name has no underscore, after
    [update_profile_with_posteriors] the prior of (criterion, level) is the
    posterior mean and the square of the posterior standard deviation, and
    the profile file holds the data in memory. *)
Theorem posterior_is_read_back p posteriors criterion level m sd :
  NoDup (Dict.keys posteriors) ->
  Dict.get posteriors (param_name_of criterion level) = Some (m, sd) ->
  split_first underscore criterion = None ->
  let p' := UserProfileHBM.update_profile_with_posteriors p posteriors in
  UserProfileHBM.get_level_prior p' criterion level = (m, sd ^ 2)
  /\ UserProfileHBM.profile_file p' = Some (UserProfileHBM.data p').
Proof.
  intros Hnd Hget Hs p'. split; [|reflexivity].
  rewrite get_level_prior_entry. subst p'.
  unfold UserProfileHBM.update_profile_with_posteriors, UserProfileHBM.save.
  cbn [UserProfileHBM.data]. unfold Dict.items.
  rewrite (fold_update_same posteriors _ (param_name_of criterion level) m sd
             criterion level); auto.
  - now apply get_In.
  - unfold param_name_of. now apply split_first_no_sep.
Qed.

(** Instance: the posterior of ("Price", "mid") written into the stored
    profile. *)
Lemma posterior_is_read_back_witness :
  let p' := UserProfileHBM.update_profile_with_posteriors stored_profile
              [("Price_mid", (0.7, 0.5)); ("Speed_fast", (-0.2, 1))] in
  UserProfileHBM.get_level_prior p' "Price" "mid" = (0.7, 0.5 ^ 2)
  /\ UserProfileHBM.profile_file p' = Some (UserProfileHBM.data p').
Proof.
  apply posterior_is_read_back.
  - repeat constructor; simpl; intuition discriminate.
  - reflexivity.
  - reflexivity.
Defined.

(** X5.  The write-back touches nothing else: a (criterion, level) pair
    that no posterior key splits into keeps its stored entry, and so its
    prior. *)
Theorem posterior_update_keeps_other_entries p posteriors criterion level :
  (forall k, In k (Dict.keys posteriors) ->
     split_first underscore k <> Some (criterion, level)) ->
  let p' := UserProfileHBM.update_profile_with_posteriors p posteriors in
  stored_entry (UserProfileHBM.data p') criterion level
  = stored_entry (UserProfileHBM.data p) criterion level
  /\ UserProfileHBM.get_level_prior p' criterion level
     = UserProfileHBM.get_level_prior p criterion level.
Proof.
  intros H p'.
  assert (E : stored_entry (UserProfileHBM.data p') criterion level
              = stored_entry (UserProfileHBM.data p) criterion level).
  { subst p'.
    unfold UserProfileHBM.update_profile_with_posteriors, UserProfileHBM.save.
    cbn [UserProfileHBM.data]. unfold Dict.items.
    apply fold_update_other. intros k v Hin. apply H.
    unfold Dict.keys. change k with (fst (k, v)). now apply in_map. }
  split; [exact E|]. now rewrite !get_level_prior_entry, E.
Qed.

(** Instance: the stored entry of ("Price", "mid") survives posteriors for
    other levels. *)
Lemma posterior_update_keeps_other_entries_witness :
  let p' := UserProfileHBM.update_profile_with_posteriors stored_profile
              [("Price_high", (0.7, 0.5)); ("Speed_fast", (-0.2, 1))] in
  stored_entry (UserProfileHBM.data p') "Price" "mid"
  = stored_entry (UserProfileHBM.data stored_profile) "Price" "mid"
  /\ UserProfileHBM.get_level_prior p' "Price" "mid"
     = UserProfileHBM.get_level_prior stored_profile "Price" "mid".
Proof.
  apply posterior_update_keeps_other_entries.
  simpl. intros k [<-|[<-|[]]]; vm_compute; discriminate.
Defined.

(** ** Dictionaries built in a loop *)

Section DictBuild.
Context {V : Type}.

Lemma set_fresh (d : Dict.t V) k v :
  ~ In k (Dict.keys d) -> Dict.set k v d = d ++ [(k, v)].
Proof.
  induction d as [|[k' v'] d IH]; intros H; simpl; auto.
  destruct (String.eqb k' k) eqn:E.
  - apply String.eqb_eq in E. subst. exfalso. apply H. now left.
  - rewrite IH; auto. intros Hin. apply H. now right.
Qed.

Lemma keys_set_present (d : Dict.t V) k v :
  In k (Dict.keys d) -> Dict.keys (Dict.set k v d) = Dict.keys d.
Proof.
  induction d as [|[k' v'] d IH]; intros H; simpl; [destruct H|].
  destruct (String.eqb k' k) eqn:E; simpl; auto.
  rewrite IH; auto. destruct H as [H|H]; auto.
  simpl in H. subst. now rewrite String.eqb_refl in E.
Qed.

Lemma get_some_key (d : Dict.t V) k v :
  Dict.get d k = Some v -> In k (Dict.keys d).
Proof.
  intros H. apply get_In in H. unfold Dict.keys.
  change k with (fst (k, v)). now apply in_map.
Qed.
End DictBuild.

(** A loop [for x in l: d[key(x)] = value(x)] over distinct keys appends
    one item per element. *)
Lemma fold_set_distinct {X V} (key : X -> string) (value : X -> V) l :
  forall (d : Dict.t V),
  NoDup (Dict.keys d ++ map key l) ->
  fold_left (fun d x => Dict.set (key x) (value x) d) l d
  = d ++ map (fun x => (key x, value x)) l.
Proof.
  induction l as [|x l IH]; intros d Hnd; simpl.
  - now rewrite app_nil_r.
  - assert (Hx : ~ In (key x) (Dict.keys d)).
    { intros Hin. apply NoDup_remove_2 in Hnd. apply Hnd.
      apply in_or_app. now left. }
    rewrite set_fresh by exact Hx.
    rewrite IH.
    + now rewrite <- app_assoc.
    + unfold Dict.keys in *. rewrite map_app. simpl.
      rewrite <- app_assoc. simpl.
      apply NoDup_remove_1 in Hnd as Hnd1.
      apply NoDup_remove_2 in Hnd as Hnd2.
      clear - Hnd1 Hnd2.
      apply Permutation_NoDup with (l := key x :: map fst d ++ map key l).
      * apply Permutation_middle.
      * constructor; auto.
Qed.

Lemma fold_left_pointwise {A B} (f g : A -> B -> A) l a :
  (forall a b, f a b = g a b) -> fold_left f l a = fold_left g l a.
Proof.
  intros H. revert a. induction l as [|b l IH]; intros a; simpl; auto.
  now rewrite H, IH.
Qed.

(** ** Engine construction *)

Lemma profile_levels_table up crit levels :
  NoDup levels ->
  fold_left
    (fun (tbl : Dict.t belief) level =>
       let '(m, v) := UserProfileHBM.get_level_prior up crit level in
       Dict.set level {| mean := m; variance := v |} tbl)
    levels []
  = map (fun level => (level, prior_belief up crit level)) levels.
Proof.
  intros Hnd.
  rewrite (fold_left_pointwise _
             (fun tbl level => Dict.set level (prior_belief up crit level) tbl)).
  - rewrite (fold_set_distinct (fun l : string => l) (prior_belief up crit));
      simpl; auto.
    now rewrite map_id.
  - intros tbl level. unfold prior_belief.
    now destruct (UserProfileHBM.get_level_prior up crit level).
Qed.

Lemma profile_priors_explicit up cl :
  distinct_names cl ->
  profile_priors up cl
  = map (fun cv : string * list string =>
           (fst cv, map (fun level => (level, prior_belief up (fst cv) level))
                      (snd cv))) cl.
Proof.
  intros [Hk Hl]. unfold profile_priors, Dict.items.
  rewrite (fold_left_pointwise _
             (fun u cv => Dict.set (fst cv)
                (fold_left
                   (fun (tbl : Dict.t belief) level =>
                      let '(m, v) :=
                        UserProfileHBM.get_level_prior up (fst cv) level in
                      Dict.set level {| mean := m; variance := v |} tbl)
                   (snd cv) []) u))
    by (intros u [c ls]; reflexivity).
  rewrite (fold_set_distinct (fun cv : string * list string => fst cv))
    by exact Hk.
  simpl. apply map_ext_in. intros [c ls] Hin. simpl.
  rewrite profile_levels_table; auto.
  rewrite Forall_forall in Hl. exact (Hl _ Hin).
Qed.

(** X6.  An engine constructed without informed priors (or with an empty
    prior table) lists the criteria and their levels in definition order
    and gives every level the prior of the long-term profile, which is
    (0, 10) for a level the profile has not seen; the counters start at 0
    and the history is empty. *)
Theorem engine_init_reads_profile cl up informed s block :
  distinct_names cl ->
  informed = None \/ informed = Some [] ->
  let e := engine_init cl up informed s block in
  utilities_of e
  = map (fun cv : string * list string =>
           (fst cv, map (fun level => (level, prior_belief up (fst cv) level))
                      (snd cv))) cl
  /\ shape (utilities_of e) = cl
  /\ (forall crit level,
        stored_entry (UserProfileHBM.data up) crit level = None ->
        prior_belief up crit level = {| mean := 0.0; variance := 10.0 |})
  /\ session_history e = []
  /\ question_count e = 0%Z
  /\ cea_block_cache_idx e = 0%Z.
Proof.
  intros Hd Hinf e.
  assert (Hu : utilities_of e = profile_priors up cl).
  { subst e. destruct Hinf as [-> | ->]; reflexivity. }
  rewrite Hu, profile_priors_explicit by exact Hd.
  split; [reflexivity|]. split.
  - unfold shape. rewrite map_map. simpl.
    rewrite <- (map_id cl) at 2. apply map_ext. intros [c ls]. simpl.
    f_equal. unfold Dict.keys. rewrite map_map. simpl. apply map_id.
  - split; [|now subst e].
    intros crit level H. unfold prior_belief.
    now rewrite get_level_prior_entry, H.
Qed.

Lemma demo_criteria_distinct : distinct_names demo_criteria.
Proof.
  split.
  - repeat constructor; simpl; intuition discriminate.
  - repeat constructor; simpl; intuition discriminate.
Qed.

(** Instance: the sample criteria over the stored profile. *)
Lemma engine_init_reads_profile_witness :
  let e := engine_init demo_criteria stored_profile None PYTHON_ORTHOGONAL_CF 4 in
  utilities_of e
  = map (fun cv : string * list string =>
           (fst cv,
            map (fun level => (level, prior_belief stored_profile (fst cv) level))
              (snd cv))) demo_criteria
  /\ shape (utilities_of e) = demo_criteria
  /\ (forall crit level,
        stored_entry (UserProfileHBM.data stored_profile) crit level = None ->
        prior_belief stored_profile crit level
        = {| mean := 0.0; variance := 10.0 |})
  /\ session_history e = []
  /\ question_count e = 0%Z
  /\ cea_block_cache_idx e = 0%Z.
Proof.
  apply engine_init_reads_profile.
  - exact demo_criteria_distinct.
  - now left.
Defined.

(** ** Reconciliation request *)

(** The parameters a criterion contributes: one per level after the first,
    none when it has fewer than two levels. *)
Lemma collect_params_names cl : forall pn lm rl,
  fst (fst (fold_left
    (fun (acc : list string * Dict.t Z * Dict.t string)
         (cv : string * list string) =>
       let '(param_names, level_map, ref_levels) := acc in
       let '(crit, levels) := cv in
       match levels with
       | base_level :: ((_ :: _) as rest) =>
           fold_left
             (fun (acc' : list string * Dict.t Z * Dict.t string) level =>
                let '(pn, lm, rl) := acc' in
                let param_name := param_name_of crit level in
                (pn ++ [param_name],
                 Dict.set param_name (Z.of_nat (List.length pn)) lm, rl))
             rest
             (param_names, level_map, Dict.set crit base_level ref_levels)
       | _ => acc
       end) cl (pn, lm, rl)))
  = pn ++ flat_map
            (fun cv : string * list string =>
               match snd cv with
               | _ :: ((_ :: _) as rest) => map (param_name_of (fst cv)) rest
               | _ => []
               end) cl.
Proof.
  assert (Hinner : forall crit rest pn lm rl,
    fold_left
      (fun (acc' : list string * Dict.t Z * Dict.t string) level =>
         let '(pn, lm, rl) := acc' in
         let param_name := param_name_of crit level in
         (pn ++ [param_name],
          Dict.set param_name (Z.of_nat (List.length pn)) lm, rl))
      rest (pn, lm, rl)
    = (pn ++ map (param_name_of crit) rest,
       snd (fst (fold_left
         (fun (acc' : list string * Dict.t Z * Dict.t string) level =>
            let '(pn, lm, rl) := acc' in
            let param_name := param_name_of crit level in
            (pn ++ [param_name],
             Dict.set param_name (Z.of_nat (List.length pn)) lm, rl))
         rest (pn, lm, rl))), rl)).
  { intros crit rest. induction rest as [|l rest IH]; intros pn lm rl.
    - simpl. now rewrite app_nil_r.
    - cbn [fold_left map]. rewrite IH. now rewrite <- app_assoc. }
  induction cl as [|[c ls] cl IH]; intros pn lm rl; cbn [fold_left flat_map].
  - now rewrite app_nil_r.
  - destruct ls as [|b [|b' ls]]; try (rewrite IH; reflexivity).
    rewrite Hinner, IH. cbn [fst snd]. now rewrite app_assoc.
Qed.

Lemma param_names_explicit cl :
  param_names_of cl
  = flat_map
      (fun cv : string * list string =>
         match snd cv with
         | _ :: ((_ :: _) as rest) => map (param_name_of (fst cv)) rest
         | _ => []
         end) cl.
Proof.
  unfold param_names_of, collect_params, Dict.items.
  now rewrite collect_params_names.
Qed.





(** ** The belief store keeps its shape *)

Lemma set_present_shape {V} (d : Dict.t V) k v v0 :
  Dict.get d k = Some v0 -> Dict.keys (Dict.set k v d) = Dict.keys d.
Proof. intros H. apply keys_set_present. eapply get_some_key; eauto. Qed.

Lemma alter_belief_shape f u crit lvl : shape (alter_belief f u crit lvl) = shape u.
Proof.
  unfold alter_belief.
  destruct (Dict.get u crit) as [tbl|] eqn:Hc; auto.
  destruct (Dict.get tbl lvl) as [b|] eqn:Hl; auto.
  unfold shape. revert Hc. induction u as [|[c t] u IH]; simpl; [discriminate|].
  destruct (String.eqb c crit) eqn:E.
  - intros [= ->]. simpl. now rewrite (set_present_shape _ _ _ _ Hl).
  - intros H. simpl. now rewrite IH.
Qed.

Lemma clamp_all_shape u : shape (clamp_all u) = shape u.
Proof.
  unfold shape, clamp_all. rewrite map_map. apply map_ext.
  intros [c t]. simpl. f_equal. unfold Dict.keys. now rewrite map_map.
Qed.

Lemma simplified_update_shape u chosen unchosen :
  shape (update_utilities_simplified u chosen unchosen) = shape u.
Proof.
  unfold update_utilities_simplified, Dict.items.
  assert (H1 : forall items v, shape (fold_left update_chosen_item items v) = shape v).
  { induction items as [|[c l] items IH]; intros v; cbn [fold_left]; auto.
    rewrite IH. unfold update_chosen_item.
    destruct (has_belief v c l); auto using alter_belief_shape. }
  assert (H2 : forall ch items v,
            shape (fold_left (update_unchosen_item ch) items v) = shape v).
  { intros ch. induction items as [|[c l] items IH]; intros v; cbn [fold_left]; auto.
    rewrite IH. unfold update_unchosen_item.
    destruct (_ && _); auto.
    destruct (has_belief v c l); auto using alter_belief_shape. }
  now rewrite H2, H1.
Qed.

Lemma counterfactual_update_shape u crit original improved switched :
  shape (update_utilities_from_counterfactual u crit original improved switched)
  = shape u.
Proof.
  unfold update_utilities_from_counterfactual.
  destruct (_ || _); auto.
  rewrite clamp_all_shape. destruct switched; now rewrite !alter_belief_shape.
Qed.

Lemma known_beliefs_length u :
  List.length (known_beliefs u)
  = List.length (flat_map (fun cv : string * list string => snd cv) (shape u)).
Proof.
  unfold known_beliefs, shape.
  induction u as [|[c t] u IH]; simpl; auto.
  rewrite !length_app, IH. f_equal.
  unfold Dict.values, Dict.keys. now rewrite !length_map.
Qed.

(** ** Properties of all beliefs that the updaters keep *)

Lemma alter_belief_all (P : belief -> Prop) f u crit lvl :
  (forall b, P b -> P (f b)) ->
  store_all P u -> store_all P (alter_belief f u crit lvl).
Proof.
  intros Hf Hu. unfold alter_belief.
  destruct (Dict.get u crit) as [tbl|] eqn:Hc; auto.
  destruct (Dict.get tbl lvl) as [b|] eqn:Hl; auto.
  unfold store_all in *.
  apply (Forall_set (fun tbl => Forall (fun lb => P (snd lb)) tbl)); auto.
  assert (Htbl : Forall (fun lb : string * belief => P (snd lb)) tbl).
  { apply get_In in Hc. rewrite Forall_forall in Hu. exact (Hu _ Hc). }
  apply (Forall_set P); auto.
  apply Hf. apply get_In in Hl. rewrite Forall_forall in Htbl. exact (Htbl _ Hl).
Qed.

Lemma clamp_all_all (P : belief -> Prop) u :
  (forall b, P b -> P (clamp_belief b)) ->
  store_all P u -> store_all P (clamp_all u).
Proof.
  intros Hf Hu. unfold store_all, clamp_all in *.
  apply Forall_forall. intros [c t] Hin.
  apply in_map_iff in Hin. destruct Hin as [[c' t'] [E Hin]].
  injection E as <- <-. simpl.
  rewrite Forall_forall in Hu. specialize (Hu _ Hin). simpl in Hu.
  apply Forall_forall. intros [l b] Hinl.
  apply in_map_iff in Hinl. destruct Hinl as [[l' b'] [E Hinl]].
  injection E as <- <-. simpl. apply Hf.
  rewrite Forall_forall in Hu. exact (Hu _ Hinl).
Qed.

Lemma simplified_update_all (P : belief -> Prop) u chosen unchosen :
  (forall b, P b -> P (bump_chosen b)) ->
  (forall b, P b -> P (bump_unchosen b)) ->
  store_all P u -> store_all P (update_utilities_simplified u chosen unchosen).
Proof.
  intros Hc Hu. unfold update_utilities_simplified, Dict.items.
  assert (H1 : forall items v, store_all P v ->
                 store_all P (fold_left update_chosen_item items v)).
  { induction items as [|[c l] items IH]; intros v Hv; cbn [fold_left]; auto.
    apply IH. unfold update_chosen_item.
    destruct (has_belief v c l); auto using alter_belief_all. }
  assert (H2 : forall ch items v, store_all P v ->
                 store_all P (fold_left (update_unchosen_item ch) items v)).
  { intros ch. induction items as [|[c l] items IH]; intros v Hv;
      cbn [fold_left]; auto.
    apply IH. unfold update_unchosen_item.
    destruct (_ && _); auto.
    destruct (has_belief v c l); auto using alter_belief_all. }
  auto.
Qed.

Lemma counterfactual_update_all (P : belief -> Prop) u crit original improved
    switched :
  (forall b, P b -> P (cf_switched_improved b)) ->
  (forall b, P b -> P (cf_switched_original b)) ->
  (forall b, P b -> P (cf_stayed_improved b)) ->
  (forall b, P b -> P (cf_stayed_original b)) ->
  (forall b, P b -> P (clamp_belief b)) ->
  store_all P u ->
  store_all P
    (update_utilities_from_counterfactual u crit original improved switched).
Proof.
  intros H1 H2 H3 H4 H5 Hu. unfold update_utilities_from_counterfactual.
  destruct (_ || _); auto.
  apply clamp_all_all; auto.
  destruct switched; auto using alter_belief_all.
Qed.

Lemma store_all_known (P : belief -> Prop) u :
  store_all P u -> Forall P (known_beliefs u).
Proof.
  unfold store_all, known_beliefs. intros H.
  apply Forall_forall. intros b Hin. apply in_flat_map in Hin.
  destruct Hin as [[c t] [Hct Hb]]. simpl in Hb.
  unfold Dict.values in Hb. apply in_map_iff in Hb.
  destruct Hb as [[l b'] [<- Hl]].
  rewrite Forall_forall in H. specialize (H _ Hct). simpl in H.
  rewrite Forall_forall in H. exact (H _ Hl).
Qed.

(** ** The question loop: what an iteration does *)

Open Scope Z_scope.

Lemma orthogonal_pair_data e r e' :
  get_python_orthogonal_pair e = (r, e') ->
  same_data e e'
  /\ cea_block_cache e' = cea_block_cache e
  /\ cea_block_cache_idx e' = cea_block_cache_idx e.
Proof.
  unfold get_python_orthogonal_pair, same_data.
  destruct (negb _); [intros [= <- <-]; auto 10|].
  destruct (fill_profiles _ _ _ _ _ _ _) as [[pa pb]|];
    intros [= <- <-]; simpl; auto 10.
Qed.

Lemma same_data_trans e1 e2 e3 :
  same_data e1 e2 -> same_data e2 e3 -> same_data e1 e3.
Proof. unfold same_data. intuition congruence. Qed.

Lemma generate_block_data inp e e1 evs g :
  generate_block inp e = (e1, evs, g) ->
  same_data e e1
  /\ (0 <= cea_block_cache_idx e -> 0 <= cea_block_cache_idx e1 /\ g <> GenRaise).
Proof.
  unfold generate_block.
  match goal with
  | |- context [if cache_exhausted e then ?a else ?b] =>
      set (first_half := if cache_exhausted e then a else b)
  end.
  assert (Hfh : same_data e (fst first_half)
                /\ (0 <= cea_block_cache_idx e ->
                    0 <= cea_block_cache_idx (fst first_half))).
  { unfold first_half. destruct (cache_exhausted e).
    - destruct (block_reply inp) as [[|x r_data]|];
        try (destruct (get_python_orthogonal_pair e) as [r e'] eqn:Hp;
             apply orthogonal_pair_data in Hp;
             destruct Hp as ((H1 & H2 & H3 & H4) & H5 & H6);
             unfold same_data; simpl; rewrite H6; auto 10).
      unfold same_data. simpl. split; auto. intros _. lia.
    - unfold same_data. simpl. auto 10. }
  destruct first_half as [e0 evs0]. simpl in Hfh. destruct Hfh as [Hd Hidx].
  destruct (cache_exhausted e0) eqn:Hx; simpl.
  - destruct (get_python_orthogonal_pair e0) as [r e2] eqn:Hp.
    apply orthogonal_pair_data in Hp. destruct Hp as (Hd2 & _ & Hi2).
    assert (Hd3 : same_data e (incr_done e2)).
    { eapply same_data_trans; [exact Hd|].
      unfold same_data in *. simpl. tauto. }
    destruct r as [[a b]|]; intros [= <- <- <-]; (split; [exact Hd3|]);
      intros H0; simpl; rewrite Hi2; split; auto; discriminate.
  - assert (Hlt : 0 <= cea_block_cache_idx e ->
                  exists x, py_index (cea_block_cache e0) (cea_block_cache_idx e0)
                            = Some x).
    { intros H0. apply py_index_in_range. split; [auto|].
      unfold cache_exhausted in Hx.
      destruct (cea_block_cache e0) as [|c0 cs]; [discriminate|].
      apply Z.leb_gt in Hx. exact Hx. }
    destruct (py_index (cea_block_cache e0) (cea_block_cache_idx e0))
      as [[pa pb]|] eqn:Hpi.
    + assert (Hd3 : same_data e
                      (incr_done (set_cache e0 (cea_block_cache e0)
                                    (cea_block_cache_idx e0 + 1)))).
      { eapply same_data_trans; [exact Hd|]. unfold same_data. simpl. tauto. }
      destruct pa as [pa|]; intros [= <- <- <-]; (split; [exact Hd3|]);
        intros H0; simpl; split; try discriminate; specialize (Hidx H0); lia.
    + intros [= <- <- <-]. split; [exact Hd|].
      intros H0. destruct (Hlt H0) as [x Hxx]. discriminate.
Qed.

Lemma generate_adaptive_data cps inp e e1 evs g :
  generate_adaptive cps inp e = (e1, evs, g) ->
  same_data e e1
  /\ cea_block_cache_idx e1 = cea_block_cache_idx e
  /\ g <> GenRaise
  /\ (evs = [RequestSingle]
      \/ evs = [RequestSingle; SingleFetchFailed]
      \/ evs = [RequestSingle; SingleFetchFailed; EscalationWarning]).
Proof.
  unfold generate_adaptive.
  match goal with
  | |- context [if ?c then incr_done e else e] =>
      set (e0 := if c then incr_done e else e)
  end.
  assert (H0 : same_data e e0 /\ cea_block_cache_idx e0 = cea_block_cache_idx e).
  { unfold e0, same_data. destruct (_ || _); simpl; auto 10. }
  clearbody e0. destruct H0 as [Hd Hi].
  destruct (single_reply inp) as [[a b]|].
  - intros [= <- <- <-].
    split; [unfold same_data in *; simpl; tauto|].
    split; [exact Hi|]. split; [discriminate|]. now left.
  - destruct (get_python_orthogonal_pair e0) as [r e'] eqn:Hp.
    apply orthogonal_pair_data in Hp. destruct Hp as (Hd2 & _ & Hi2).
    assert (Hd3 : same_data e (set_failures e' (r_idefix_consecutive_failures e' + 1))).
    { eapply same_data_trans; [exact Hd|].
      unfold same_data in *. simpl. tauto. }
    destruct r as [[a b]|]; intros [= <- <- <-];
      (split; [exact Hd3|]); (split; [simpl; congruence|]);
      (split; [discriminate|]).
    + destruct (3 <=? _); simpl; auto.
    + simpl. auto.
Qed.

(** Question generation touches neither the beliefs, the criteria, the
    history nor the question counter; it makes at most one oracle request;
    and with a cursor that is not negative it does not raise. *)
Lemma generate_data inp e e1 evs g :
  generate inp e = (e1, evs, g) ->
  same_data e e1
  /\ forallb generation_event evs = true
  /\ (List.length (filter is_request evs) <= 1)%nat
  /\ (0 <= cea_block_cache_idx e -> 0 <= cea_block_cache_idx e1 /\ g <> GenRaise).
Proof.
  unfold generate. destruct (current_phase_strategy e) eqn:Hcps.
  - unfold generate_orthogonal.
    destruct (get_python_orthogonal_pair e) as [r e'] eqn:Hp.
    apply orthogonal_pair_data in Hp. destruct Hp as (Hd & _ & Hi).
    assert (Hd3 : same_data e (incr_done e'))
      by (unfold same_data in *; simpl; tauto).
    destruct r as [[a b]|]; intros [= <- <- <-]; (split; [exact Hd3|]);
      simpl; rewrite Hi; repeat split; auto; discriminate.
  - intros H. pose proof (generate_block_trace _ _ _ _ _ H) as Ht.
    apply generate_block_data in H. destruct H as [Hd Hr].
    split; [exact Hd|].
    destruct Ht as [[-> _]|[[-> _]|[-> _]]]; simpl; auto.
  - intros H. apply generate_adaptive_data in H.
    destruct H as (Hd & Hi & Hg & Hev). split; [exact Hd|].
    rewrite Hi.
    destruct Hev as [->|[->| ->]]; simpl; auto.
  - intros H. apply generate_adaptive_data in H.
    destruct H as (Hd & Hi & Hg & Hev). split; [exact Hd|].
    rewrite Hi.
    destruct Hev as [->|[->| ->]]; simpl; auto.
Qed.

(** The second half of an iteration records the answer and asks at most
    one counterfactual. *)
Lemma answer_trace inp e a b cf e' evs st :
  answer inp e a b cf = (e', evs, st) ->
  exists tail,
    evs = AskQuestion a b :: tail
    /\ forallb follow_up_event tail = true
    /\ (List.length (filter is_ask_counterfactual tail) <= 1)%nat
    /\ (cf = false -> filter is_ask_counterfactual tail = [])
    /\ session_history e'
       = session_history e ++ [(a, b, if main_choice_is_a inp then 0 else 1)]
    /\ shape (utilities_of e') = shape (utilities_of e)
    /\ (st = Continue -> check_convergence (utilities_of e') = false).
Proof.
  unfold answer.
  set (chosen := if main_choice_is_a inp then a else b).
  set (rejected := if main_choice_is_a inp then b else a).
  set (e3 := set_utilities _ _).
  assert (H3 : session_history e3
               = session_history e ++ [(a, b, if main_choice_is_a inp then 0 else 1)]
               /\ shape (utilities_of e3) = shape (utilities_of e)).
  { unfold e3. simpl. split; auto. apply simplified_update_shape. }
  clearbody e3. destruct H3 as [Hh Hs].
  destruct cf.
  - unfold ask_and_process_counterfactual.
    pose proof (counterfactual_plan_sound e3 chosen rejected) as Hp.
    destruct (counterfactual_plan e3 chosen rejected); [| destruct Hp |].
    + destruct (check_convergence (utilities_of e3)) eqn:Hc;
        intros [= <- <- <-]; eexists; split; try reflexivity;
        repeat split; auto; discriminate.
    + cbn [utilities_of set_utilities].
      destruct (check_convergence _) eqn:Hc;
        intros [= <- <- <-]; eexists; (split; [reflexivity|]);
        simpl; repeat split; auto; try discriminate;
        rewrite counterfactual_update_shape; exact Hs.
  - destruct (check_convergence (utilities_of e3)) eqn:Hc;
      intros [= <- <- <-]; eexists; split; try reflexivity;
      repeat split; auto; discriminate.
Qed.

(** ** The question loop: a whole session *)

Lemma filter_none {A} (p q : A -> bool) l :
  (forall x, p x = true -> q x = false) ->
  forallb p l = true -> filter q l = [].
Proof.
  intros H. induction l as [|x l IH]; simpl; auto.
  intros Hl. apply andb_true_iff in Hl. destruct Hl as [Hx Hl].
  rewrite (H x Hx). auto.
Qed.

Lemma step_progress inp e e' evs st :
  step inp e = (e', evs, st) ->
  question_count e' = question_count e + 1
  /\ (exists added, progress e e' evs added)
  /\ (0 <= cea_block_cache_idx e -> 0 <= cea_block_cache_idx e' /\ st <> Raised)
  /\ (st = Continue -> check_convergence (utilities_of e') = false).
Proof.
  unfold step.
  destruct (generate inp _) as [[e1 evs1] g] eqn:Hg.
  apply generate_data in Hg.
  destruct Hg as ((Hu & Hc & Hh & Hq) & Hev & Hreq & Hidx).
  cbn [utilities_of criteria_levels session_history question_count
       cea_block_cache_idx set_question_count] in *.
  assert (Hask1 : filter is_ask_question evs1 = [])
    by (apply (filter_none generation_event); auto; now intros []).
  assert (Hcf1 : filter is_ask_counterfactual evs1 = [])
    by (apply (filter_none generation_event); auto; now intros []).
  assert (Hempty : forall tail, filter is_ask_question tail = [] ->
            filter is_ask_counterfactual tail = [] ->
            filter is_request tail = [] ->
            progress e e1 (evs1 ++ tail) []).
  { intros tail T1 T2 T3. unfold progress.
    rewrite !filter_app, Hask1, Hcf1, T1, T2, T3, !app_nil_r, Hh, Hc, Hu, Hq.
    simpl. repeat split; auto; lia. }
  destruct g as [| |[pa|] [pb|] cf].
  - intros [= <- <- <-]. split; [exact Hq|]. split.
    + exists []. rewrite <- (app_nil_r evs1). now apply Hempty.
    + split; [|discriminate]. intros H0. split; [tauto | discriminate].
  - intros [= <- <- <-]. split; [exact Hq|]. split.
    + exists []. rewrite <- (app_nil_r evs1). now apply Hempty.
    + split; [|discriminate]. intros H0. destruct (Hidx H0). congruence.
  - destruct (answer inp e1 pa pb cf) as [[e4 evs4] st4] eqn:Ha.
    pose proof (answer_control _ _ _ _ _ _ _ _ Ha) as (Hctl & Hnr & _ & _ & _).
    apply answer_trace in Ha.
    destruct Ha as (tail & -> & Hfu & Hcf & _ & Hh4 & Hs4 & Hconv).
    assert (Hq4 : question_count e4 = question_count e + 1)
      by (unfold same_control in Hctl; intuition congruence).
    intros [= <- <- <-]. split; [exact Hq4|]. split; [|split].
    + exists [(pa, pb, if main_choice_is_a inp then 0 else 1)].
      unfold progress.
      rewrite !filter_app, Hask1, Hcf1. cbn [filter is_ask_question
        is_ask_counterfactual is_request app].
      rewrite (filter_none follow_up_event is_ask_question tail)
        by (auto; now intros []).
      rewrite (filter_none follow_up_event is_request tail)
        by (auto; now intros []).
      rewrite app_nil_r, Hh4, Hh, Hs4, Hu, Hq4.
      unfold same_control in Hctl.
      repeat split; auto; try (intuition congruence); simpl; try lia.
      constructor; [|constructor].
      unfold choice_recorded. simpl. destruct (main_choice_is_a inp); auto.
    + intros H0. destruct (Hidx H0) as [H1 _].
      unfold same_control in Hctl. split; [|exact Hnr].
      intuition congruence.
    + exact Hconv.
  - intros [= <- <- <-]. split; [exact Hq|]. split.
    + exists []. now apply Hempty.
    + split; [|discriminate]. intros H0. split; [tauto | discriminate].
  - intros [= <- <- <-]. split; [exact Hq|]. split.
    + exists []. now apply Hempty.
    + split; [|discriminate]. intros H0. split; [tauto | discriminate].
  - intros [= <- <- <-]. split; [exact Hq|]. split.
    + exists []. now apply Hempty.
    + split; [|discriminate]. intros H0. split; [tauto | discriminate].
Qed.

Lemma run_loop_unfold fuel i env e :
  run_loop (S fuel) i env e
  = let '(e1, evs, st) := step (env i) e in
    match st with
    | Continue =>
        let '(e2, evs', st') := run_loop fuel (S i) env e1 in
        (e2, evs ++ evs', st')
    | st => (e1, evs, st)
    end.
Proof. reflexivity. Qed.

Lemma progress_compose e e1 e2 evs1 evs2 added1 added2 :
  progress e e1 evs1 added1 -> progress e1 e2 evs2 added2 ->
  progress e e2 (evs1 ++ evs2) (added1 ++ added2).
Proof.
  unfold progress.
  intros (H1 & H2 & H3 & H4 & H5 & H6 & H7 & H8)
         (G1 & G2 & G3 & G4 & G5 & G6 & G7 & G8).
  rewrite !filter_app, !length_app, map_app, G1, H1, H2, G2, app_assoc.
  repeat split; auto; try congruence; try lia.
  apply Forall_app. auto.
Qed.

Lemma run_loop_progress fuel : forall i env e e' evs st,
  run_loop fuel i env e = (e', evs, st) ->
  (exists added, progress e e' evs added)
  /\ question_count e <= question_count e' <= question_count e + Z.of_nat fuel
  /\ (0 <= cea_block_cache_idx e -> st <> Raised).
Proof.
  induction fuel as [|fuel IH]; intros i env e e' evs st; cbn [run_loop].
  - intros [= <- <- <-]. split; [|split; [lia | discriminate]].
    exists []. unfold progress. simpl. rewrite app_nil_r.
    repeat split; auto; lia.
  - destruct (step (env i) e) as [[e1 evs1] st1] eqn:Hs.
    apply step_progress in Hs. destruct Hs as (Hq & [added1 Hp1] & Hidx & _).
    destruct st1.
    + destruct (run_loop fuel (S i) env e1) as [[e2 evs2] st2] eqn:Hr.
      apply IH in Hr. destruct Hr as ([added2 Hp2] & Hq2 & Hidx2).
      intros [= <- <- <-]. split; [|split].
      * exists (added1 ++ added2). eapply progress_compose; eauto.
      * lia.
      * intros H0. apply Hidx2. now apply Hidx.
    + intros [= <- <- <-]. split; [eauto|]. split; [lia | discriminate].
    + intros [= <- <- <-]. split; [eauto|]. split; [lia|].
      intros H0. now apply Hidx.
Qed.

(** X8.  The history is append-only and records exactly the questions that
    were asked, in the order they were asked, each with the choice 0 or 1;
    a session adds at most eight answers. *)
Theorem session_history_records_the_questions env e e' evs st :
  run_elicitation_session env e = (e', evs, st) ->
  exists added,
    session_history e' = session_history e ++ added
    /\ filter is_ask_question evs = map question_of added
    /\ Forall choice_recorded added
    /\ (List.length added <= 8)%nat.
Proof.
  unfold run_elicitation_session. intros Hr.
  apply run_loop_progress in Hr.
  destruct Hr as ([added Hp] & Hq & _). exists added.
  unfold progress in Hp. destruct Hp as (H1 & H2 & H3 & _ & H5 & _).
  repeat split; auto. simpl in Hq. lia.
Qed.

(** Instance: the session with the oracle down. *)
Lemma session_history_records_the_questions_witness :
  let r := run_elicitation_session (fun _ => oracle_down)
             (demo_engine MODFED_DIRECT 0 (demo_store 0 10)) in
  exists added,
    session_history (fst (fst r))
    = session_history (demo_engine MODFED_DIRECT 0 (demo_store 0 10)) ++ added
    /\ filter is_ask_question (snd (fst r)) = map question_of added
    /\ Forall choice_recorded added
    /\ (List.length added <= 8)%nat.
Proof.
  intros r.
  apply (session_history_records_the_questions (fun _ => oracle_down)
           (demo_engine MODFED_DIRECT 0 (demo_store 0 10))
           (fst (fst r)) (snd (fst r)) (snd r)).
  subst r. now destruct (run_elicitation_session _ _) as [[? ?] ?].
Defined.

(** X9.  A session runs between one and eight iterations; it makes at most
    one oracle request per iteration, asks at most one main question per
    iteration, and never more counterfactuals than main questions. *)
Theorem session_is_bounded env e e' evs st :
  run_elicitation_session env e = (e', evs, st) ->
  let iterations := question_count e' - question_count e in
  1 <= iterations <= 8
  /\ Z.of_nat (List.length (filter is_request evs)) <= iterations
  /\ Z.of_nat (List.length (filter is_ask_question evs)) <= iterations
  /\ (List.length (filter is_ask_counterfactual evs)
      <= List.length (filter is_ask_question evs))%nat.
Proof.
  unfold run_elicitation_session. intros Hr. cbv zeta.
  assert (H1 : question_count e + 1 <= question_count e').
  { revert Hr. unfold max_questions. rewrite run_loop_unfold.
    destruct (step (env 0%nat) e) as [[e1 evs1] st1] eqn:Hs.
    apply step_progress in Hs. destruct Hs as (Hq & _).
    destruct st1; try (intros [= <- <- <-]; lia).
    destruct (run_loop 7 1 env e1) as [[e2 evs2] st2] eqn:Hr2.
    apply run_loop_progress in Hr2. destruct Hr2 as (_ & Hq2 & _).
    intros [= <- <- <-]. lia. }
  apply run_loop_progress in Hr.
  destruct Hr as ([added Hp] & Hq & _).
  unfold progress in Hp. destruct Hp as (_ & H2 & _ & H4 & H5 & H6 & _).
  rewrite H2, length_map. simpl in Hq. repeat split; auto; lia.
Qed.

(** Instance: the block kickstart whose fetch fails. *)
Lemma session_is_bounded_witness :
  let r := run_elicitation_session (fun _ => oracle_down)
             (demo_engine CEA_BLOCK_CF 4 (demo_store 0 10)) in
  let iterations :=
    question_count (fst (fst r))
    - question_count (demo_engine CEA_BLOCK_CF 4 (demo_store 0 10)) in
  1 <= iterations <= 8
  /\ Z.of_nat (List.length (filter is_request (snd (fst r)))) <= iterations
  /\ Z.of_nat (List.length (filter is_ask_question (snd (fst r)))) <= iterations
  /\ (List.length (filter is_ask_counterfactual (snd (fst r)))
      <= List.length (filter is_ask_question (snd (fst r))))%nat.
Proof.
  intros r.
  apply (session_is_bounded (fun _ => oracle_down)
           (demo_engine CEA_BLOCK_CF 4 (demo_store 0 10))
           (fst (fst r)) (snd (fst r)) (snd r)).
  subst r. now destruct (run_elicitation_session _ _) as [[? ?] ?].
Defined.

(** X10.  With a block cursor that is not negative, as in every engine
    that [__init__] builds, the two list subscripts of the loop, the block
    cache at its cursor and the target criterion's levels at the
    alternative index, are never out of range: the session raises no
    [IndexError], whatever the user answers and whatever profiles (dicts
    of level names, or null) the oracle replies with. *)
Theorem session_does_not_raise env e e' evs st :
  0 <= cea_block_cache_idx e ->
  run_elicitation_session env e = (e', evs, st) ->
  st <> Raised.
Proof.
  unfold run_elicitation_session. intros H0 Hr.
  apply run_loop_progress in Hr. destruct Hr as (_ & _ & H). now apply H.
Qed.

(** Instance: a block of two pairs, served and then exhausted. *)
Lemma session_does_not_raise_witness :
  let env := fun _ : nat =>
    {| block_reply := Some [(Some option_a, Some option_b);
                            (Some option_b, Some option_a)];
       single_reply := None;
       main_choice_is_a := false; cf_choice_is_modified := true |} in
  snd (run_elicitation_session env
         (engine_init demo_criteria stored_profile None CEA_BLOCK_CF 4))
  <> Raised.
Proof.
  intros env.
  apply (session_does_not_raise env
           (engine_init demo_criteria stored_profile None CEA_BLOCK_CF 4)
           (fst (fst (run_elicitation_session env
              (engine_init demo_criteria stored_profile None CEA_BLOCK_CF 4))))
           (snd (fst (run_elicitation_session env
              (engine_init demo_criteria stored_profile None CEA_BLOCK_CF 4))))).
  - simpl. lia.
  - now destruct (run_elicitation_session _ _) as [[? ?] ?].
Defined.

(** ** Parameter names of the oracle and of the reconciler *)

Lemma design_par_names_shape u :
  design_par_names u
  = flat_map
      (fun cv : string * list string =>
         match snd cv with
         | _ :: ((_ :: _) as rest) => map (param_name_of (fst cv)) rest
         | _ => []
         end) (shape u).
Proof.
  unfold design_par_names, shape.
  induction u as [|[c t] u IH]; cbn [flat_map map]; auto.
  rewrite IH. f_equal.
  destruct t as [|[l0 b0] [|[l1 b1] t]]; reflexivity.
Qed.

(** X11.  A session never adds or removes a criterion or a level of the
    belief store and never changes the criteria; so if the store starts
    with the criteria's levels, as after [__init__], the parameter names
    that [request_R_design] sends to the oracle are, at every point where
    the session can end, the parameter names that the reconciler
    estimates. *)
Theorem session_keeps_store_shape env e e' evs st :
  run_elicitation_session env e = (e', evs, st) ->
  shape (utilities_of e') = shape (utilities_of e)
  /\ criteria_levels e' = criteria_levels e
  /\ (shape (utilities_of e) = criteria_levels e ->
      design_par_names (utilities_of e') = param_names_of (criteria_levels e')).
Proof.
  unfold run_elicitation_session. intros Hr.
  apply run_loop_progress in Hr. destruct Hr as ([added Hp] & _).
  unfold progress in Hp. destruct Hp as (_ & _ & _ & _ & _ & _ & Hc & Hs).
  repeat split; auto.
  intros H. rewrite design_par_names_shape, param_names_explicit.
  now rewrite Hs, Hc, H.
Qed.

(** Instance: an engine built from the stored profile. *)
Lemma session_keeps_store_shape_witness :
  let e := engine_init demo_criteria stored_profile None PYTHON_ORTHOGONAL_CF 4 in
  let r := run_elicitation_session (fun _ => oracle_down) e in
  shape (utilities_of (fst (fst r))) = shape (utilities_of e)
  /\ criteria_levels (fst (fst r)) = criteria_levels e
  /\ (shape (utilities_of e) = criteria_levels e ->
      design_par_names (utilities_of (fst (fst r)))
      = param_names_of (criteria_levels (fst (fst r)))).
Proof.
  intros e r.
  apply (session_keeps_store_shape (fun _ => oracle_down) e
           (fst (fst r)) (snd (fst r)) (snd r)).
  subst r. now destruct (run_elicitation_session _ _) as [[? ?] ?].
Defined.

(** ** Convergence of a low-variance store *)

Open Scope Q_scope.

Lemma py_max_lt a b c : a < c -> b < c -> py_max a b < c.
Proof. intros. unfold py_max. now destruct (Qle_bool b a). Qed.

Lemma inject_length_succ {A} (x : A) l :
  inject_Z (Z.of_nat (List.length (x :: l)))
  == inject_Z (Z.of_nat (List.length l)) + 1.
Proof.
  simpl List.length. rewrite Nat2Z.inj_succ, <- Z.add_1_r.
  now rewrite inject_Z_plus.
Qed.

Lemma sum_variance_below l :
  Forall (fun b => variance b < 1) l -> l <> [] ->
  sum_variance l < inject_Z (Z.of_nat (List.length l)).
Proof.
  induction l as [|b l IH]; intros Hf Hne; [congruence|].
  inversion Hf as [|? ? Hb Hl]; subst.
  rewrite inject_length_succ. cbn [sum_variance fold_right].
  fold (sum_variance l).
  destruct l as [|b' l].
  - simpl. unfold inject_Z. lra.
  - specialize (IH Hl ltac:(discriminate)). lra.
Qed.

Lemma length_positive {A} (x : A) l :
  0 < inject_Z (Z.of_nat (List.length (x :: l))).
Proof.
  rewrite inject_length_succ.
  assert (0 <= inject_Z (Z.of_nat (List.length l))).
  { change 0 with (inject_Z 0). rewrite <- Zle_Qle. lia. }
  lra.
Qed.

Lemma converged_when_all_below_one u :
  store_all (fun b => variance b < 1) u -> known_beliefs u <> [] ->
  check_convergence u = true.
Proof.
  intros Hall Hne.
  destruct (known_beliefs u) as [|b l] eqn:Hk; [congruence|].
  rewrite (check_convergence_nonempty u b l Hk), Qlt_bool_iff.
  rewrite total_variance_sum.
  apply store_all_known in Hall. rewrite Hk in Hall.
  apply Qlt_le_trans with 1; [|lra].
  apply Qlt_shift_div_r; [apply length_positive|].
  rewrite Qmult_1_l. apply sum_variance_below; [exact Hall | discriminate].
Qed.

(** What [answer] does to a property of all beliefs that every belief
    update keeps. *)
Lemma answer_all (P : belief -> Prop) inp e a b cf e' evs st :
  (forall x, P x -> P (bump_chosen x)) ->
  (forall x, P x -> P (bump_unchosen x)) ->
  (forall x, P x -> P (cf_switched_improved x)) ->
  (forall x, P x -> P (cf_switched_original x)) ->
  (forall x, P x -> P (cf_stayed_improved x)) ->
  (forall x, P x -> P (cf_stayed_original x)) ->
  (forall x, P x -> P (clamp_belief x)) ->
  store_all P (utilities_of e) ->
  answer inp e a b cf = (e', evs, st) ->
  store_all P (utilities_of e').
Proof.
  intros H1 H2 H3 H4 H5 H6 H7 Hu. unfold answer.
  set (chosen := if main_choice_is_a inp then a else b).
  set (rejected := if main_choice_is_a inp then b else a).
  set (e3 := set_utilities _ _).
  assert (Hu3 : store_all P (utilities_of e3)).
  { unfold e3. simpl. now apply simplified_update_all. }
  clearbody e3.
  destruct cf.
  - unfold ask_and_process_counterfactual.
    destruct (counterfactual_plan e3 chosen rejected).
    + destruct (check_convergence _); now intros [= <- <- <-].
    + now intros [= <- <- <-].
    + cbn [utilities_of set_utilities].
      destruct (check_convergence _); intros [= <- <- <-]; simpl;
        now apply counterfactual_update_all.
  - destruct (check_convergence _); now intros [= <- <- <-].
Qed.

Lemma below_one_kept :
  (forall x, variance x < 1 -> variance (bump_chosen x) < 1)
  /\ (forall x, variance x < 1 -> variance (bump_unchosen x) < 1)
  /\ (forall x, variance x < 1 -> variance (cf_switched_improved x) < 1)
  /\ (forall x, variance x < 1 -> variance (cf_switched_original x) < 1)
  /\ (forall x, variance x < 1 -> variance (cf_stayed_improved x) < 1)
  /\ (forall x, variance x < 1 -> variance (cf_stayed_original x) < 1)
  /\ (forall x, variance x < 1 -> variance (clamp_belief x) < 1).
Proof.
  repeat split; intros x Hx; simpl; auto; apply py_max_lt; lra.
Qed.

Lemma step_stops_when_all_below_one inp e :
  store_all (fun b => variance b < 1) (utilities_of e) ->
  known_beliefs (utilities_of e) <> [] ->
  snd (step inp e) <> Continue.
Proof.
  intros Hall Hne.
  destruct (step inp e) as [[e' evs] st] eqn:Hs. simpl.
  intros Hst. subst st.
  pose proof (step_progress _ _ _ _ _ Hs) as (_ & [added Hp] & _ & Hconv).
  specialize (Hconv eq_refl).
  assert (Hc : check_convergence (utilities_of e') = true); [|congruence].
  revert Hs. unfold step.
  destruct (generate inp _) as [[e1 evs1] g] eqn:Hg.
  apply generate_data in Hg. destruct Hg as ((Hu & _) & _).
  cbn [utilities_of set_question_count] in Hu.
  destruct g as [| |[pa|] [pb|] cf]; try (intros H; discriminate H).
  destruct (answer inp e1 pa pb cf) as [[e4 evs4] st4] eqn:Ha.
  intros H. injection H as <- _ _.
  destruct below_one_kept as (K1 & K2 & K3 & K4 & K5 & K6 & K7).
  apply converged_when_all_below_one.
  - apply (answer_all (fun b => variance b < 1) inp e1 pa pb cf e4 evs4 st4
             K1 K2 K3 K4 K5 K6 K7); [rewrite Hu; exact Hall | exact Ha].
  - apply answer_trace in Ha. destruct Ha as (tail & _ & _ & _ & _ & _ & Hsh & _).
    intros Hk. apply Hne.
    apply length_zero_iff_nil. apply length_zero_iff_nil in Hk.
    rewrite known_beliefs_length in *. now rewrite <- Hu, <- Hsh.
Qed.

(** X12.  When every belief of a non-empty store starts with a variance
    below 1, the session is over after its first iteration: whatever is
    answered, the convergence check stops the loop, so at most one question
    is asked. *)
Theorem low_variance_session_stops_at_once env e :
  store_all (fun b => variance b < 1) (utilities_of e) ->
  known_beliefs (utilities_of e) <> [] ->
  run_elicitation_session env e = step (env 0%nat) e
  /\ snd (step (env 0%nat) e) <> Continue
  /\ question_count (fst (fst (run_elicitation_session env e)))
     = (question_count e + 1)%Z.
Proof.
  intros Hall Hne.
  pose proof (step_stops_when_all_below_one (env 0%nat) e Hall Hne) as Hst.
  assert (Hrun : run_elicitation_session env e = step (env 0%nat) e).
  { unfold run_elicitation_session, max_questions. rewrite run_loop_unfold.
    destruct (step (env 0%nat) e) as [[e1 evs1] st1]. simpl in Hst.
    now destruct st1. }
  split; [exact Hrun|]. split; [exact Hst|].
  rewrite Hrun.
  destruct (step (env 0%nat) e) as [[e1 evs1] st1] eqn:Hs.
  apply step_progress in Hs. now destruct Hs as (Hq & _).
Qed.

(** Instance: the high-confidence priors, every variance 0.1 or 0.5. *)
Lemma low_variance_session_stops_at_once_witness :
  let e := demo_engine MODFED_DIRECT 0 llm_priors in
  let env := fun _ : nat => oracle_answers in
  run_elicitation_session env e = step (env 0%nat) e
  /\ snd (step (env 0%nat) e) <> Continue
  /\ question_count (fst (fst (run_elicitation_session env e)))
     = (question_count e + 1)%Z.
Proof.
  apply low_variance_session_stops_at_once.
  - unfold store_all, llm_priors; simpl.
    repeat constructor; simpl; reflexivity.
  - discriminate.
Defined.

(** ** No update raises a variance *)

Lemma variances_refl u : variances_not_above u u.
Proof.
  unfold variances_not_above. induction (known_beliefs u); constructor; auto.
  apply Qle_refl.
Qed.

Lemma variances_trans u1 u2 u3 :
  variances_not_above u1 u2 -> variances_not_above u2 u3 ->
  variances_not_above u1 u3.
Proof.
  unfold variances_not_above.
  generalize (known_beliefs u1) (known_beliefs u2) (known_beliefs u3).
  intros l1 l2 l3 H12. revert l3.
  induction H12 as [|x y l1 l2 Hxy _ IH]; intros l3 H23;
    inversion H23; subst; constructor; auto.
  eapply Qle_trans; eauto.
Qed.

Lemma values_set_not_above (tbl : Dict.t belief) l b b' :
  Dict.get tbl l = Some b -> variance b' <= variance b ->
  Forall2 (fun x y => variance x <= variance y)
    (Dict.values (Dict.set l b' tbl)) (Dict.values tbl).
Proof.
  assert (Hrefl : forall t : Dict.t belief,
            Forall2 (fun x y => variance x <= variance y)
              (Dict.values t) (Dict.values t)).
  { induction t; constructor; auto. apply Qle_refl. }
  induction tbl as [|[k v] tbl IH]; simpl; [discriminate|].
  destruct (String.eqb k l).
  - intros [= ->] H. simpl. constructor; [exact H | apply Hrefl].
  - intros Hg H. simpl. constructor; [apply Qle_refl | auto].
Qed.

Lemma alter_belief_not_above f u crit lvl :
  (forall b, 0.01 <= variance b -> variance (f b) <= variance b) ->
  variance_floored u ->
  variances_not_above (alter_belief f u crit lvl) u.
Proof.
  intros Hf Hu. unfold alter_belief.
  destruct (Dict.get u crit) as [tbl|] eqn:Hc; [|apply variances_refl].
  destruct (Dict.get tbl lvl) as [b|] eqn:Hl; [|apply variances_refl].
  assert (Hb : 0.01 <= variance b).
  { apply get_In in Hc. unfold variance_floored in Hu.
    rewrite Forall_forall in Hu. specialize (Hu _ Hc). simpl in Hu.
    apply get_In in Hl. rewrite Forall_forall in Hu. exact (Hu _ Hl). }
  unfold variances_not_above, known_beliefs. clear Hu.
  revert Hc. induction u as [|[c t] u IH]; simpl; [discriminate|].
  destruct (String.eqb c crit).
  - intros [= ->]. simpl. apply Forall2_app.
    + eapply values_set_not_above; eauto.
    + fold (known_beliefs u). apply variances_refl.
  - intros Hg. simpl. apply Forall2_app; auto.
    generalize (Dict.values t). intros vs.
    induction vs; constructor; auto. apply Qle_refl.
Qed.

Lemma floor_kept :
  (forall x, 0.01 <= variance x -> 0.01 <= variance (bump_chosen x))
  /\ (forall x, 0.01 <= variance x -> 0.01 <= variance (bump_unchosen x))
  /\ (forall x, 0.01 <= variance x -> 0.01 <= variance (cf_switched_improved x))
  /\ (forall x, 0.01 <= variance x -> 0.01 <= variance (cf_switched_original x))
  /\ (forall x, 0.01 <= variance x -> 0.01 <= variance (cf_stayed_improved x))
  /\ (forall x, 0.01 <= variance x -> 0.01 <= variance (cf_stayed_original x))
  /\ (forall x, 0.01 <= variance x -> 0.01 <= variance (clamp_belief x)).
Proof. repeat split; intros x Hx; simpl; auto; apply py_max_lower. Qed.

Lemma not_raised :
  (forall x, 0.01 <= variance x -> variance (bump_chosen x) <= variance x)
  /\ (forall x, 0.01 <= variance x -> variance (bump_unchosen x) <= variance x)
  /\ (forall x, 0.01 <= variance x -> variance (cf_switched_improved x) <= variance x)
  /\ (forall x, 0.01 <= variance x -> variance (cf_switched_original x) <= variance x)
  /\ (forall x, 0.01 <= variance x -> variance (cf_stayed_improved x) <= variance x)
  /\ (forall x, 0.01 <= variance x -> variance (cf_stayed_original x) <= variance x)
  /\ (forall x, 0.01 <= variance x -> variance (clamp_belief x) <= variance x).
Proof.
  repeat split; intros x Hx; simpl; try apply Qle_refl;
    apply py_max_upper; lra.
Qed.

Lemma clamp_all_not_above u :
  variance_floored u -> variances_not_above (clamp_all u) u.
Proof.
  intros Hu. unfold variances_not_above, known_beliefs, clamp_all.
  induction u as [|[c t] u IH]; simpl; [constructor|].
  inversion Hu as [|? ? Ht Hu']; subst. simpl in Ht.
  apply Forall2_app; [|now apply IH].
  clear - Ht. induction t as [|[l b] t IHt]; simpl; [constructor|].
  inversion Ht as [|? ? Hb Ht']; subst. simpl in Hb.
  constructor; [|now apply IHt].
  simpl. apply py_max_upper; lra.
Qed.

Lemma simplified_update_not_above u chosen unchosen :
  variance_floored u ->
  variances_not_above (update_utilities_simplified u chosen unchosen) u.
Proof.
  destruct floor_kept as (F1 & F2 & _).
  destruct not_raised as (N1 & N2 & _).
  unfold update_utilities_simplified, Dict.items. intros Hu.
  assert (H1 : forall items v, variance_floored v ->
                 variance_floored (fold_left update_chosen_item items v)
                 /\ variances_not_above (fold_left update_chosen_item items v) v).
  { induction items as [|[c l] items IH]; intros v Hv; cbn [fold_left].
    - split; [exact Hv | apply variances_refl].
    - assert (Hs : variance_floored (update_chosen_item v (c, l))
                   /\ variances_not_above (update_chosen_item v (c, l)) v).
      { unfold update_chosen_item. destruct (has_belief v c l).
        - split; [now apply alter_belief_floored
                 | now apply alter_belief_not_above].
        - split; [exact Hv | apply variances_refl]. }
      destruct Hs as [Hs1 Hs2]. destruct (IH _ Hs1) as [I1 I2].
      split; [exact I1 | eapply variances_trans; eauto]. }
  assert (H2 : forall ch items v, variance_floored v ->
                 variances_not_above
                   (fold_left (update_unchosen_item ch) items v) v).
  { intros ch. induction items as [|[c l] items IH]; intros v Hv;
      cbn [fold_left]; [apply variances_refl|].
    assert (Hs : variance_floored (update_unchosen_item ch v (c, l))
                 /\ variances_not_above (update_unchosen_item ch v (c, l)) v).
    { unfold update_unchosen_item. destruct (_ && _).
      - destruct (has_belief v c l).
        + split; [now apply alter_belief_floored
                 | now apply alter_belief_not_above].
        + split; [exact Hv | apply variances_refl].
      - split; [exact Hv | apply variances_refl]. }
    destruct Hs as [Hs1 Hs2].
    eapply variances_trans; [apply IH; exact Hs1 | exact Hs2]. }
  destruct (H1 chosen u Hu) as [G1 G2].
  eapply variances_trans; [apply H2; exact G1 | exact G2].
Qed.

Lemma counterfactual_update_not_above u crit original improved switched :
  variance_floored u ->
  variances_not_above
    (update_utilities_from_counterfactual u crit original improved switched) u.
Proof.
  destruct floor_kept as (_ & _ & F3 & F4 & F5 & F6 & _).
  destruct not_raised as (_ & _ & N3 & N4 & N5 & N6 & _).
  intros Hu. unfold update_utilities_from_counterfactual.
  destruct (_ || _); [apply variances_refl|].
  destruct switched.
  - eapply variances_trans; [apply clamp_all_not_above|].
    + now repeat apply alter_belief_floored.
    + eapply variances_trans; [apply alter_belief_not_above; auto|].
      * now apply alter_belief_floored.
      * now apply alter_belief_not_above.
  - eapply variances_trans; [apply clamp_all_not_above|].
    + now repeat apply alter_belief_floored.
    + eapply variances_trans; [apply alter_belief_not_above; auto|].
      * now apply alter_belief_floored.
      * now apply alter_belief_not_above.
Qed.

Lemma sum_variance_monotone l' l :
  Forall2 (fun x y => variance x <= variance y) l' l ->
  sum_variance l' <= sum_variance l.
Proof.
  induction 1 as [|x y l' l Hxy _ IH]; [apply Qle_refl|].
  change (variance x + sum_variance l' <= variance y + sum_variance l). lra.
Qed.

Lemma convergence_kept u' u :
  variances_not_above u' u ->
  check_convergence u = true -> check_convergence u' = true.
Proof.
  unfold variances_not_above. intros H Hc.
  destruct (known_beliefs u) as [|b l] eqn:Hk.
  - unfold check_convergence in Hc.
    rewrite all_level_data_known, Hk in Hc. discriminate.
  - destruct (known_beliefs u') as [|b' l'] eqn:Hk'; [inversion H|].
    rewrite (check_convergence_nonempty u b l Hk) in Hc.
    rewrite (check_convergence_nonempty u' b' l' Hk').
    apply Qlt_bool_iff in Hc. apply Qlt_bool_iff.
    rewrite total_variance_sum in *.
    eapply Qle_lt_trans; [|exact Hc].
    assert (Hlen : List.length (b' :: l') = List.length (b :: l))
      by (eapply Forall2_length; eauto).
    rewrite Hlen.
    apply Qmult_le_compat_r.
    + now apply sum_variance_monotone.
    + apply Qinv_le_0_compat. apply Qlt_le_weak. apply length_positive.
Qed.

(** X13.  In a store whose variances are all at least 0.01, neither the
    main-choice update nor the counterfactual update raises the variance of
    any belief, and a store that the convergence check accepts is still
    accepted after either update. *)
Theorem updates_never_raise_a_variance u chosen unchosen crit original improved
    switched :
  variance_floored u ->
  let u1 := update_utilities_simplified u chosen unchosen in
  let u2 := update_utilities_from_counterfactual u crit original improved
              switched in
  variances_not_above u1 u
  /\ variances_not_above u2 u
  /\ (check_convergence u = true ->
      check_convergence u1 = true /\ check_convergence u2 = true).
Proof.
  intros Hu u1 u2.
  assert (H1 : variances_not_above u1 u) by now apply simplified_update_not_above.
  assert (H2 : variances_not_above u2 u)
    by now apply counterfactual_update_not_above.
  repeat split; auto; eapply convergence_kept; eauto.
Qed.

(** Instance: the high-confidence priors. *)
Lemma updates_never_raise_a_variance_witness :
  let u1 := update_utilities_simplified llm_priors option_a option_b in
  let u2 := update_utilities_from_counterfactual llm_priors "Price" "high" "mid"
              true in
  variances_not_above u1 llm_priors
  /\ variances_not_above u2 llm_priors
  /\ (check_convergence llm_priors = true ->
      check_convergence u1 = true /\ check_convergence u2 = true).
Proof.
  apply updates_never_raise_a_variance.
  unfold variance_floored, llm_priors; simpl.
  repeat constructor; simpl; lra.
Defined.

(** ** Default priors *)

Lemma nodup3_eqb (a b c : string) :
  NoDup [a; b; c] ->
  String.eqb a b = false /\ String.eqb a c = false /\ String.eqb b c = false.
Proof.
  intros H. inversion H as [|? ? H1 H']; subst.
  inversion H' as [|? ? H2 _]; subst.
  repeat split; apply String.eqb_neq; intros ->.
  - apply H1. now left.
  - apply H1. right. now left.
  - apply H2. now left.
Qed.

Lemma default_priors_explicit cl :
  valid_3x3 cl -> distinct_names cl ->
  generate_default_informed_priors cl
  = map (fun cv : string * list string => (fst cv, default_table (snd cv))) cl.
Proof.
  intros (Hlen & Hnd & Hlv) (_ & Hdl).
  destruct cl as [|[c1 l1] [|[c2 l2] [|[c3 l3] [|? ?]]]]; try discriminate.
  inversion Hlv as [|? ? H1 Hlv1]; subst.
  inversion Hlv1 as [|? ? H2 Hlv2]; subst.
  inversion Hlv2 as [|? ? H3 _]; subst.
  simpl in H1, H2, H3.
  destruct l1 as [|a1 [|a2 [|a3 [|? ?]]]]; try discriminate.
  destruct l2 as [|b1 [|b2 [|b3 [|? ?]]]]; try discriminate.
  destruct l3 as [|d1 [|d2 [|d3 [|? ?]]]]; try discriminate.
  inversion Hdl as [|? ? Ha Hdl1]; subst.
  inversion Hdl1 as [|? ? Hb Hdl2]; subst.
  inversion Hdl2 as [|? ? Hd _]; subst.
  simpl in Ha, Hb, Hd, Hnd.
  destruct (nodup3_eqb _ _ _ Hnd) as (C1 & C2 & C3).
  destruct (nodup3_eqb _ _ _ Ha) as (A1 & A2 & A3).
  destruct (nodup3_eqb _ _ _ Hb) as (B1 & B2 & B3).
  destruct (nodup3_eqb _ _ _ Hd) as (D1 & D2 & D3).
  unfold generate_default_informed_priors, Dict.items.
  cbn [fold_left fill_levels].
  repeat (progress
            (cbn [Dict.set];
             rewrite ?A1, ?A2, ?A3, ?B1, ?B2, ?B3, ?D1, ?D2, ?D3, ?C1, ?C2, ?C3)).
  reflexivity.
Qed.

(** X14.  For three criteria of three levels with distinct names,
    [_generate_default_informed_priors] gives every criterion the table
    (first level: mean 0, variance 0.1; second: 0.3, 3.0; third: -0.1,
    3.0), in the order of the definitions; these priors have the
    criteria's own keys, are in range and are not converged. *)
Theorem default_priors_on_valid_criteria cl :
  valid_3x3 cl -> distinct_names cl ->
  let u := generate_default_informed_priors cl in
  u = map (fun cv : string * list string => (fst cv, default_table (snd cv))) cl
  /\ shape u = cl
  /\ store_in_range u
  /\ check_convergence u = false.
Proof.
  intros Hv Hd. cbv zeta.
  rewrite (default_priors_explicit cl Hv Hd).
  destruct Hv as (Hlen & _ & Hlv).
  destruct cl as [|[c1 l1] [|[c2 l2] [|[c3 l3] [|? ?]]]]; try discriminate.
  inversion Hlv as [|? ? H1 Hlv1]; subst.
  inversion Hlv1 as [|? ? H2 Hlv2]; subst.
  inversion Hlv2 as [|? ? H3 _]; subst.
  simpl in H1, H2, H3.
  destruct l1 as [|a1 [|a2 [|a3 [|? ?]]]]; try discriminate.
  destruct l2 as [|b1 [|b2 [|b3 [|? ?]]]]; try discriminate.
  destruct l3 as [|d1 [|d2 [|d3 [|? ?]]]]; try discriminate.
  split; [reflexivity|]. split; [reflexivity|]. split.
  - unfold store_in_range, belief_in_range. simpl.
    repeat constructor; simpl; lra.
  - reflexivity.
Qed.

(** Instance: the sample configuration. *)
Lemma default_priors_on_valid_criteria_witness :
  let u := generate_default_informed_priors demo_criteria in
  u = map (fun cv : string * list string => (fst cv, default_table (snd cv)))
        demo_criteria
  /\ shape u = demo_criteria
  /\ store_in_range u
  /\ check_convergence u = false.
Proof.
  apply default_priors_on_valid_criteria.
  - exact demo_criteria_valid.
  - exact demo_criteria_distinct.
Defined.

(** ** Priors from the LLM *)

Open Scope Q_scope.

Lemma variance_map_bounds c : 0.5 <= variance_map c /\ variance_map c <= 3.
Proof.
  unfold variance_map.
  destruct (String.eqb c "high"); [lra|].
  destruct (String.eqb c "medium"); lra.
Qed.

Lemma contextual_levels_bounds llm_crit n levels : forall i tbl log tbl' log',
  contextual_levels llm_crit n i levels tbl log = (tbl', log') ->
  Forall (fun lb : string * belief =>
            0.1 <= variance (snd lb) /\ variance (snd lb) <= 3) tbl ->
  Forall (fun v => 0.5 <= v /\ v <= 3) (variances_collected log) ->
  Forall (fun lb : string * belief =>
            0.1 <= variance (snd lb) /\ variance (snd lb) <= 3) tbl'
  /\ Forall (fun v => 0.5 <= v /\ v <= 3) (variances_collected log').
Proof.
  induction levels as [|level rest IH]; intros i tbl log tbl' log';
    cbn [contextual_levels].
  - intros [= <- <-]. auto.
  - destruct (i =? 0)%Z.
    + intros H Ht Hl. eapply IH; eauto.
      apply (Forall_set (fun b => 0.1 <= variance b /\ variance b <= 3)); auto.
      simpl. lra.
    + destruct (Dict.get llm_crit level) as [[[m|] [c|]]|];
        intros H Ht Hl; eapply IH; eauto;
        try (apply (Forall_set (fun b => 0.1 <= variance b /\ variance b <= 3));
             auto; simpl;
             try (pose proof (variance_map_bounds (normalise_confidence c)));
             lra);
        simpl; apply Forall_app; split; auto; constructor; auto;
        try (apply variance_map_bounds); lra.
Qed.

Lemma fold_left_sum l : forall a, fold_left Qplus l a == a + fold_left Qplus l 0.
Proof.
  induction l as [|x l IH]; intros a; simpl; [lra|].
  rewrite (IH (a + x)), (IH (0 + x)). lra.
Qed.

Lemma average_bounds lo hi x l :
  Forall (fun v => lo <= v /\ v <= hi) (x :: l) ->
  lo <= average (x :: l) /\ average (x :: l) <= hi.
Proof.
  intros H. unfold average.
  assert (Hs : lo * inject_Z (Z.of_nat (List.length (x :: l)))
               <= fold_left Qplus (x :: l) 0
               /\ fold_left Qplus (x :: l) 0
                  <= hi * inject_Z (Z.of_nat (List.length (x :: l)))).
  { induction (x :: l) as [|y m IH] in H |- *.
    - simpl. unfold inject_Z. lra.
    - inversion H as [|? ? Hy Hm]; subst.
      rewrite inject_length_succ. cbn [fold_left].
      rewrite fold_left_sum. specialize (IH Hm). lra. }
  pose proof (length_positive x l) as Hp.
  split.
  - apply Qle_shift_div_l; tauto.
  - apply Qle_shift_div_r; tauto.
Qed.

(** X15.  Whatever the LLM answered, the priors that
    [generate_contextual_priors] returns have every variance between 0.1
    and 3.0 (the means are the LLM's numbers, unchecked), and the average
    variance it reports is 10.0 when no level other than a reference level
    exists and lies between 0.5 and 3.0 otherwise. *)
Theorem contextual_priors_variances_are_bounded llm cl u quality avg :
  generate_contextual_priors (Some llm) cl = Some (u, quality, avg) ->
  store_all (fun b => 0.1 <= variance b /\ variance b <= 3) u
  /\ (avg = 10.0 \/ (0.5 <= avg /\ avg <= 3)).
Proof.
  unfold generate_contextual_priors.
  destruct (contextual_criteria llm cl) as [u0 log] eqn:Hc.
  intros [= <- _ <-].
  assert (H : store_all (fun b => 0.1 <= variance b /\ variance b <= 3) u0
              /\ Forall (fun v => 0.5 <= v /\ v <= 3) (variances_collected log)).
  { revert Hc. unfold contextual_criteria, Dict.items.
    set (step0 := fun (acc : utilities * prior_log) (cv : string * list string) => _).
    assert (Hfold : forall l acc,
      store_all (fun b => 0.1 <= variance b /\ variance b <= 3) (fst acc) ->
      Forall (fun v => 0.5 <= v /\ v <= 3) (variances_collected (snd acc)) ->
      store_all (fun b => 0.1 <= variance b /\ variance b <= 3)
        (fst (fold_left step0 l acc))
      /\ Forall (fun v => 0.5 <= v /\ v <= 3)
           (variances_collected (snd (fold_left step0 l acc)))).
    { induction l as [|[c ls] l IH]; intros [v lg] Hv Hl; cbn [fold_left]; auto.
      apply IH; unfold step0; cbn [fst snd] in *;
        destruct (contextual_levels _ _ 0 ls [] lg) as [tbl lg'] eqn:Hcl;
        apply contextual_levels_bounds in Hcl; auto; destruct Hcl as [T1 T2];
        cbn [fst snd]; auto.
      unfold store_all.
      apply (Forall_set (fun t : Dict.t belief =>
               Forall (fun lb => 0.1 <= variance (snd lb) /\ variance (snd lb) <= 3) t));
        auto. }
    intros Hc. specialize (Hfold cl ([], {| variances_collected := [];
      all_confidences := []; heuristic_used_for_any_level := false |})).
    rewrite Hc in Hfold. apply Hfold; constructor. }
  destruct H as [Hu Hv]. split; [exact Hu|].
  destruct (variances_collected log) as [|x l]; [now left|].
  right. now apply average_bounds.
Qed.

(** Instance: one level answered by the LLM, the others by the heuristic. *)
Lemma contextual_priors_variances_are_bounded_witness :
  let llm := [("Price", [("mid", {| llm_mean := Some 1.9;
                                    llm_confidence := Some "HIGH"%string |})])] in
  let r := contextual_criteria llm demo_criteria in
  store_all (fun b => 0.1 <= variance b /\ variance b <= 3) (fst r)
  /\ (average (variances_collected (snd r)) = 10.0
      \/ (0.5 <= average (variances_collected (snd r))
          /\ average (variances_collected (snd r)) <= 3)).
Proof.
  intros llm r.
  apply (contextual_priors_variances_are_bounded llm demo_criteria (fst r)
           (prior_quality_of (snd r))).
  reflexivity.
Defined.

Lemma forallb_high_app cs c :
  forallb (String.eqb "high") (cs ++ [c]) = true ->
  forallb (String.eqb "high") cs = true /\ c = "high"%string.
Proof.
  rewrite forallb_app. cbn [forallb]. rewrite andb_true_r.
  intros H. apply andb_true_iff in H. destruct H as [H1 H2].
  split; auto. apply String.eqb_eq in H2. now subst.
Qed.

(** When the final log is all-high, it was all-high all along, every
    belief has variance at most 0.5 and every collected variance is 0.5. *)
Lemma contextual_levels_all_high llm_crit n levels : forall i tbl log tbl' log',
  contextual_levels llm_crit n i levels tbl log = (tbl', log') ->
  all_high log' ->
  all_high log
  /\ (Forall (fun lb : string * belief => variance (snd lb) <= 0.5) tbl ->
      Forall (fun lb : string * belief => variance (snd lb) <= 0.5) tbl')
  /\ (Forall (fun v => v = 0.5) (variances_collected log) ->
      Forall (fun v => v = 0.5) (variances_collected log'))
  /\ (List.length (all_confidences log) <= List.length (variances_collected log)
      -> List.length (all_confidences log') <= List.length (variances_collected log'))%nat.
Proof.
  induction levels as [|level rest IH]; intros i tbl log tbl' log';
    cbn [contextual_levels].
  - intros [= <- <-]. auto.
  - destruct (i =? 0)%Z.
    + intros H Hg. destruct (IH _ _ _ _ _ H Hg) as (G & T & V & L).
      split; [exact G|]. split; [|auto].
      intros Ht. apply T.
      apply (Forall_set (fun b => variance b <= 0.5)); auto. simpl. lra.
    + destruct (Dict.get llm_crit level) as [[[m|] [c|]]|];
        intros H Hg; destruct (IH _ _ _ _ _ H Hg) as (G & T & V & L);
        try (destruct G as [G _]; simpl in G; discriminate).
      destruct G as [G1 G2]. cbn [heuristic_used_for_any_level all_confidences] in *.
      apply forallb_high_app in G2. destruct G2 as [G2 Hc].
      split; [split; auto|].
      rewrite Hc in *. cbn [variances_collected all_confidences] in *.
      split; [|split].
      * intros Ht. apply T.
        apply (Forall_set (fun b => variance b <= 0.5)); auto. simpl.
        unfold variance_map. simpl. lra.
      * intros Hv. apply V. apply Forall_app. split; auto.
      * intros Hl. apply L. rewrite !length_app. simpl. lia.
Qed.

Lemma contextual_criteria_all_high llm cl u log :
  contextual_criteria llm cl = (u, log) ->
  all_high log ->
  store_all (fun b => variance b <= 0.5) u
  /\ Forall (fun v => v = 0.5) (variances_collected log)
  /\ (List.length (all_confidences log) <= List.length (variances_collected log))%nat.
Proof.
  unfold contextual_criteria, Dict.items.
  set (step0 := fun (acc : utilities * prior_log) (cv : string * list string) => _).
  assert (Hfold : forall l acc,
    all_high (snd (fold_left step0 l acc)) ->
    all_high (snd acc)
    /\ (store_all (fun b => variance b <= 0.5) (fst acc) ->
        store_all (fun b => variance b <= 0.5) (fst (fold_left step0 l acc)))
    /\ (Forall (fun v => v = 0.5) (variances_collected (snd acc)) ->
        Forall (fun v => v = 0.5)
          (variances_collected (snd (fold_left step0 l acc))))
    /\ (List.length (all_confidences (snd acc))
        <= List.length (variances_collected (snd acc)) ->
        List.length (all_confidences (snd (fold_left step0 l acc)))
        <= List.length (variances_collected (snd (fold_left step0 l acc))))%nat).
  { induction l as [|[c ls] l IH]; intros [v lg] Hg; cbn [fold_left] in *; auto.
    destruct (IH _ Hg) as (G & S & V & L). clear IH.
    unfold step0 in G, S, V, L |- *. cbn [fst snd] in *.
    destruct (contextual_levels _ _ 0 ls [] lg) as [tbl lg'] eqn:Hcl.
    cbn [fst snd] in *.
    destruct (contextual_levels_all_high _ _ _ _ _ _ _ _ Hcl G) as (G' & T' & V' & L').
    split; [exact G'|]. split; [|split]; auto.
    intros Hv. apply S. unfold store_all.
    apply (Forall_set (fun t : Dict.t belief =>
             Forall (fun lb => variance (snd lb) <= 0.5) t)); auto. }
  intros Hc Hg.
  specialize (Hfold cl ([], {| variances_collected := [];
    all_confidences := []; heuristic_used_for_any_level := false |})).
  rewrite Hc in Hfold. destruct (Hfold Hg) as (_ & S & V & L).
  cbn [fst snd] in *. repeat split; [apply S | apply V | apply L]; constructor.
Qed.

Lemma high_quality_log log :
  prior_quality_of log = "llm_success_high_confidence"%string ->
  all_high log /\ all_confidences log <> [].
Proof.
  unfold prior_quality_of, all_high.
  destruct (heuristic_used_for_any_level log); [discriminate|].
  destruct (all_confidences log) as [|c cs]; [discriminate|].
  destruct (forallb (String.eqb "high") (c :: cs)) eqn:E.
  - intros _. repeat split; auto. discriminate.
  - destruct (forallb (String.eqb "low") (c :: cs)); discriminate.
Qed.

Lemma average_constant c x l :
  Forall (fun v => v = c) (x :: l) -> average (x :: l) == c.
Proof.
  intros H.
  destruct (average_bounds c c x l) as [H1 H2].
  - revert H. apply Forall_impl. intros v ->. split; apply Qle_refl.
  - now apply Qle_antisym.
Qed.

(** X16.  When the prior generator reports "llm_success_high_confidence",
    the average variance it returns is 0.5, the application selects the
    direct adaptive strategy, every prior variance is at most 0.5, and the
    session built on these priors ends after its first iteration: the
    direct adaptive strategy asks one question at most. *)
Theorem high_confidence_priors_end_the_session_at_once llm cl u avg :
  generate_contextual_priors (Some llm) cl
  = Some (u, "llm_success_high_confidence"%string, avg) ->
  known_beliefs u <> [] ->
  avg == 0.5
  /\ select_initial_strategy "llm_success_high_confidence" avg
     = (MODFED_DIRECT, 0%Z)
  /\ store_all (fun b => variance b <= 0.5) u
  /\ forall env up,
       let e := engine_init cl up (Some u) MODFED_DIRECT 0 in
       utilities_of e = u
       /\ run_elicitation_session env e = step (env 0%nat) e
       /\ snd (step (env 0%nat) e) <> Continue.
Proof.
  unfold generate_contextual_priors.
  destruct (contextual_criteria llm cl) as [u0 log] eqn:Hc.
  intros H Hne. injection H as -> Hq <-.
  apply high_quality_log in Hq. destruct Hq as [Hg Hcs].
  destruct (contextual_criteria_all_high _ _ _ _ Hc Hg) as (Hs & Hv & Hl).
  match goal with |- ?x == _ /\ _ => set (a := x) end.
  assert (Havg : a == 0.5).
  { subst a. destruct (variances_collected log) as [|x l].
    - destruct (all_confidences log); [congruence | simpl in Hl; lia].
    - now apply average_constant. }
  clearbody a.
  split; [exact Havg|]. split; [|split; [exact Hs|]].
  - unfold select_initial_strategy. simpl String.eqb.
    assert (H1 : Qlt_bool VERY_DIFFUSE_VARIANCE_THRESHOLD a = false).
    { destruct (Qlt_bool VERY_DIFFUSE_VARIANCE_THRESHOLD a) eqn:E; auto.
      apply Qlt_bool_iff in E. unfold VERY_DIFFUSE_VARIANCE_THRESHOLD in E.
      rewrite Havg in E. lra. }
    assert (H2 : Qle_bool a STRONG_PRIOR_VARIANCE_THRESHOLD = true).
    { apply Qle_bool_iff. unfold STRONG_PRIOR_VARIANCE_THRESHOLD.
      rewrite Havg. lra. }
    rewrite H1, H2. reflexivity.
  - intros env up. cbv zeta.
    set (e := engine_init cl up (Some u) MODFED_DIRECT 0).
    assert (Hu : utilities_of e = u).
    { subst e. unfold engine_init. cbn [utilities_of].
      destruct u as [|x u']; [|reflexivity]. now elim Hne. }
    assert (Hall : store_all (fun b => variance b < 1) (utilities_of e)).
    { rewrite Hu. unfold store_all in *. revert Hs. apply Forall_impl.
      intros ct. apply Forall_impl. intros lb Hb. lra. }
    assert (Hk : known_beliefs (utilities_of e) <> []) by now rewrite Hu.
    pose proof (step_stops_when_all_below_one (env 0%nat) e Hall Hk) as Hst.
    split; [exact Hu|]. split; [|exact Hst].
    unfold run_elicitation_session, max_questions. rewrite run_loop_unfold.
    destruct (step (env 0%nat) e) as [[e1 evs1] st1]. simpl in Hst.
    now destruct st1.
Qed.

(** Instance: the LLM answers every level with high confidence. *)
Lemma high_confidence_priors_end_the_session_at_once_witness :
  let hi := fun m => {| llm_mean := Some m; llm_confidence := Some "High"%string |} in
  let llm :=
    [("Price", [("mid", hi 1.9); ("high", hi (-0.5))]);
     ("Speed", [("medium", hi 0.8); ("fast", hi 1.2)]);
     ("Support", [("standard", hi 0.5); ("premium", hi 1.0)])] in
  let r := contextual_criteria llm demo_criteria in
  average (variances_collected (snd r)) == 0.5
  /\ select_initial_strategy "llm_success_high_confidence"
       (average (variances_collected (snd r))) = (MODFED_DIRECT, 0%Z)
  /\ store_all (fun b => variance b <= 0.5) (fst r)
  /\ forall env up,
       let e := engine_init demo_criteria up (Some (fst r)) MODFED_DIRECT 0 in
       utilities_of e = fst r
       /\ run_elicitation_session env e = step (env 0%nat) e
       /\ snd (step (env 0%nat) e) <> Continue.
Proof.
  intros hi llm r.
  apply (high_confidence_priors_end_the_session_at_once llm demo_criteria).
  - reflexivity.
  - discriminate.
Defined.

(** ** The target of the counterfactual *)

Lemma Qlt_bool_false a b : Qlt_bool a b = false -> b <= a.
Proof.
  unfold Qlt_bool. rewrite negb_false_iff. apply Qle_bool_iff.
Qed.

(** [first_max] returns the first element of the greatest variance. *)
Lemma first_max_split l : forall pre best mid,
  Forall (fun y => candidate_variance y < candidate_variance best) pre ->
  Forall (fun y => candidate_variance y <= candidate_variance best) mid ->
  exists before after,
    pre ++ best :: mid ++ l = before ++ first_max best l :: after
    /\ Forall (fun y => candidate_variance y
                         < candidate_variance (first_max best l)) before
    /\ Forall (fun y => candidate_variance y
                         <= candidate_variance (first_max best l)) after.
Proof.
  induction l as [|x l IH]; intros pre best mid Hpre Hmid; cbn [first_max].
  - exists pre, mid. rewrite app_nil_r. auto.
  - fold (candidate_variance best). fold (candidate_variance x).
    destruct (Qlt_bool (candidate_variance best) (candidate_variance x)) eqn:E.
    + apply Qlt_bool_iff in E.
      destruct (IH (pre ++ best :: mid) x []) as (before & after & H1 & H2 & H3).
      * apply Forall_app. split; [|constructor].
        -- revert Hpre. apply Forall_impl. intros y Hy. lra.
        -- exact E.
        -- revert Hmid. apply Forall_impl. intros y Hy. lra.
      * constructor.
      * exists before, after. split; [|auto].
        rewrite <- H1. rewrite <- app_assoc. reflexivity.
    + apply Qlt_bool_false in E.
      destruct (IH pre best (mid ++ [x])) as (before & after & H1 & H2 & H3).
      * exact Hpre.
      * apply Forall_app. split; [exact Hmid|]. constructor; [exact E|constructor].
      * exists before, after. split; [|auto].
        rewrite <- H1. rewrite <- app_assoc. reflexivity.
Qed.

(** What a candidate of [uncertain_levels] stands for. *)
Lemma uncertain_levels_member e p v c l i :
  In (v, c, l, i) (uncertain_levels e p) ->
  Dict.get p c = Some l
  /\ list_index (levels_of e c) l = Some i
  /\ exists tbl b,
       In (c, tbl) (utilities_of e) /\ Dict.get tbl l = Some b /\ variance b = v.
Proof.
  unfold uncertain_levels, levels_of. intros H.
  apply in_flat_map in H. destruct H as [[crit tbl] [Hin H]].
  destruct (Dict.get p crit) as [actual|] eqn:Hp; [|destruct H].
  destruct (Dict.get (criteria_levels e) crit) as [[|d0 defs]|] eqn:Hd;
    try destruct H.
  destruct (list_index (d0 :: defs) actual) as [idx|] eqn:Hi; [|destruct H].
  destruct (Dict.get tbl actual) as [b|] eqn:Hb; [|destruct H].
  destruct H as [E|[]]. injection E as <- <- <- <-.
  rewrite Hd. repeat split; auto. exists tbl, b. auto.
Qed.

(** X17.  When some level of the profile is known to the belief store,
    [_find_most_uncertain_level] returns the first candidate of the
    greatest variance: every candidate before it in the order of the store
    has a strictly smaller variance, none after it has a greater one; the
    target is the level the profile carries on the returned criterion, with
    its index in the criterion's level list, and the variance compared is
    the one the store holds for it. *)
Theorem most_uncertain_level_is_first_maximum e p :
  uncertain_levels e p <> [] ->
  exists v crit lvl idx before after,
    find_most_uncertain_level e p = (Some crit, lvl, idx)
    /\ uncertain_levels e p = before ++ (v, crit, lvl, idx) :: after
    /\ Forall (fun y => candidate_variance y < v) before
    /\ Forall (fun y => candidate_variance y <= v) after
    /\ Dict.get p crit = Some lvl
    /\ list_index (levels_of e crit) lvl = Some idx
    /\ exists tbl b,
         In (crit, tbl) (utilities_of e)
         /\ Dict.get tbl lvl = Some b /\ variance b = v.
Proof.
  intros Hne. unfold find_most_uncertain_level.
  destruct (uncertain_levels e p) as [|x cands] eqn:Hu; [congruence|].
  destruct (first_max_split cands [] x []) as (before & after & H1 & H2 & H3);
    try constructor.
  cbn [app] in H1.
  destruct (first_max x cands) as [[[v crit] lvl] idx] eqn:Hm.
  exists v, crit, lvl, idx, before, after.
  split; [reflexivity|]. split; [exact H1|].
  split; [exact H2|]. split; [exact H3|].
  apply (uncertain_levels_member e p v crit lvl idx).
  rewrite Hu, H1. apply in_or_app. right. now left.
Qed.

(** Instance: on a store where the rejected option's price level has the
    greatest variance, the target is that level. *)
Lemma most_uncertain_level_is_first_maximum_witness :
  exists v crit lvl idx before after,
    find_most_uncertain_level (demo_engine PYTHON_ORTHOGONAL_CF 0 llm_priors)
      option_b = (Some crit, lvl, idx)
    /\ uncertain_levels (demo_engine PYTHON_ORTHOGONAL_CF 0 llm_priors) option_b
       = before ++ (v, crit, lvl, idx) :: after
    /\ Forall (fun y => candidate_variance y < v) before
    /\ Forall (fun y => candidate_variance y <= v) after
    /\ Dict.get option_b crit = Some lvl
    /\ list_index (levels_of (demo_engine PYTHON_ORTHOGONAL_CF 0 llm_priors) crit)
         lvl = Some idx
    /\ exists tbl b,
         In (crit, tbl)
            (utilities_of (demo_engine PYTHON_ORTHOGONAL_CF 0 llm_priors))
         /\ Dict.get tbl lvl = Some b /\ variance b = v.
Proof.
  apply (most_uncertain_level_is_first_maximum
           (demo_engine PYTHON_ORTHOGONAL_CF 0 llm_priors) option_b).
  vm_compute. discriminate.
Defined.

(** ** The variances over a session *)

Lemma answer_not_above inp e a b cf e' evs st :
  variance_floored (utilities_of e) ->
  answer inp e a b cf = (e', evs, st) ->
  variance_floored (utilities_of e')
  /\ variances_not_above (utilities_of e') (utilities_of e).
Proof.
  intros Hu Ha. split.
  - destruct floor_kept as (K1 & K2 & K3 & K4 & K5 & K6 & K7).
    exact (answer_all (fun b => 0.01 <= variance b) inp e a b cf e' evs st
             K1 K2 K3 K4 K5 K6 K7 Hu Ha).
  - revert Ha. unfold answer.
    set (chosen := if main_choice_is_a inp then a else b).
    set (rejected := if main_choice_is_a inp then b else a).
    set (e3 := set_utilities _ _).
    assert (H3 : variances_not_above (utilities_of e3) (utilities_of e)).
    { unfold e3. simpl. now apply simplified_update_not_above. }
    assert (F3 : variance_floored (utilities_of e3)).
    { unfold e3. simpl. now apply simplified_update_keeps_variance_floor. }
    clearbody e3.
    destruct cf.
    + unfold ask_and_process_counterfactual.
      destruct (counterfactual_plan e3 chosen rejected).
      * destruct (check_convergence _); now intros [= <- <- <-].
      * now intros [= <- <- <-].
      * cbn [utilities_of set_utilities].
        destruct (check_convergence _); intros [= <- <- <-]; simpl;
          (eapply variances_trans; [|exact H3]);
          now apply counterfactual_update_not_above.
    + destruct (check_convergence _); now intros [= <- <- <-].
Qed.

Lemma step_not_above inp e e' evs st :
  variance_floored (utilities_of e) ->
  step inp e = (e', evs, st) ->
  variance_floored (utilities_of e')
  /\ variances_not_above (utilities_of e') (utilities_of e).
Proof.
  intros Hu. unfold step.
  destruct (generate inp _) as [[e1 evs1] g] eqn:Hg.
  apply generate_data in Hg. destruct Hg as ((Hu1 & _) & _).
  cbn [utilities_of set_question_count] in Hu1.
  assert (Hsame : variance_floored (utilities_of e1)
                  /\ variances_not_above (utilities_of e1) (utilities_of e)).
  { rewrite Hu1. split; [exact Hu | apply variances_refl]. }
  destruct g as [| |[pa|] [pb|] cf]; try (intros [= <- <- <-]; exact Hsame).
  destruct (answer inp e1 pa pb cf) as [[e4 evs4] st4] eqn:Ha.
  intros [= <- <- <-].
  apply answer_not_above in Ha; [|now rewrite Hu1].
  now rewrite Hu1 in Ha.
Qed.

Lemma run_loop_not_above fuel : forall i env e e' evs st,
  variance_floored (utilities_of e) ->
  run_loop fuel i env e = (e', evs, st) ->
  variance_floored (utilities_of e')
  /\ variances_not_above (utilities_of e') (utilities_of e).
Proof.
  induction fuel as [|fuel IH]; intros i env e e' evs st Hu; cbn [run_loop].
  - intros [= <- <- <-]. split; [exact Hu | apply variances_refl].
  - destruct (step (env i) e) as [[e1 evs1] st1] eqn:Hs.
    apply step_not_above in Hs; [|exact Hu]. destruct Hs as [F1 N1].
    destruct st1; try (intros [= <- <- <-]; now split).
    destruct (run_loop fuel (S i) env e1) as [[e2 evs2] st2] eqn:Hr.
    apply IH in Hr; [|exact F1]. destruct Hr as [F2 N2].
    intros [= <- <- <-]. split; [exact F2|].
    eapply variances_trans; eauto.
Qed.

(** X18.  Over a whole session that starts from a store whose variances
    are all at least 0.01, the floor is kept, no belief ends with a greater
    variance than it started with, so the sum of the variances does not
    grow, and a store the convergence check accepts at the start is still
    accepted at the end. *)
Theorem session_never_raises_a_variance env e e' evs st :
  variance_floored (utilities_of e) ->
  run_elicitation_session env e = (e', evs, st) ->
  variance_floored (utilities_of e')
  /\ variances_not_above (utilities_of e') (utilities_of e)
  /\ sum_variance (known_beliefs (utilities_of e'))
     <= sum_variance (known_beliefs (utilities_of e))
  /\ (check_convergence (utilities_of e) = true ->
      check_convergence (utilities_of e') = true).
Proof.
  unfold run_elicitation_session. intros Hu Hr.
  apply run_loop_not_above in Hr; [|exact Hu]. destruct Hr as [F N].
  split; [exact F|]. split; [exact N|]. split.
  - now apply sum_variance_monotone.
  - now apply convergence_kept.
Qed.

(** Instance: a block session over diffuse priors whose oracle is down. *)
Lemma session_never_raises_a_variance_witness :
  let e := demo_engine CEA_BLOCK_CF 4 (demo_store 0 3) in
  let r := run_elicitation_session (fun _ => oracle_down) e in
  variance_floored (utilities_of (fst (fst r)))
  /\ variances_not_above (utilities_of (fst (fst r))) (utilities_of e)
  /\ sum_variance (known_beliefs (utilities_of (fst (fst r))))
     <= sum_variance (known_beliefs (utilities_of e))
  /\ (check_convergence (utilities_of e) = true ->
      check_convergence (utilities_of (fst (fst r))) = true).
Proof.
  intros e r.
  apply (session_never_raises_a_variance (fun _ => oracle_down) e
           (fst (fst r)) (snd (fst r)) (snd r)).
  - unfold variance_floored, e, demo_store; simpl.
    repeat constructor; simpl; lra.
  - subst r. now destruct (run_elicitation_session (fun _ => oracle_down) e)
      as [[e' evs] st].
Defined.

(** ** The orthogonal generator off a 3 x 3 configuration *)

Lemma fill_profiles_fails cl names : forall i a b pa pb,
  Exists (fun c => match Dict.get cl c with
                   | Some l => List.length l <> 3%nat
                   | None => True
                   end) names ->
  fill_profiles cl names i a b pa pb = None.
Proof.
  induction names as [|c names IH]; intros i a b pa pb Hex;
    [inversion Hex|].
  cbn [fill_profiles].
  destruct (Dict.get cl c) as [l|] eqn:Hg; [|reflexivity].
  destruct (Nat.eqb (List.length l) 3) eqn:E; cbn [negb]; [|reflexivity].
  apply Nat.eqb_eq in E.
  destruct (py_index l (nth i a 0%Z)); [|reflexivity].
  destruct (py_index l (nth i b 0%Z)); [|reflexivity].
  apply IH. inversion Hex as [? ? H|? ? H]; subst; [|exact H].
  rewrite Hg in H. contradiction.
Qed.

Lemma orthogonal_pair_off_3x3 e :
  NoDup (Dict.keys (criteria_levels e)) ->
  ~ valid_3x3 (criteria_levels e) ->
  get_python_orthogonal_pair e = (None, e).
Proof.
  intros Hnd Hnv. unfold get_python_orthogonal_pair.
  destruct (Nat.eqb (List.length (criteria_levels e)) 3) eqn:E; cbn [negb];
    [|reflexivity].
  apply Nat.eqb_eq in E.
  rewrite fill_profiles_fails; [reflexivity|].
  assert (Hex : Exists (fun cv : string * list string =>
                          ~ List.length (snd cv) = 3%nat) (criteria_levels e)).
  { apply neg_Forall_Exists_neg.
    - intros cv. apply Nat.eq_dec.
    - intros Hall. apply Hnv. repeat split; auto. }
  apply Exists_exists in Hex. destruct Hex as [[c l] [Hin Hl]].
  apply Exists_exists. exists c. split.
  - unfold Dict.keys. apply in_map_iff. exists (c, l). auto.
  - rewrite (In_get_nodup _ _ _ Hnd Hin). exact Hl.
Qed.

(** X19.  With distinct criterion names, the orthogonal generator fails
    exactly when the criteria are not three criteria of three levels each;
    a failed call leaves the engine, its counter included, as it was; and a
    session whose current phase is the orthogonal kickstart then ends in
    its first iteration without a request to the oracle and without a
    question: only the two question counters have moved. *)
Theorem orthogonal_generator_needs_3x3 e :
  NoDup (Dict.keys (criteria_levels e)) ->
  (fst (get_python_orthogonal_pair e) = None
   <-> ~ valid_3x3 (criteria_levels e))
  /\ (fst (get_python_orthogonal_pair e) = None ->
      snd (get_python_orthogonal_pair e) = e)
  /\ (~ valid_3x3 (criteria_levels e) ->
      current_phase_strategy e = PYTHON_ORTHOGONAL_CF ->
      forall env,
        run_elicitation_session env e
        = (set_questions_done
             (set_question_count e (question_count e + 1)%Z)
             (initial_questions_done e + 1)%Z,
           [], Break)).
Proof.
  intros Hnd. split; [split|split].
  - intros Hnone Hv. rewrite (orthogonal_pair_on_valid e Hv) in Hnone.
    discriminate.
  - intros Hnv. now rewrite orthogonal_pair_off_3x3.
  - unfold get_python_orthogonal_pair.
    destruct (negb _); [reflexivity|].
    destruct (fill_profiles _ _ _ _ _ _ _) as [[pa pb]|]; [discriminate|].
    reflexivity.
  - intros Hnv Hcps env.
    unfold run_elicitation_session, max_questions.
    rewrite run_loop_unfold. unfold step.
    set (e0 := set_question_count e (question_count e + 1)%Z).
    assert (H0 : current_phase_strategy e0 = PYTHON_ORTHOGONAL_CF)
      by exact Hcps.
    unfold generate. rewrite H0. unfold generate_orthogonal.
    rewrite orthogonal_pair_off_3x3; [reflexivity | exact Hnd | exact Hnv].
Qed.

(** Instance: two criteria. *)
Lemma orthogonal_generator_needs_3x3_witness :
  let e := engine_init [("Price", ["low"; "mid"; "high"]);
                        ("Speed", ["slow"; "medium"; "fast"])]
             empty_profile None PYTHON_ORTHOGONAL_CF 0 in
  (fst (get_python_orthogonal_pair e) = None
   <-> ~ valid_3x3 (criteria_levels e))
  /\ (fst (get_python_orthogonal_pair e) = None ->
      snd (get_python_orthogonal_pair e) = e)
  /\ (~ valid_3x3 (criteria_levels e) ->
      current_phase_strategy e = PYTHON_ORTHOGONAL_CF ->
      forall env,
        run_elicitation_session env e
        = (set_questions_done
             (set_question_count e (question_count e + 1)%Z)
             (initial_questions_done e + 1)%Z,
           [], Break)).
Proof.
  intros e. apply (orthogonal_generator_needs_3x3 e).
  simpl. repeat constructor; simpl; intuition discriminate.
Defined.

(** ** A failed block fetch *)

Lemma generate_block_failure inp e :
  valid_3x3 (criteria_levels e) ->
  cache_exhausted e = true ->
  (block_reply inp = None \/ block_reply inp = Some []) ->
  exists e1,
    generate_block inp e
    = (e1, [RequestBlock; BlockFetchFailed],
       GenPair
         (Some (row_profile (criteria_levels e)
                  (fst (rows_at (orthogonal_fallback_pair_idx_counter e + 1)))))
         (Some (row_profile (criteria_levels e)
                  (snd (rows_at (orthogonal_fallback_pair_idx_counter e + 1)))))
         true)
    /\ criteria_levels e1 = criteria_levels e
    /\ orthogonal_fallback_pair_idx_counter e1
       = (orthogonal_fallback_pair_idx_counter e + 2)%Z
    /\ initial_strategy e1 = PYTHON_ORTHOGONAL_CF
    /\ MAX_PYTHON_ORTHO_CF_QUESTIONS e1 = (initial_questions_done e + 1)%Z
    /\ initial_questions_done e1 = 1%Z.
Proof.
  intros Hv Hex Hreply. unfold generate_block. rewrite Hex.
  rewrite (orthogonal_pair_on_valid e Hv).
  set (e' := set_questions_done _ 0).
  assert (He' : criteria_levels e' = criteria_levels e
                /\ orthogonal_fallback_pair_idx_counter e'
                   = (orthogonal_fallback_pair_idx_counter e + 1)%Z
                /\ cache_exhausted e' = true
                /\ initial_strategy e' = PYTHON_ORTHOGONAL_CF
                /\ MAX_PYTHON_ORTHO_CF_QUESTIONS e'
                   = (initial_questions_done e + 1)%Z
                /\ initial_questions_done e' = 0%Z).
  { unfold e'. destruct e. repeat split; auto. }
  clearbody e'. destruct He' as (Hcl & Hcnt & Hex' & Hs & Hm & Hd).
  assert (Hv' : valid_3x3 (criteria_levels e')) by now rewrite Hcl.
  destruct Hreply as [Hr | Hr]; rewrite Hr; rewrite Hex'; cbn [negb];
    rewrite (orthogonal_pair_on_valid e' Hv'); rewrite Hcl, Hcnt;
    eexists; (split; [reflexivity|]); simpl; rewrite ?Hcl, ?Hcnt, ?Hs, ?Hm, ?Hd;
    repeat split; auto; lia.
Qed.

(** X20.  In the block kickstart on a 3 x 3 configuration, an iteration
    whose block fetch fails calls the orthogonal generator twice: the pair
    of the first call is discarded, the question asked is the pair of the
    second call, and the generator's counter has advanced by two.  The
    engine is then in the orthogonal kickstart with one question done and
    a question budget of the earlier count plus one. *)
Theorem block_failure_skips_an_orthogonal_pair inp e :
  valid_3x3 (criteria_levels e) ->
  current_phase_strategy e = CEA_BLOCK_CF ->
  cache_exhausted e = true ->
  (block_reply inp = None \/ block_reply inp = Some []) ->
  exists e' tail st,
    step inp e
    = (e',
       RequestBlock :: BlockFetchFailed
         :: AskQuestion
              (row_profile (criteria_levels e)
                 (fst (rows_at (orthogonal_fallback_pair_idx_counter e + 1))))
              (row_profile (criteria_levels e)
                 (snd (rows_at (orthogonal_fallback_pair_idx_counter e + 1))))
         :: tail,
       st)
    /\ orthogonal_fallback_pair_idx_counter e'
       = (orthogonal_fallback_pair_idx_counter e + 2)%Z
    /\ initial_strategy e' = PYTHON_ORTHOGONAL_CF
    /\ MAX_PYTHON_ORTHO_CF_QUESTIONS e' = (initial_questions_done e + 1)%Z
    /\ initial_questions_done e' = 1%Z.
Proof.
  intros Hv Hcps Hex Hreply. unfold step.
  set (e0 := set_question_count e (question_count e + 1)%Z).
  assert (H0 : current_phase_strategy e0 = CEA_BLOCK_CF) by exact Hcps.
  unfold generate. rewrite H0.
  destruct (generate_block_failure inp e0) as (e1 & Hg & Hcl & Hcnt & Hs & Hm & Hd);
    [exact Hv | exact Hex | exact Hreply |].
  rewrite Hg.
  destruct (answer inp e1 _ _ true) as [[e4 evs4] st4] eqn:Ha.
  pose proof (answer_control _ _ _ _ _ _ _ _ Ha) as (Hc & _).
  apply answer_trace in Ha. destruct Ha as (tail & -> & _).
  exists e4, tail, st4. split; [reflexivity|].
  unfold same_control in Hc.
  destruct Hc as (_ & C2 & C3 & _ & C5 & C6 & _).
  rewrite C2, C3, C5, C6. auto.
Qed.

(** Instance: the first iteration of a block session whose oracle is
    down. *)
Lemma block_failure_skips_an_orthogonal_pair_witness :
  let e := demo_engine CEA_BLOCK_CF 4 (demo_store 0 3) in
  exists e' tail st,
    step oracle_down e
    = (e',
       RequestBlock :: BlockFetchFailed
         :: AskQuestion
              (row_profile (criteria_levels e)
                 (fst (rows_at (orthogonal_fallback_pair_idx_counter e + 1))))
              (row_profile (criteria_levels e)
                 (snd (rows_at (orthogonal_fallback_pair_idx_counter e + 1))))
         :: tail,
       st)
    /\ orthogonal_fallback_pair_idx_counter e'
       = (orthogonal_fallback_pair_idx_counter e + 2)%Z
    /\ initial_strategy e' = PYTHON_ORTHOGONAL_CF
    /\ MAX_PYTHON_ORTHO_CF_QUESTIONS e' = (initial_questions_done e + 1)%Z
    /\ initial_questions_done e' = 1%Z.
Proof.
  intros e. apply (block_failure_skips_an_orthogonal_pair oracle_down e).
  - exact demo_criteria_valid.
  - reflexivity.
  - reflexivity.
  - now left.
Defined.

(** ** The adaptive phase is absorbing *)

Lemma adaptive_phase_mono e e' :
  initial_strategy e' = initial_strategy e ->
  MAX_PYTHON_ORTHO_CF_QUESTIONS e' = MAX_PYTHON_ORTHO_CF_QUESTIONS e ->
  initial_block_size_cea e' = initial_block_size_cea e ->
  (initial_questions_done e <= initial_questions_done e')%Z ->
  adaptive_phase e -> adaptive_phase e'.
Proof.
  unfold adaptive_phase, current_phase_strategy.
  intros -> -> -> Hd.
  destruct (initial_strategy e); cbn [strategy_eqb andb]; auto.
  - destruct (Z.leb_spec (MAX_PYTHON_ORTHO_CF_QUESTIONS e) (initial_questions_done e));
      destruct (Z.leb_spec (MAX_PYTHON_ORTHO_CF_QUESTIONS e) (initial_questions_done e'));
      auto; lia.
  - destruct (Z.leb_spec (initial_block_size_cea e) (initial_questions_done e));
      destruct (Z.leb_spec (initial_block_size_cea e) (initial_questions_done e'));
      auto; lia.
Qed.

Lemma orthogonal_pair_budget e :
  let e' := snd (get_python_orthogonal_pair e) in
  MAX_PYTHON_ORTHO_CF_QUESTIONS e' = MAX_PYTHON_ORTHO_CF_QUESTIONS e
  /\ initial_block_size_cea e' = initial_block_size_cea e.
Proof.
  unfold get_python_orthogonal_pair.
  destruct (negb _); simpl; auto.
  destruct (fill_profiles _ _ _ _ _ _ _) as [[pa pb]|]; simpl; auto.
Qed.

Lemma generate_adaptive_keeps_phase cps inp e e1 evs g :
  adaptive_phase e ->
  generate_adaptive cps inp e = (e1, evs, g) ->
  adaptive_phase e1
  /\ (forall a b cf, g = GenPair a b cf -> cf = false).
Proof.
  intros Hph. unfold generate_adaptive.
  match goal with
  | |- context [if ?c then incr_done e else e] =>
      set (e0 := if c then incr_done e else e)
  end.
  assert (H0 : adaptive_phase e0).
  { apply (adaptive_phase_mono e); auto;
      unfold e0; destruct (_ || _); simpl; auto; lia. }
  clearbody e0.
  destruct (single_reply inp) as [[a b]|].
  - intros [= <- <- <-]. split.
    + now apply (adaptive_phase_mono e0).
    + now intros ? ? ? [= _ _ <-].
  - pose proof (orthogonal_pair_frame e0) as (_ & F2 & _ & F4).
    pose proof (orthogonal_pair_budget e0) as (B1 & B2).
    destruct (get_python_orthogonal_pair e0) as [r e'].
    cbn [snd] in F2, F4, B1, B2.
    assert (H1 : adaptive_phase
                   (set_failures e' (r_idefix_consecutive_failures e' + 1)%Z)).
    { apply (adaptive_phase_mono e0); simpl; auto. lia. }
    destruct r as [[a b]|]; intros [= <- <- <-]; (split; [exact H1|]).
    + now intros ? ? ? [= _ _ <-].
    + discriminate.
Qed.

Lemma step_adaptive inp e e' evs st :
  adaptive_phase e ->
  step inp e = (e', evs, st) ->
  adaptive_phase e'
  /\ filter is_ask_counterfactual evs = []
  /\ filter is_request evs = [RequestSingle]
  /\ question_count e' = (question_count e + 1)%Z.
Proof.
  intros Hph Hs.
  pose proof (step_progress _ _ _ _ _ Hs) as (Hq & _).
  revert Hs. unfold step.
  set (e0 := set_question_count e (question_count e + 1)%Z).
  assert (H0 : adaptive_phase e0) by exact Hph.
  rewrite (generate_adaptive_phase inp e0 H0).
  destruct (generate_adaptive _ inp e0) as [[e1 evs1] g] eqn:Hg.
  pose proof (generate_adaptive_keeps_phase _ _ _ _ _ _ H0 Hg) as (H1 & Hcf).
  apply generate_adaptive_data in Hg. destruct Hg as (_ & _ & _ & Hev).
  assert (Hreq : filter is_request evs1 = [RequestSingle]
                 /\ filter is_ask_counterfactual evs1 = []).
  { destruct Hev as [->|[->| ->]]; auto. }
  destruct Hreq as [Hreq Hnocf].
  destruct g as [| |[pa|] [pb|] cf];
    try (intros [= <- <- <-]; rewrite ?filter_app, ?Hreq, ?Hnocf; now auto).
  rewrite (Hcf _ _ _ eq_refl).
  destruct (answer inp e1 pa pb false) as [[e4 evs4] st4] eqn:Ha.
  pose proof (answer_control _ _ _ _ _ _ _ _ Ha) as (Hc & _).
  apply answer_trace in Ha.
  destruct Ha as (tail & -> & Hfu & _ & Hno & _).
  intros [= <- <- <-].
  unfold same_control in Hc.
  destruct Hc as (_ & _ & C3 & C4 & C5 & C6 & _).
  split; [|split; [|split]].
  - apply (adaptive_phase_mono e1); auto. lia.
  - rewrite filter_app, Hnocf. cbn [filter is_ask_counterfactual app].
    now apply Hno.
  - rewrite filter_app, Hreq. cbn [filter is_request app].
    rewrite (filter_none follow_up_event is_request tail); auto.
    now intros [].
  - exact Hq.
Qed.

Lemma run_loop_adaptive fuel : forall i env e e' evs st,
  adaptive_phase e ->
  run_loop fuel i env e = (e', evs, st) ->
  adaptive_phase e'
  /\ filter is_ask_counterfactual evs = []
  /\ (question_count e <= question_count e')%Z
  /\ filter is_request evs
     = repeat RequestSingle (Z.to_nat (question_count e' - question_count e)).
Proof.
  induction fuel as [|fuel IH]; intros i env e e' evs st Hph; cbn [run_loop].
  - intros [= <- <- <-]. rewrite Z.sub_diag. repeat split; auto. lia.
  - destruct (step (env i) e) as [[e1 evs1] st1] eqn:Hs.
    apply step_adaptive in Hs; [|exact Hph].
    destruct Hs as (H1 & Hcf1 & Hreq1 & Hq1).
    assert (Hone : adaptive_phase e1
              /\ filter is_ask_counterfactual evs1 = []
              /\ (question_count e <= question_count e1)%Z
              /\ filter is_request evs1
                 = repeat RequestSingle
                     (Z.to_nat (question_count e1 - question_count e))).
    { rewrite Hq1. replace (question_count e + 1 - question_count e)%Z with 1%Z
        by lia. repeat split; auto. lia. }
    destruct st1; try (intros [= <- <- <-]; exact Hone).
    destruct (run_loop fuel (S i) env e1) as [[e2 evs2] st2] eqn:Hr.
    apply IH in Hr; [|exact H1]. destruct Hr as (H2 & Hcf2 & Hq2 & Hreq2).
    intros [= <- <- <-].
    rewrite !filter_app, Hcf1, Hcf2, Hreq1, Hreq2.
    split; [exact H2|]. split; [reflexivity|]. split; [lia|].
    replace (question_count e2 - question_count e)%Z
      with (1 + (question_count e2 - question_count e1))%Z by lia.
    rewrite Z2Nat.inj_add by lia. reflexivity.
Qed.

(** X21.  The adaptive phase is absorbing: a session that is in the direct
    or adaptive phase stays there to its end, asks no counterfactual
    follow-up, and calls [request_R_design] exactly once per iteration,
    always in single-question mode and never for a block.  (Whether such a
    call reaches the R script is decided inside [request_R_design], which
    returns early when the store has no criterion of two levels.) *)
Theorem adaptive_phase_is_absorbing env e e' evs st :
  adaptive_phase e ->
  run_elicitation_session env e = (e', evs, st) ->
  adaptive_phase e'
  /\ filter is_ask_counterfactual evs = []
  /\ filter is_request evs
     = repeat RequestSingle (Z.to_nat (question_count e' - question_count e)).
Proof.
  unfold run_elicitation_session. intros Hph Hr.
  apply run_loop_adaptive in Hr; [|exact Hph].
  destruct Hr as (H1 & H2 & _ & H3). auto.
Qed.

(** Instance: a direct session over diffuse priors whose oracle is
    down. *)
Lemma adaptive_phase_is_absorbing_witness :
  let e := demo_engine MODFED_DIRECT 0 (demo_store 0 3) in
  let r := run_elicitation_session (fun _ => oracle_down) e in
  adaptive_phase (fst (fst r))
  /\ filter is_ask_counterfactual (snd (fst r)) = []
  /\ filter is_request (snd (fst r))
     = repeat RequestSingle
         (Z.to_nat (question_count (fst (fst r)) - question_count e)).
Proof.
  intros e r.
  apply (adaptive_phase_is_absorbing (fun _ => oracle_down) e
           (fst (fst r)) (snd (fst r)) (snd r)).
  - right. reflexivity.
  - subst r. now destruct (run_elicitation_session (fun _ => oracle_down) e)
      as [[e' evs] st].
Defined.

(** ** The iteration of a counterfactual ends with every belief in range *)

Lemma get_shape u c :
  Dict.get (shape u) c = option_map Dict.keys (Dict.get u c).
Proof.
  unfold shape. induction u as [|[k tbl] u IH]; simpl; auto.
  destruct (String.eqb k c); auto.
Qed.

Lemma mem_of_key {V} (d : Dict.t V) k :
  In k (Dict.keys d) -> Dict.mem d k = true.
Proof.
  unfold Dict.mem.
  induction d as [|[k' v] d IH]; simpl; [intros []|].
  destruct (String.eqb k' k) eqn:E; auto.
  intros [H|H]; auto. subst. now rewrite String.eqb_refl in E.
Qed.

Lemma list_index_In l x i : list_index l x = Some i -> In x l.
Proof.
  revert i. induction l as [|y l IH]; intros i; simpl; [discriminate|].
  destruct (String.eqb y x) eqn:E.
  - apply String.eqb_eq in E. auto.
  - destruct (list_index l x); [|discriminate]. eauto.
Qed.

Lemma py_index_In {A} (l : list A) i x : py_index l i = Some x -> In x l.
Proof.
  unfold py_index. destruct (0 <=? i)%Z.
  - apply nth_error_In.
  - destruct (0 <=? _)%Z; [apply nth_error_In | discriminate].
Qed.

Lemma has_belief_of_shape u cl c levels l :
  shape u = cl -> Dict.get cl c = Some levels -> In l levels ->
  Dict.mem u c = true /\ has_belief u c l = true.
Proof.
  intros <- Hg Hin. rewrite get_shape in Hg.
  unfold Dict.mem, has_belief.
  destruct (Dict.get u c) as [tbl|]; [|discriminate].
  injection Hg as <-. split; auto. now apply mem_of_key.
Qed.

Lemma counterfactual_step_in_range inp e chosen rejected e' evs st :
  shape (utilities_of e) = criteria_levels e ->
  ask_and_process_counterfactual inp e chosen rejected = (e', evs, st) ->
  evs <> [] ->
  store_in_range (utilities_of e').
Proof.
  intros Hsh. unfold ask_and_process_counterfactual.
  pose proof (counterfactual_plan_sound e chosen rejected) as Hp.
  destruct (counterfactual_plan e chosen rejected)
    as [| |tc ol il idx m]; try (intros [= <- <- <-]; congruence).
  destruct Hp as (levels & oi & Hl & _ & Ho & _ & Hi & _).
  intros [= <- <- <-] _. cbn [utilities_of set_utilities].
  destruct (has_belief_of_shape _ _ _ _ ol Hsh Hl (list_index_In _ _ _ Ho))
    as [Hm Hbo].
  destruct (has_belief_of_shape _ _ _ _ il Hsh Hl (py_index_In _ _ _ Hi))
    as [_ Hbi].
  unfold update_utilities_from_counterfactual.
  rewrite Hm, Hbo, Hbi. cbn [negb orb]. apply clamp_all_in_range.
Qed.

Lemma answer_in_range inp e a b cf e' evs st :
  shape (utilities_of e) = criteria_levels e ->
  answer inp e a b cf = (e', evs, st) ->
  filter is_ask_counterfactual evs <> [] ->
  store_in_range (utilities_of e').
Proof.
  intros Hsh. unfold answer.
  set (chosen := if main_choice_is_a inp then a else b).
  set (rejected := if main_choice_is_a inp then b else a).
  set (e3 := set_utilities _ _).
  assert (H3 : shape (utilities_of e3) = criteria_levels e3).
  { unfold e3. simpl. now rewrite simplified_update_shape. }
  clearbody e3.
  destruct cf.
  - destruct (ask_and_process_counterfactual inp e3 chosen rejected)
      as [[e4 evs_cf] st4] eqn:Hcf.
    pose proof (counterfactual_step_control _ _ _ _ _ _ _ Hcf) as (_ & -> & _).
    pose proof (counterfactual_step_in_range _ _ _ _ _ _ _ H3 Hcf) as Hr.
    destruct evs_cf as [|ev evs_cf].
    + destruct (check_convergence _); intros [= <- <- <-]; simpl; congruence.
    + destruct (check_convergence _); intros [= <- <- <-] _;
        apply Hr; discriminate.
  - destruct (check_convergence _); intros [= <- <- <-]; simpl; congruence.
Qed.

(** X22.  When the belief store has the criteria's own keys, an iteration
    that puts a counterfactual question ends with every belief in range:
    means in [-2, 2] and variances at least 0.01, whatever the means were
    before.  The closing loop of the counterfactual updater is reached
    every time the follow-up question is asked. *)
Theorem counterfactual_iteration_restores_range inp e e' evs st :
  shape (utilities_of e) = criteria_levels e ->
  step inp e = (e', evs, st) ->
  filter is_ask_counterfactual evs <> [] ->
  store_in_range (utilities_of e').
Proof.
  intros Hsh. unfold step.
  destruct (generate inp _) as [[e1 evs1] g] eqn:Hg.
  apply generate_data in Hg. destruct Hg as ((Hu & Hc & _) & Hev & _).
  cbn [utilities_of criteria_levels set_question_count] in Hu, Hc.
  assert (Hcf1 : filter is_ask_counterfactual evs1 = [])
    by (apply (filter_none generation_event); auto; now intros []).
  destruct g as [| |[pa|] [pb|] cf];
    try (intros [= <- <- <-]; rewrite ?filter_app, Hcf1; simpl; congruence).
  destruct (answer inp e1 pa pb cf) as [[e4 evs4] st4] eqn:Ha.
  intros [= <- <- <-]. rewrite filter_app, Hcf1. cbn [app].
  assert (H1 : shape (utilities_of e1) = criteria_levels e1) by congruence.
  exact (answer_in_range inp e1 pa pb cf e4 evs4 st4 H1 Ha).
Qed.

(** Instance: every mean starts at 5; the first orthogonal question and its
    counterfactual bring the store back in range. *)
Lemma counterfactual_iteration_restores_range_witness :
  let e := demo_engine PYTHON_ORTHOGONAL_CF 0 (demo_store 5 3) in
  let r := step oracle_down e in
  store_in_range (utilities_of (fst (fst r))).
Proof.
  intros e r.
  apply (counterfactual_iteration_restores_range oracle_down e
           (fst (fst r)) (snd (fst r)) (snd r)).
  - reflexivity.
  - subst r. now destruct (step oracle_down e) as [[e' evs] st].
  - vm_compute. discriminate.
Defined.

(** ** Posterior reconciliation, end to end *)

Lemma set_keys_nodup {V} (d : Dict.t V) k v :
  NoDup (Dict.keys d) -> NoDup (Dict.keys (Dict.set k v d)).
Proof.
  intros H. destruct (in_dec string_dec k (Dict.keys d)) as [Hin|Hout].
  - now rewrite keys_set_present.
  - rewrite set_fresh by exact Hout. unfold Dict.keys in *.
    rewrite map_app. simpl. apply NoDup_app; auto.
    + repeat constructor. intros [].
    + intros x Hx [<-|[]]. contradiction.
Qed.

Lemma collect_posteriors_nodup summary names : forall i acc,
  NoDup (Dict.keys acc) ->
  NoDup (Dict.keys (collect_posteriors summary i names acc)).
Proof.
  induction names as [|name names IH]; intros i acc Hacc;
    cbn [collect_posteriors]; auto.
  apply IH.
  destruct (Dict.get summary (beta_label i)); [now apply set_keys_nodup|].
  destruct (Dict.get summary name); [now apply set_keys_nodup | exact Hacc].
Qed.

Lemma collect_posteriors_other summary names name : forall i acc,
  ~ In name names ->
  Dict.get (collect_posteriors summary i names acc) name = Dict.get acc name.
Proof.
  induction names as [|n names IH]; intros i acc Hout;
    cbn [collect_posteriors]; auto.
  rewrite IH by (intros H; apply Hout; now right).
  assert (Hne : n <> name) by (intros ->; apply Hout; now left).
  destruct (Dict.get summary (beta_label i)); [now apply get_set_other|].
  destruct (Dict.get summary n); [now apply get_set_other | reflexivity].
Qed.

Lemma collect_posteriors_at summary names : forall i acc k name ms,
  NoDup names ->
  nth_error names k = Some name ->
  Dict.get summary (beta_label (i + k)) = Some ms ->
  Dict.get (collect_posteriors summary i names acc) name = Some ms.
Proof.
  induction names as [|n names IH]; intros i acc k name ms Hnd Hk Hs;
    [destruct k; discriminate|].
  inversion Hnd as [|? ? Hout Hnd']; subst.
  cbn [collect_posteriors]. destruct k as [|k].
  - injection Hk as ->. rewrite Nat.add_0_r in Hs. rewrite Hs.
    rewrite collect_posteriors_other by exact Hout.
    apply get_set_same.
  - apply (IH (S i) _ k); auto.
    now rewrite <- Nat.add_succ_comm in Hs.
Qed.

Lemma param_name_injective c l c' l' :
  split_first underscore c = None ->
  split_first underscore c' = None ->
  param_name_of c l = param_name_of c' l' -> c = c' /\ l = l'.
Proof.
  intros Hc Hc' E.
  pose proof (split_first_no_sep underscore c l Hc) as H1.
  pose proof (split_first_no_sep underscore c' l' Hc') as H2.
  unfold param_name_of in E. rewrite E in H1. rewrite H1 in H2.
  now injection H2.
Qed.

(** Distinct criterion names without an underscore, with distinct levels,
    give distinct parameter names. *)
Lemma param_names_nodup cl :
  distinct_names cl -> plain_names cl -> NoDup (param_names_of cl).
Proof.
  rewrite param_names_explicit. unfold distinct_names, plain_names.
  induction cl as [|[c ls] cl IH]; intros [Hk Hl] Hp; cbn [flat_map];
    [constructor|].
  inversion Hk as [|? ? Hout Hk']; subst.
  inversion Hl as [|? ? Hls Hl']; subst.
  inversion Hp as [|? ? Hc Hp']; subst.
  cbn [fst snd] in *.
  apply NoDup_app.
  - destruct ls as [|b [|b' ls]]; [constructor | constructor |].
    inversion Hls as [|? ? _ Hrest]; subst.
    apply Finite.Injective_map_NoDup; [|exact Hrest].
    intros x y E. now destruct (param_name_injective c x c y Hc Hc E).
  - apply IH; [split|]; auto.
  - intros name H1 H2.
    assert (H1' : exists l, name = param_name_of c l).
    { destruct ls as [|b [|b' ls]]; [destruct H1 | destruct H1 |].
      apply in_map_iff in H1. destruct H1 as [l [<- _]]. eauto. }
    destruct H1' as [l ->].
    apply in_flat_map in H2. destruct H2 as [[c' ls'] [Hin H2]].
    cbn [fst snd] in H2.
    assert (H2' : exists l', param_name_of c l = param_name_of c' l').
    { destruct ls' as [|b [|b' ls']]; [destruct H2 | destruct H2 |].
      apply in_map_iff in H2. destruct H2 as [l' [E _]]. eauto. }
    destruct H2' as [l' E].
    rewrite Forall_forall in Hp'. specialize (Hp' _ Hin). cbn [fst] in Hp'.
    destruct (param_name_injective c l c' l' Hc Hp' E) as [<- _].
    apply Hout. unfold Dict.keys. change c with (fst (c, ls')).
    now apply in_map.
Qed.

(** X23.  When criterion names are distinct and hold no underscore, levels
    are distinct, the sampler is installed and sampling succeeds, the
    reconciliation writes back what the sampler reported: for the
    parameter number [k], of criterion [c] and level [l], the profile's
    prior of [(c, l)] becomes the mean of the row [beta[k]] of the summary
    and the square of its standard deviation, and the profile file holds
    the data in memory. *)
Theorem reconciliation_writes_the_summary_back inf up hist cl summary
    k c l m sd :
  distinct_names cl ->
  plain_names cl ->
  pymc_installed inf = true ->
  sample_summary inf (build_request up hist cl) = Some summary ->
  nth_error (param_names_of cl) k = Some (param_name_of c l) ->
  split_first underscore c = None ->
  Dict.get summary (beta_label k) = Some (m, sd) ->
  let r := run_mcmc_model_in_background inf up hist cl in
  fst r = ProfileUpdated
  /\ UserProfileHBM.get_level_prior (snd r) c l = (m, sd ^ 2)
  /\ UserProfileHBM.profile_file (snd r)
     = Some (UserProfileHBM.data (snd r)).
Proof.
  intros Hd Hp Hpy Hs Hk Hc Hsum r. subst r.
  unfold run_mcmc_model_in_background. rewrite Hpy. cbn [negb].
  pose proof (param_names_nodup cl Hd Hp) as Hnd.
  destruct (param_names_of cl) as [|n names] eqn:Hn;
    [destruct k; discriminate|].
  rewrite Hs. cbn [fst snd].
  split; [reflexivity|]. split; [|reflexivity].
  rewrite get_level_prior_entry.
  unfold UserProfileHBM.update_profile_with_posteriors, UserProfileHBM.save.
  cbn [UserProfileHBM.data]. unfold Dict.items.
  rewrite (fold_update_same _ _ (param_name_of c l) m sd c l).
  - reflexivity.
  - apply collect_posteriors_nodup. constructor.
  - apply get_In. apply (collect_posteriors_at summary (n :: names) 0 [] k);
      auto.
  - unfold param_name_of. now apply split_first_no_sep.
Qed.

(** Instance: parameter number 1 of the demonstration criteria is
    ("Price", "high"). *)
Lemma reconciliation_writes_the_summary_back_witness :
  let r := run_mcmc_model_in_background sampler_up stored_profile
             reference_history demo_criteria in
  fst r = ProfileUpdated
  /\ UserProfileHBM.get_level_prior (snd r) "Price" "high" = (0.7, 0.5 ^ 2)
  /\ UserProfileHBM.profile_file (snd r)
     = Some (UserProfileHBM.data (snd r)).
Proof.
  apply (reconciliation_writes_the_summary_back sampler_up stored_profile
           reference_history demo_criteria
           (map (fun i => (beta_label i, (0.7, 0.5))) (seq 0 6))
           1 "Price" "high" 0.7 0.5).
  - exact demo_criteria_distinct.
  - unfold plain_names, demo_criteria. repeat constructor.
  - reflexivity.
  - reflexivity.
  - reflexivity.
  - reflexivity.
  - reflexivity.
Defined.

(** ** Kickstart iterations *)

(** X24.  On a 3 x 3 configuration an iteration of the orthogonal
    kickstart asks the pair the generator's counter selects without any
    request to the oracle: the question opens the trace and only the
    counterfactual and the convergence message can follow it.  The counter
    and the count of kickstart questions both advance by one; the strategy
    and the question budget are unchanged. *)
Theorem orthogonal_kickstart_asks_the_next_pair inp e :
  valid_3x3 (criteria_levels e) ->
  current_phase_strategy e = PYTHON_ORTHOGONAL_CF ->
  exists e' tail st,
    step inp e
    = (e',
       AskQuestion
         (row_profile (criteria_levels e)
            (fst (rows_at (orthogonal_fallback_pair_idx_counter e))))
         (row_profile (criteria_levels e)
            (snd (rows_at (orthogonal_fallback_pair_idx_counter e))))
       :: tail,
       st)
    /\ forallb follow_up_event tail = true
    /\ orthogonal_fallback_pair_idx_counter e'
       = (orthogonal_fallback_pair_idx_counter e + 1)%Z
    /\ initial_questions_done e' = (initial_questions_done e + 1)%Z
    /\ initial_strategy e' = initial_strategy e
    /\ MAX_PYTHON_ORTHO_CF_QUESTIONS e' = MAX_PYTHON_ORTHO_CF_QUESTIONS e.
Proof.
  intros Hv Hcps. unfold step.
  set (e0 := set_question_count e (question_count e + 1)%Z).
  assert (H0 : current_phase_strategy e0 = PYTHON_ORTHOGONAL_CF) by exact Hcps.
  unfold generate. rewrite H0. unfold generate_orthogonal.
  rewrite (orthogonal_pair_on_valid e0 Hv).
  destruct (answer inp _ _ _ true) as [[e4 evs4] st4] eqn:Ha.
  pose proof (answer_control _ _ _ _ _ _ _ _ Ha) as (Hc & _).
  apply answer_trace in Ha. destruct Ha as (tail & -> & Hfu & _).
  exists e4, tail, st4. split; [reflexivity|]. split; [exact Hfu|].
  unfold same_control in Hc.
  destruct Hc as (_ & C2 & C3 & _ & C5 & C6 & _).
  rewrite C2, C3, C5, C6. auto.
Qed.

(** Instance: the first iteration of an orthogonal session. *)
Lemma orthogonal_kickstart_asks_the_next_pair_witness :
  let e := demo_engine PYTHON_ORTHOGONAL_CF 0 (demo_store 0 3) in
  exists e' tail st,
    step oracle_down e
    = (e',
       AskQuestion
         (row_profile (criteria_levels e)
            (fst (rows_at (orthogonal_fallback_pair_idx_counter e))))
         (row_profile (criteria_levels e)
            (snd (rows_at (orthogonal_fallback_pair_idx_counter e))))
       :: tail,
       st)
    /\ forallb follow_up_event tail = true
    /\ orthogonal_fallback_pair_idx_counter e'
       = (orthogonal_fallback_pair_idx_counter e + 1)%Z
    /\ initial_questions_done e' = (initial_questions_done e + 1)%Z
    /\ initial_strategy e' = initial_strategy e
    /\ MAX_PYTHON_ORTHO_CF_QUESTIONS e' = MAX_PYTHON_ORTHO_CF_QUESTIONS e.
Proof.
  intros e. apply (orthogonal_kickstart_asks_the_next_pair oracle_down e).
  - exact demo_criteria_valid.
  - reflexivity.
Defined.

Lemma answer_of_generated inp e1 a b e' st evs :
  answer inp e1 a b true = (e', evs, st) ->
  exists tail,
    evs = AskQuestion a b :: tail
    /\ forallb follow_up_event tail = true
    /\ same_control e1 e'.
Proof.
  intros Ha.
  pose proof (answer_control _ _ _ _ _ _ _ _ Ha) as (Hc & _).
  apply answer_trace in Ha. destruct Ha as (tail & -> & Hfu & _).
  eauto.
Qed.

(** X25.  A block is fetched once and then served from the cache.  In the
    block kickstart, an iteration that finds an unread pair in the cache
    asks it without a request to the oracle and moves the cursor by one;
    an iteration that finds the cache used up sends one block request and,
    when the oracle answers with a block, stores the block, asks its first
    pair and leaves the cursor at 1. *)
Theorem block_is_fetched_once inp e a b :
  current_phase_strategy e = CEA_BLOCK_CF ->
  (cache_exhausted e = false ->
   py_index (cea_block_cache e) (cea_block_cache_idx e)
   = Some (Some a, Some b) ->
   exists e' tail st,
     step inp e = (e', AskQuestion a b :: tail, st)
     /\ forallb follow_up_event tail = true
     /\ cea_block_cache e' = cea_block_cache e
     /\ cea_block_cache_idx e' = (cea_block_cache_idx e + 1)%Z
     /\ initial_questions_done e' = (initial_questions_done e + 1)%Z)
  /\ (forall rest,
        cache_exhausted e = true ->
        block_reply inp = Some ((Some a, Some b) :: rest) ->
        exists e' tail st,
          step inp e = (e', RequestBlock :: AskQuestion a b :: tail, st)
          /\ forallb follow_up_event tail = true
          /\ cea_block_cache e' = (Some a, Some b) :: rest
          /\ cea_block_cache_idx e' = 1%Z
          /\ initial_questions_done e' = (initial_questions_done e + 1)%Z).
Proof.
  intros Hcps.
  set (e0 := set_question_count e (question_count e + 1)%Z).
  assert (H0 : current_phase_strategy e0 = CEA_BLOCK_CF) by exact Hcps.
  split.
  - intros Hex Hidx. unfold step. fold e0.
    unfold generate. rewrite H0. unfold generate_block.
    change (cache_exhausted e0) with (cache_exhausted e). rewrite Hex.
    cbn [negb].
    change (cea_block_cache e0) with (cea_block_cache e).
    change (cea_block_cache_idx e0) with (cea_block_cache_idx e).
    rewrite Hidx. cbv beta iota zeta.
    change (cache_exhausted e0) with (cache_exhausted e). rewrite Hex.
    cbn [negb]. cbv beta iota zeta.
    destruct (answer inp _ a b true) as [[e4 evs4] st4] eqn:Ha.
    apply answer_of_generated in Ha. destruct Ha as (tail & -> & Hfu & Hc).
    exists e4, tail, st4. split; [reflexivity|]. split; [exact Hfu|].
    unfold same_control in Hc.
    destruct Hc as (_ & _ & _ & _ & _ & C6 & C7 & C8 & _).
    rewrite C6, C7, C8. auto.
  - intros rest Hex Hreply. unfold step. fold e0.
    unfold generate. rewrite H0. unfold generate_block.
    change (cache_exhausted e0) with (cache_exhausted e). rewrite Hex, Hreply.
    set (e1 := set_cache e0 ((Some a, Some b) :: rest) 0).
    assert (Hex1 : cache_exhausted e1 = false) by reflexivity.
    rewrite Hex1. cbn [negb].
    assert (Hidx : py_index (cea_block_cache e1) (cea_block_cache_idx e1)
                   = Some (Some a, Some b)) by reflexivity.
    rewrite Hidx. cbv beta iota zeta.
    destruct (answer inp _ a b true) as [[e4 evs4] st4] eqn:Ha.
    apply answer_of_generated in Ha. destruct Ha as (tail & -> & Hfu & Hc).
    exists e4, tail, st4. split; [reflexivity|]. split; [exact Hfu|].
    unfold same_control in Hc.
    destruct Hc as (_ & _ & _ & _ & _ & C6 & C7 & C8 & _).
    rewrite C6, C7, C8. auto.
Qed.

(** Instance: a block of two pairs, fetched in the first iteration. *)
Lemma block_is_fetched_once_witness :
  let e := demo_engine CEA_BLOCK_CF 4 (demo_store 0 3) in
  let inp := {| block_reply := Some [(Some option_a, Some option_b);
                                     (Some option_b, Some option_a)];
                single_reply := None;
                main_choice_is_a := true; cf_choice_is_modified := false |} in
  exists e' tail st,
    step inp e = (e', RequestBlock :: AskQuestion option_a option_b :: tail, st)
    /\ forallb follow_up_event tail = true
    /\ cea_block_cache e'
       = [(Some option_a, Some option_b); (Some option_b, Some option_a)]
    /\ cea_block_cache_idx e' = 1%Z
    /\ initial_questions_done e' = (initial_questions_done e + 1)%Z.
Proof.
  intros e inp.
  apply (proj2 (block_is_fetched_once inp e option_a option_b eq_refl)
           [(Some option_b, Some option_a)]); reflexivity.
Defined.
